(** * pyflagser: the [.flag] codec ([flagio.py]) and the parameter handling
      of the homology front end ([flagser.py])

    A shallow embedding of the two Python modules.  The file is laid out as
    the code is: first the pieces of the Python run time, NumPy and SciPy the
    two modules call ([py], [np], [sp]), then [loadflag] / [saveflag], then
    [flagser_static] / [flagser_persistence], and finally the properties.

    Numbers are IEEE 754 values ([spec_float], binary64 unless a dtype says
    otherwise) and unbounded integers ([Z]); text is [string]; a raised
    exception is the [Raise] branch of [result]. *)

From Stdlib Require Import ZArith List String Ascii Bool Lia.
From Stdlib Require Import Sorting.Sorted Permutation.
From Stdlib Require Import SpecFloat DecimalString DecimalZ DecimalPos.
Import ListNotations.

Open Scope string_scope.
Open Scope Z_scope.

(* ================================================================== *)
(** * Python run time *)
(* ================================================================== *)

Module py.

(** ** Exceptions and results *)

(** An argument of an exception: the code passes a message and, for the
    filtration check, the list of known names. *)
Inductive arg :=
| AStr (s : string)
| AList (l : list string).

Inductive exn :=
| StopIteration
| ValueError (args : list arg)
| IndexError (msg : string)
| OverflowError (msg : string)
| TypeError (msg : string)
| FileNotFoundError (fname : string)
| External (tag : string).          (* raised inside a collaborator *)

Inductive result (A : Type) :=
| Ok (a : A)
| Raise (e : exn).
Arguments Ok {A} a.
Arguments Raise {A} e.

Definition bind {A B} (r : result A) (k : A -> result B) : result B :=
  match r with
  | Ok a => k a
  | Raise e => Raise e
  end.

Definition is_ok {A} (r : result A) : bool :=
  match r with Ok _ => true | Raise _ => false end.

Definition raises {A} (r : result A) : bool := negb (is_ok r).

(** [list(map(f, l))]: the first element on which [f] raises ends the loop. *)
Fixpoint map_result {A B} (f : A -> result B) (l : list A) : result (list B) :=
  match l with
  | [] => Ok []
  | a :: l' =>
      bind (f a) (fun b => bind (map_result f l') (fun bs => Ok (b :: bs)))
  end.

(** A [for] loop that threads one value through its body. *)
Fixpoint for_each {A S} (body : S -> A -> result S) (l : list A) (s : S)
  : result S :=
  match l with
  | [] => Ok s
  | a :: l' => bind (body s a) (for_each body l')
  end.

(** ** Numbers: [int] and [float] values *)

Inductive num :=
| Int (z : Z)
| Float (f : spec_float).

Definition prec64 : Z := 53.
Definition emax64 : Z := 1024.

Definition inf : spec_float := S754_infinity false.
Definition fzero : spec_float := S754_zero false.

(** [float(z)] for an integer: rounding to the nearest binary64, ties to
    even. *)
Definition float_of_Z (z : Z) : spec_float :=
  binary_normalize prec64 emax64 z 0 false.

Definition is_posinf (f : spec_float) : bool :=
  match f with S754_infinity false => true | _ => false end.

Definition is_neginf (f : spec_float) : bool :=
  match f with S754_infinity true => true | _ => false end.

Definition is_nan (f : spec_float) : bool :=
  match f with S754_nan => true | _ => false end.

Definition is_fzero (f : spec_float) : bool :=
  match f with S754_zero _ => true | _ => false end.

(** [x == np.inf] for an [int] or [float] [x]. *)
Definition eq_inf (x : num) : bool :=
  match x with
  | Int _ => false
  | Float f => is_posinf f
  end.

(** [int(x)] for a float: truncation towards zero; NaN and the infinities
    raise. *)
Definition int_of_float (x : spec_float) : result Z :=
  match x with
  | S754_zero _ => Ok 0
  | S754_nan => Raise (ValueError [AStr "cannot convert float NaN to integer"])
  | S754_infinity _ =>
      Raise (OverflowError "cannot convert float infinity to integer")
  | S754_finite s m e =>
      let a := if 0 <=? e then Zpos m * 2 ^ e else Zpos m / 2 ^ (- e) in
      Ok (if s then - a else a)
  end.

(** ** Strings *)

Definition is_space (c : ascii) : bool :=
  let n := nat_of_ascii c in
  ((9 <=? n) && (n <=? 13))%nat || ((28 <=? n) && (n <=? 32))%nat
  || (n =? 133)%nat || (n =? 160)%nat.

Fixpoint lstrip (l : list ascii) : list ascii :=
  match l with
  | c :: l' => if is_space c then lstrip l' else l
  | [] => []
  end.

Definition rstrip (l : list ascii) : list ascii := rev (lstrip (rev l)).

(** [s.strip()] *)
Definition strip (s : string) : string :=
  string_of_list_ascii (rstrip (lstrip (list_ascii_of_string s))).

(** [s.split(sep)] for a one-character separator: every occurrence cuts,
    so the empty string gives one empty token and two separators in a row
    give an empty token between them. *)
Fixpoint split_chars (sep : ascii) (l : list ascii) : list (list ascii) :=
  match l with
  | [] => [[]]
  | c :: l' =>
      if Ascii.eqb c sep then [] :: split_chars sep l'
      else match split_chars sep l' with
           | tok :: toks => (c :: tok) :: toks
           | [] => [[c]]
           end
  end.

Definition split (sep : ascii) (s : string) : list string :=
  map string_of_list_ascii (split_chars sep (list_ascii_of_string s)).

(** [sep.join(l)] *)
Fixpoint join (sep : string) (l : list string) : string :=
  match l with
  | [] => ""
  | [s] => s
  | s :: l' => s ++ sep ++ join sep l'
  end.

(** [l[i]] for a non-negative constant index. *)
Definition getitem {A} (l : list A) (i : nat) : result A :=
  match nth_error l i with
  | Some a => Ok a
  | None => Raise (IndexError "list index out of range")
  end.

(** ** Text files

    A text file is its content as text mode gives it (line ends already
    translated to newlines); reading cuts it into lines after each newline
    (the newline stays with its line, a last line without one is kept as it
    is). *)

Definition newline : ascii := "010"%char.

Fixpoint lines_chars (cur : list ascii) (l : list ascii) : list (list ascii) :=
  match l with
  | [] => match cur with [] => [] | _ => [rev cur] end
  | c :: l' =>
      if Ascii.eqb c newline then rev (c :: cur) :: lines_chars [] l'
      else lines_chars (c :: cur) l'
  end.

Definition readlines (content : string) : list string :=
  map string_of_list_ascii (lines_chars [] (list_ascii_of_string content)).

(** [f.readline()] on the lines still unread: the empty string at the end
    of the file. *)
Definition readline (f : list string) : string * list string :=
  match f with
  | [] => ("", [])
  | l :: f' => (l, f')
  end.

(** ** [float(s)]

    The grammar of the language reference: optional sign, then [inf],
    [infinity] or [nan] in any case, or a decimal number (digits with single
    underscores between them, an optional point, an optional exponent);
    the blanks [float] knows are dropped around it.  The value is the
    binary64 nearest to the decimal number, ties to even. *)

Definition is_digit (c : ascii) : bool :=
  let n := nat_of_ascii c in ((48 <=? n) && (n <=? 57))%nat.

Definition digit_val (c : ascii) : Z := Z.of_nat (nat_of_ascii c) - 48.

Definition starts_with_digit (l : list ascii) : bool :=
  match l with c :: _ => is_digit c | [] => false end.

(** The longest [digitpart] at the front of [l] (its digits, underscores
    dropped) and what follows it. *)
Fixpoint span_digitpart (l : list ascii) : list ascii * list ascii :=
  match l with
  | [] => ([], [])
  | c :: l' =>
      if is_digit c then
        match l' with
        | u :: l'' =>
            if Ascii.eqb u "_" && starts_with_digit l'' then
              let (ds, r) := span_digitpart l'' in (c :: ds, r)
            else
              let (ds, r) := span_digitpart l' in (c :: ds, r)
        | [] => ([c], [])
        end
      else ([], l)
  end.

Definition digits_val (ds : list ascii) : Z :=
  fold_left (fun acc c => 10 * acc + digit_val c) ds 0.

Definition lower (c : ascii) : ascii :=
  let n := nat_of_ascii c in
  if ((65 <=? n) && (n <=? 90))%nat then ascii_of_nat (n + 32) else c.

Definition lower_string (l : list ascii) : string :=
  string_of_list_ascii (map lower l).

(** The binary64 nearest to [d * 10 ^ e10] ([d] positive), with sign [s].
    A negative [e10] divides: the quotient is taken with 64 bits more than
    the divisor has and a sticky last bit, which the final rounding reads. *)
Definition round_decimal (s : bool) (d : Z) (e10 : Z) : spec_float :=
  if d =? 0 then S754_zero s
  else if 0 <=? e10 then
    binary_normalize prec64 emax64 (cond_Zopp s (d * 10 ^ e10)) 0 s
  else
    let den := 10 ^ (- e10) in
    let sh := 64 + Z.log2_up den in
    let n := d * 2 ^ sh in
    let q := n / den in
    let sticky := if n mod den =? 0 then 0 else 1 in
    binary_normalize prec64 emax64 (cond_Zopp s (2 * q + sticky)) (- sh - 1) s.

(** The optional exponent and the end of the text. *)
Definition parse_exponent (l : list ascii) : option Z :=
  match l with
  | [] => Some 0
  | c :: l' =>
      if Ascii.eqb (lower c) "e" then
        let (neg, l1) :=
          match l' with
          | "-"%char :: t => (true, t)
          | "+"%char :: t => (false, t)
          | _ => (false, l')
          end in
        match span_digitpart l1 with
        | ((_ :: _) as ds, []) =>
            Some (if neg then - digits_val ds else digits_val ds)
        | _ => None
        end
      else None
  end.

Definition parse_floatnumber (s : bool) (l : list ascii) : option spec_float :=
  let (ip, r1) := span_digitpart l in
  let '(fp, r2, ok) :=
    match r1 with
    | "."%char :: t =>
        let (fp, r2) := span_digitpart t in
        (fp, r2, negb (Nat.eqb (List.length ip + List.length fp) 0))
    | _ => ([], r1, negb (Nat.eqb (List.length ip) 0))
    end in
  if ok then
    match parse_exponent r2 with
    | Some e =>
        Some (round_decimal s (digits_val (ip ++ fp)%list)
                            (e - Z.of_nat (List.length fp)))
    | None => None
    end
  else None.

(** ** [repr(s)]

    The text of a string as the interpreter shows it, which is how an error
    message quotes it: between apostrophes, or between double quotes when
    the string holds an apostrophe and no double quote; the quote, the
    backslash, the tab, the newline, the return and the characters that do
    not print are escaped. *)

Definition dquote : ascii := "034"%char.
Definition apostrophe : ascii := "039"%char.
Definition backslash : ascii := "092"%char.

Definition hex_digit (k : nat) : ascii :=
  nth k (list_ascii_of_string "0123456789abcdef") "0"%char.

Definition printable (c : ascii) : bool :=
  let n := nat_of_ascii c in
  ((32 <=? n) && (n <? 127))%nat || ((161 <=? n) && negb (n =? 173))%nat.

Definition repr_char (quote c : ascii) : list ascii :=
  let n := nat_of_ascii c in
  if Ascii.eqb c quote || Ascii.eqb c backslash then [backslash; c]
  else if (n =? 9)%nat then [backslash; "t"%char]
  else if (n =? 10)%nat then [backslash; "n"%char]
  else if (n =? 13)%nat then [backslash; "r"%char]
  else if printable c then [c]
  else [backslash; "x"%char; hex_digit (n / 16); hex_digit (n mod 16)].

Definition repr (s : string) : string :=
  let l := list_ascii_of_string s in
  let quote :=
    if existsb (Ascii.eqb apostrophe) l && negb (existsb (Ascii.eqb dquote) l)
    then dquote else apostrophe in
  string_of_list_ascii (quote :: flat_map (repr_char quote) l ++ [quote]).

(** The blanks [float] drops around the number: the ASCII ones ([\t] to
    [\r] and the space) and, of the characters above 127, the two spaces
    [\x85] and [\xa0].  The separators [\x1c] to [\x1f], which [strip]
    drops, stay, and the text is then not a number. *)
Definition is_float_space (c : ascii) : bool :=
  let n := nat_of_ascii c in
  ((9 <=? n) && (n <=? 13))%nat || (n =? 32)%nat
  || (n =? 133)%nat || (n =? 160)%nat.

Fixpoint float_lstrip (l : list ascii) : list ascii :=
  match l with
  | c :: l' => if is_float_space c then float_lstrip l' else l
  | [] => []
  end.

Definition float_rstrip (l : list ascii) : list ascii :=
  rev (float_lstrip (rev l)).

Definition float_of_string (str : string) : result spec_float :=
  let l := float_rstrip (float_lstrip (list_ascii_of_string str)) in
  let (s, body) :=
    match l with
    | "-"%char :: t => (true, t)
    | "+"%char :: t => (false, t)
    | _ => (false, l)
    end in
  let word := lower_string body in
  let parsed :=
    if String.eqb word "inf" || String.eqb word "infinity"
    then Some (S754_infinity s)
    else if String.eqb word "nan" then Some S754_nan
    else parse_floatnumber s body in
  match parsed with
  | Some f => Ok f
  | None =>
      Raise (ValueError
               [AStr ("could not convert string to float: " ++ repr str)])
  end.

(** ** [%] formatting *)

(** ['%i' % z] *)
Definition fmt_i (z : Z) : string := NilZero.string_of_int (Z.to_int z).

(** [w] decimal digits of [z], the most significant first. *)
Fixpoint digits_fixed (w : nat) (z : Z) : string :=
  match w with
  | O => ""
  | S w' => digits_fixed w' (z / 10)
            ++ String (ascii_of_nat (48 + Z.to_nat (z mod 10))) ""
  end.

(** Whether [10 ^ k <= n / d]. *)
Definition pow10_le (k n d : Z) : bool :=
  if 0 <=? k then 10 ^ k * d <=? n else d <=? n * 10 ^ (- k).

(** The decimal exponent of the positive rational [n / d]: the largest [k]
    with [10 ^ k <= n / d], looked for around the estimate the binary
    logarithms give. *)
Definition decimal_exponent (n d : Z) : Z :=
  let est := (Z.log2 n - Z.log2 d) * 30103 / 100000 in
  if pow10_le (est + 2) n d then est + 2
  else if pow10_le (est + 1) n d then est + 1
  else if pow10_le est n d then est
  else if pow10_le (est - 1) n d then est - 1
  else est - 2.

Definition sign_string (s : bool) : string := if s then "-" else "".

(** The text of a value in scientific notation with nineteen digits [q]
    and decimal exponent [k]: one digit, a point, eighteen digits, and the
    exponent with its sign and at least two digits. *)
Definition sci_string (s : bool) (q k : Z) : string :=
  let ds := digits_fixed 19 q in
  sign_string s
  ++ substring 0 1 ds ++ "." ++ substring 1 18 ds
  ++ "e" ++ (if k <? 0 then "-" else "+")
  ++ (if Z.abs k <? 10 then "0" else "")
  ++ NilZero.string_of_uint (N.to_uint (Z.to_N (Z.abs k))).

(** ['%.18e' % x]: the nineteen digits are the exact value rounded to
    nearest, ties to even. *)
Definition fmt_e18 (x : spec_float) : string :=
  match x with
  | S754_nan => "nan"
  | S754_infinity s => sign_string s ++ "inf"
  | S754_zero s => sign_string s ++ "0.000000000000000000e+00"
  | S754_finite s m e =>
      let n := Zpos m * 2 ^ Z.max e 0 in
      let d := 2 ^ Z.max (- e) 0 in
      let k := decimal_exponent n d in
      let n1 := n * 10 ^ Z.max (18 - k) 0 in
      let d1 := d * 10 ^ Z.max (k - 18) 0 in
      let q := n1 / d1 in
      let r := n1 mod d1 in
      let up := (d1 <? 2 * r) || ((d1 =? 2 * r) && Z.odd q) in
      let q := if up then q + 1 else q in
      if 10 ^ 19 <=? q then sci_string s (q / 10) (k + 1)
      else sci_string s q k
  end.

End py.

(* ================================================================== *)
(** * NumPy: dtypes, scalars, [savetxt], [nan_to_num] *)
(* ================================================================== *)

Module np.

Inductive width := W8 | W16 | W32 | W64.
Inductive fwidth := F16 | F32 | F64.

(** The value domains a matrix can have: [bool], the signed and unsigned
    integers, the binary floating-point formats. *)
Inductive dtype :=
| bool_
| int_ (w : width)
| uint (w : width)
| floating (w : fwidth).

Definition float64 : dtype := floating F64.

Inductive scalar :=
| B (b : bool)
| I (z : Z)
| F (f : spec_float).

Definition entry : Type := Z * Z * scalar.

Definition bits (w : width) : Z :=
  match w with W8 => 8 | W16 => 16 | W32 => 32 | W64 => 64 end.

Definition fprec (w : fwidth) : Z :=
  match w with F16 => 11 | F32 => 24 | F64 => 53 end.

Definition femax (w : fwidth) : Z :=
  match w with F16 => 16 | F32 => 128 | F64 => 1024 end.

Definition width_eqb (a b : width) : bool :=
  match a, b with
  | W8, W8 | W16, W16 | W32, W32 | W64, W64 => true
  | _, _ => false
  end.

Definition fwidth_eqb (a b : fwidth) : bool :=
  match a, b with
  | F16, F16 | F32, F32 | F64, F64 => true
  | _, _ => false
  end.

(** [d1 == d2] on dtypes. *)
Definition dtype_eqb (d1 d2 : dtype) : bool :=
  match d1, d2 with
  | bool_, bool_ => true
  | int_ a, int_ b => width_eqb a b
  | uint a, uint b => width_eqb a b
  | floating a, floating b => fwidth_eqb a b
  | _, _ => false
  end.

(** [np.issubdtype(d, np.integer)] *)
Definition issubdtype_integer (d : dtype) : bool :=
  match d with int_ _ | uint _ => true | _ => false end.

(** [np.float] is the builtin [float].  As the second argument of
    [np.issubdtype] the releases before 1.20 read it as the class of the
    floating-point formats, and the releases 1.20 to 1.23 as [float64]
    alone.  (The releases before 1.17 have no [posinf] in [nan_to_num] and
    the releases from 1.24 on have no [np.float]: the code runs on
    neither.) *)
Inductive float_alias := floating_class | float64_only.

(** [np.issubdtype(d, np.float)] *)
Definition issubdtype_float (np_float : float_alias) (d : dtype) : bool :=
  match d with
  | floating w =>
      match np_float with
      | floating_class => true
      | float64_only => fwidth_eqb w F64
      end
  | _ => false
  end.

(** [np.iinfo(d).max]; [iinfo] raises on a dtype that is not an integer. *)
Definition iinfo_max (d : dtype) : py.result Z :=
  match d with
  | int_ w => py.Ok (2 ^ (bits w - 1) - 1)
  | uint w => py.Ok (2 ^ bits w - 1)
  | _ => py.Raise (py.ValueError [py.AStr "Invalid integer data type."])
  end.

(** Two's complement wrap-around of the integer dtypes. *)
Definition wrap (d : dtype) (z : Z) : Z :=
  match d with
  | int_ w => (z + 2 ^ (bits w - 1)) mod 2 ^ bits w - 2 ^ (bits w - 1)
  | uint w => z mod 2 ^ bits w
  | _ => z
  end.

(** [v != 0] *)
Definition nonzero (v : scalar) : bool :=
  match v with
  | B b => b
  | I z => negb (z =? 0)
  | F f => negb (py.is_fzero f)
  end.

Definition zero (d : dtype) : scalar :=
  match d with
  | bool_ => B false
  | int_ _ | uint _ => I 0
  | floating _ => F py.fzero
  end.

Definition to_Z (v : scalar) : Z :=
  match v with
  | B b => if b then 1 else 0
  | I z => z
  | F f => match py.int_of_float f with py.Ok z => z | py.Raise _ => 0 end
  end.

(** [float(v)], what [%.18e] formats. *)
Definition to_float (v : scalar) : spec_float :=
  match v with
  | B b => py.float_of_Z (if b then 1 else 0)
  | I z => py.float_of_Z z
  | F f => f
  end.

(** [x + y] inside an array of dtype [d]: [or] for [bool], wrap-around for
    the integers, the format's rounding for the floats. *)
Definition add (d : dtype) (x y : scalar) : scalar :=
  match d with
  | bool_ => B (nonzero x || nonzero y)
  | int_ _ | uint _ => I (wrap d (to_Z x + to_Z y))
  | floating w => F (SFadd (fprec w) (femax w) (to_float x) (to_float y))
  end.

(** ** [np.add.reduce] over the values of one run

    The floating-point loops do not add from left to right: the values that
    follow the first are summed apart, by [pairwise_sum], and the sum is
    added to the first. *)

Section Pairwise.

Variable plus : spec_float -> spec_float -> spec_float.

Fixpoint zip_plus (r l : list spec_float) : list spec_float :=
  match r, l with
  | x :: r', y :: l' => plus x y :: zip_plus r' l'
  | _, _ => r
  end.

(** [k] more blocks of eight are added, lane by lane, to the eight partial
    sums [r]; what follows the blocks is returned with them. *)
Fixpoint add_blocks (k : nat) (r l : list spec_float)
  : list spec_float * list spec_float :=
  match k with
  | O => (r, l)
  | S k' => add_blocks k' (zip_plus r (firstn 8 l)) (skipn 8 l)
  end.

(** Eight values or more, up to the block size: eight partial sums, added
    as a tree, then the values that fill no block of eight. *)
Definition block_sum (l : list spec_float) : spec_float :=
  let blocks := (List.length l / 8 - 1)%nat in
  let (r, rest) := add_blocks blocks (firstn 8 l) (skipn 8 l) in
  let at_ i := nth i r py.fzero in
  fold_left plus rest
    (plus (plus (plus (at_ 0%nat) (at_ 1%nat)) (plus (at_ 2%nat) (at_ 3%nat)))
          (plus (plus (at_ 4%nat) (at_ 5%nat)) (plus (at_ 6%nat) (at_ 7%nat)))).

(** [pairwise_sum]: fewer than eight values are added one by one to
    [0.0]; more than 128 are cut in two, the first part a multiple of
    eight, and the two sums are added. *)
Fixpoint pairwise_sum_at (depth : nat) (l : list spec_float) : spec_float :=
  let size := List.length l in
  if (size <? 8)%nat then fold_left plus l py.fzero
  else if (size <=? 128)%nat then block_sum l
  else
    match depth with
    | O => block_sum l
    | S depth' =>
        let half := (size / 2 - (size / 2) mod 8)%nat in
        plus (pairwise_sum_at depth' (firstn half l))
             (pairwise_sum_at depth' (skipn half l))
    end.

Definition pairwise_sum (l : list spec_float) : spec_float :=
  pairwise_sum_at (List.length l) l.

End Pairwise.

(** A value of the format of width [w], from one of a wider format. *)
Definition round_to (w : fwidth) (x : spec_float) : spec_float :=
  match x with
  | S754_finite s m e =>
      binary_normalize (fprec w) (femax w) (cond_Zopp s (Zpos m)) e s
  | _ => x
  end.

(** The values [rest] added to [v0] by the loop of [np.add] in dtype [d]:
    [or] and the wrapping sum go from left to right; [float64] and [float32]
    add the pairwise sum of [rest] to [v0]; [float16] does so in [float32]
    and rounds the result. *)
Definition add_reduce (d : dtype) (v0 : scalar) (rest : list scalar) : scalar :=
  match rest with
  | [] => v0
  | _ =>
      match d with
      | floating F16 =>
          let plus := SFadd (fprec F32) (femax F32) in
          F (round_to F16
               (plus (to_float v0) (pairwise_sum plus (map to_float rest))))
      | floating w =>
          let plus := SFadd (fprec w) (femax w) in
          F (plus (to_float v0) (pairwise_sum plus (map to_float rest)))
      | _ => fold_left (add d) rest v0
      end
  end.

(** [np.finfo(np.float64).max] *)
Definition float_max : spec_float := SFmax_float py.prec64 py.emax64.

(** A Python number stored into a [float64] array: an [int] that fits 64
    bits is converted with rounding, a larger one is an object that cannot be
    cast. *)
Definition as_float64 (v : py.num) : py.result spec_float :=
  match v with
  | py.Float f => py.Ok f
  | py.Int z =>
      if (- 2 ^ 63 <=? z) && (z <? 2 ^ 64) then py.Ok (py.float_of_Z z)
      else py.Raise (py.TypeError "Cannot cast scalar from dtype('O') to dtype('float64') according to the rule 'same_kind'")
  end.

(** One element under [nan_to_num]: NaN becomes [0.0], [+inf] becomes
    [maxf] and [-inf] becomes [minf]. *)
Definition nan_to_num1 (maxf minf : spec_float) (x : spec_float) : spec_float :=
  if py.is_nan x then py.fzero
  else if py.is_posinf x then maxf
  else if py.is_neginf x then minf
  else x.

(** [np.nan_to_num(x, posinf=posinf)] on an array of (birth, death) rows;
    [nan] and [neginf] keep their defaults ([0.0] and the most negative
    finite value), and [posinf=None] means the largest finite value. *)
Definition nan_to_num (x : list (spec_float * spec_float))
    (posinf : option py.num) : py.result (list (spec_float * spec_float)) :=
  py.bind (match posinf with
           | Some v => as_float64 v
           | None => py.Ok float_max
           end)
    (fun maxf =>
       let f := nan_to_num1 maxf (SFopp float_max) in
       py.Ok (map (fun '(b, d) => (f b, f d)) x)).

(** [np.savetxt(f, X, header=header, comments='')]: the header line, then
    one line per row of [X]; [fmt_row] is the row format ([fmt] joined with
    the delimiter when it holds a single specifier). *)
Definition savetxt {A} (X : list A) (fmt_row : A -> string) (header : string)
  : string :=
  header ++ String py.newline ""
  ++ concat "" (map (fun row => fmt_row row ++ String py.newline "") X).

End np.

(* ================================================================== *)
(** * SciPy sparse matrices *)
(* ================================================================== *)

Module sp.

Import np.

Inductive format := csr | csc | coo.

(** A sparse matrix is its format, its dtype, its size and the stored
    triples (row, column, value) in storage order: what [tocoo()] lists.  A
    stored value may be zero, and COO storage may hold a position twice. *)
Record spmatrix := {
  fmt : format;
  dtype : np.dtype;
  n : nat;
  stored : list entry
}.

(** A flag matrix: a dense 2-d array (its rows) or a sparse matrix. *)
Inductive matrix :=
| Dense (d : np.dtype) (rows : list (list scalar))
| Sparse (m : spmatrix).

Definition dtype_of (M : matrix) : np.dtype :=
  match M with
  | Dense d _ => d
  | Sparse m => dtype m
  end.

Definition shape (M : matrix) : nat :=
  match M with
  | Dense _ rows => List.length rows
  | Sparse m => n m
  end.

Definition row_of (e : entry) : Z := fst (fst e).
Definition col_of (e : entry) : Z := snd (fst e).
Definition val_of (e : entry) : scalar := snd e.

Definition at_pos (r c : Z) (e : entry) : bool :=
  (row_of e =? r) && (col_of e =? c).

Definition same_pos (a b : entry) : bool := at_pos (row_of a) (col_of a) b.

(** ** Order of the triples *)

(** The two keys [coo._sum_duplicates] has sorted by: [np.lexsort((row,
    col))], column first, in the releases the code was written for, and
    [np.lexsort(coords[::-1])], row first, in later ones. *)
Inductive lexsort_key := ColRow | RowCol.

Definition pos_ltb (k : lexsort_key) (a b : entry) : bool :=
  match k with
  | ColRow => (col_of a <? col_of b)
              || ((col_of a =? col_of b) && (row_of a <? row_of b))
  | RowCol => (row_of a <? row_of b)
              || ((row_of a =? row_of b) && (col_of a <? col_of b))
  end.

Section Sort.

Variable ltb : entry -> entry -> bool.

(** Stable insertion: [e] goes before the first element that is not below
    it. *)
Fixpoint insert (e : entry) (l : list entry) : list entry :=
  match l with
  | [] => [e]
  | x :: l' => if ltb x e then x :: insert e l' else e :: l
  end.

Fixpoint sort (l : list entry) : list entry :=
  match l with
  | [] => []
  | e :: l' => insert e (sort l')
  end.

End Sort.

(** [np.add.reduceat] over runs of one position: a run starts at [cur],
    [acc] holds the values that followed it so far, and at the end of the
    run they are reduced into the value of [cur]. *)
Fixpoint merge_run (d : np.dtype) (cur : entry) (acc : list scalar)
    (l : list entry) : list entry :=
  match l with
  | [] => [(fst cur, np.add_reduce d (val_of cur) acc)]
  | e :: l' =>
      if same_pos cur e
      then merge_run d cur (acc ++ [val_of e]) l'
      else (fst cur, np.add_reduce d (val_of cur) acc) :: merge_run d e [] l'
  end.

Definition sum_adjacent (d : np.dtype) (l : list entry) : list entry :=
  match l with
  | [] => []
  | e :: l' => merge_run d e [] l'
  end.

(** [coo.sum_duplicates()] *)
Definition sum_duplicates (k : lexsort_key) (d : np.dtype) (l : list entry)
  : list entry :=
  sum_adjacent d (sort (pos_ltb k) l).

(** ** Dense arrays as triples *)

Fixpoint enumerate_from {A} (i : Z) (l : list A) : list (Z * A) :=
  match l with
  | [] => []
  | a :: l' => (i, a) :: enumerate_from (i + 1) l'
  end.

Definition enumerate {A} (l : list A) : list (Z * A) := enumerate_from 0 l.

(** [M.nonzero()] with the values: the cells that are not zero, row by
    row. *)
Definition dense_nonzero (rows : list (list scalar)) : list entry :=
  flat_map (fun '(i, row) =>
              flat_map (fun '(j, v) => if nonzero v then [(i, j, v)] else [])
                       (enumerate row))
           (enumerate rows).

(** ** [sp.find]

    [find(A)] copies [A] into COO form, sums duplicates (a dense array
    converts to canonical triples, which are left as they are) and drops the
    triples whose value is zero. *)
Definition find (k : lexsort_key) (A : matrix) : list entry :=
  match A with
  | Dense _ rows => filter (fun e => nonzero (val_of e)) (dense_nonzero rows)
  | Sparse m =>
      filter (fun e => nonzero (val_of e))
             (sum_duplicates k (dtype m) (stored m))
  end.

(** ** [diagonal()] *)

Definition stored_at (r c : Z) (l : list entry) : list scalar :=
  map val_of (filter (at_pos r c) l).

(** One diagonal cell of a sparse matrix.  The compressed formats add the
    stored values one by one to a zero; COO sums the duplicates as
    [sum_duplicates] does and writes the sum into an array of zeros. *)
Definition diagonal_cell (m : spmatrix) (i : Z) : scalar :=
  let vs := stored_at i i (stored m) in
  match fmt m, vs with
  | coo, [] => zero (dtype m)
  | coo, v :: vs' => np.add_reduce (dtype m) v vs'
  | _, _ => fold_left (np.add (dtype m)) vs (zero (dtype m))
  end.

(** [M.diagonal()]: for a dense array the cells [rows[i][i]] that exist,
    so as many as the shorter side has. *)
Definition diagonal (M : matrix) : list scalar :=
  match M with
  | Dense d rows =>
      flat_map (fun '(i, row) => match nth_error row (Z.to_nat i) with
                                 | Some v => [v]
                                 | None => []
                                 end)
               (enumerate rows)
  | Sparse m =>
      map (fun i => diagonal_cell m (Z.of_nat i)) (seq 0 (n m))
  end.

(** ** Building a CSR matrix *)

(** [sp.csr_matrix((n, n), dtype=d)] *)
Definition csr_matrix (size : nat) (d : np.dtype) : spmatrix :=
  {| fmt := csr; dtype := d; n := size; stored := [] |}.

(** The stored triples after [self[r, c] = v] on a CSR matrix with sorted
    indices: a stored position gets the new value, a new one is inserted in
    its row at its column. *)
Fixpoint set_entry (r c : Z) (v : scalar) (l : list entry) : list entry :=
  match l with
  | [] => [(r, c, v)]
  | x :: l' =>
      if at_pos r c x then (r, c, v) :: l'
      else if pos_ltb RowCol (r, c, v) x then (r, c, v) :: l
      else x :: set_entry r c v l'
  end.

(** [_validate_indices] for one integer index: outside [-n, n) it raises,
    naming the index, and a negative index counts from the end. *)
Definition validate_index (what : string) (size : nat) (i : Z) : py.result Z :=
  if (i <? - Z.of_nat size) || (Z.of_nat size <=? i)
  then py.Raise (py.IndexError (what ++ " index (" ++ py.fmt_i i
                                ++ ") out of range"))
  else py.Ok (if i <? 0 then i + Z.of_nat size else i).

(** [m[r, c] = v] with integer indices. *)
Definition setitem (m : spmatrix) (r c : Z) (v : scalar) : py.result spmatrix :=
  py.bind (validate_index "row" (n m) r) (fun r' =>
  py.bind (validate_index "column" (n m) c) (fun c' =>
  py.Ok {| fmt := fmt m; dtype := dtype m; n := n m;
           stored := set_entry r' c' v (stored m) |})).

(** [m.setdiag(values)]: [m[i, i] = values[i]] for every [i] below the size
    of the matrix and the number of values; each value is stored, a zero
    too. *)
Definition setdiag (m : spmatrix) (values : list scalar) : spmatrix :=
  {| fmt := fmt m; dtype := dtype m; n := n m;
     stored := fold_left (fun l '(i, v) => set_entry i i v l)
                         (firstn (n m) (enumerate values)) (stored m) |}.

(** ** [asformat] on a CSR matrix *)

Inductive format_name := fmt_csr | fmt_csc | fmt_coo | fmt_dense.

(** The cell [(i, j)] of [todense()]: the stored values added to a zero. *)
Definition dense_cell (m : spmatrix) (i j : Z) : scalar :=
  fold_left (np.add (dtype m)) (stored_at i j (stored m)) (zero (dtype m)).

Definition todense (m : spmatrix) : list (list scalar) :=
  map (fun i => map (fun j => dense_cell m (Z.of_nat i) (Z.of_nat j))
                    (seq 0 (n m)))
      (seq 0 (n m)).

(** [m.asformat(name)] for a CSR matrix [m]: CSR is [m] itself, COO lists
    the same triples, CSC lists them column by column, and a dense result
    keeps values only. *)
Definition asformat (m : spmatrix) (name : format_name) : matrix :=
  match name with
  | fmt_csr => Sparse m
  | fmt_coo => Sparse {| fmt := coo; dtype := dtype m; n := n m;
                         stored := stored m |}
  | fmt_csc => Sparse {| fmt := csc; dtype := dtype m; n := n m;
                         stored := sort (fun a b => col_of a <? col_of b)
                                        (stored m) |}
  | fmt_dense => Dense (dtype m) (todense m)
  end.

(** ** Reading a matrix *)

(** Whether the cell is present: every cell of a dense array, the stored
    positions of a sparse matrix. *)
Definition present (M : matrix) (r c : Z) : bool :=
  match M with
  | Dense _ rows =>
      (0 <=? r) && (0 <=? c)
      && match nth_error rows (Z.to_nat r) with
         | Some row => c <? Z.of_nat (List.length row)
         | None => false
         end
  | Sparse m => existsb (at_pos r c) (stored m)
  end.

(** The stored value at a position of a matrix without duplicates. *)
Definition lookup (m : spmatrix) (r c : Z) : option scalar :=
  option_map val_of (List.find (at_pos r c) (stored m)).

End sp.

(* ================================================================== *)
(** * [flagio.py] *)
(* ================================================================== *)

Notation "x <- e ;; k" := (py.bind e (fun x => k))
  (at level 61, e at next level, right associativity).

(** The vertex line: [list(map(float, line.split(' ')))] on the stripped
    line. *)
Definition vertex_weights (line : string) : py.result (list spec_float) :=
  py.map_result py.float_of_string (py.split " " (py.strip line)).

(** What the assignment in the loop of [loadflag] evaluates before it
    stores: the line is stripped and cut at single blanks, then the
    right-hand side [float(edge[2])] comes first, then the two indices. *)
Definition edge_record (line : string) : py.result (Z * Z * spec_float) :=
  let edge := py.split " " (py.strip line) in
  w <- (t <- py.getitem edge 2 ;; py.float_of_string t) ;;
  r <- (t <- py.getitem edge 0 ;; x <- py.float_of_string t ;;
        py.int_of_float x) ;;
  c <- (t <- py.getitem edge 1 ;; x <- py.float_of_string t ;;
        py.int_of_float x) ;;
  py.Ok (r, c, w).

(** One pass of the loop: [flag_matrix[r, c] = w]. *)
Definition load_edge (flag_matrix : sp.spmatrix) (line : string)
  : py.result sp.spmatrix :=
  rcw <- edge_record line ;;
  sp.setitem flag_matrix (fst (fst rcw)) (snd (fst rcw)) (np.F (snd rcw)).

(** [loadflag(fname, fmt)] on the content [f] of the file [fname], with
    [dtype] at its default ([None], that is [float64]).  [next(f)] skips the
    first line and raises at the end of the file; [f.readline()] gives the
    vertex line; [f.readlines()[1:]] skips one more line and gives the edge
    lines. *)
Definition loadflag (f : string) (fmt : sp.format_name) : py.result sp.matrix :=
  match py.readlines f with
  | [] => py.Raise py.StopIteration
  | _ :: f =>
      let (line, f) := py.readline f in
      vertices <- vertex_weights line ;;
      let flag_matrix := sp.csr_matrix (List.length vertices) np.float64 in
      let flag_matrix := sp.setdiag flag_matrix (map np.F vertices) in
      flag_matrix <- py.for_each load_edge (tl f) flag_matrix ;;
      py.Ok (sp.asformat flag_matrix fmt)
  end.

(** The row formats of [saveflag]: ['%.18e'] for every value of the vertex
    line, ['%i %i'] and ['%i %i %.18e'] for an edge. *)
Definition fmt_vertices (row : list np.scalar) : string :=
  py.join " " (map (fun v => py.fmt_e18 (np.to_float v)) row).

Definition fmt_edge_bool (e : np.entry) : string :=
  py.fmt_i (sp.row_of e) ++ " " ++ py.fmt_i (sp.col_of e).

Definition fmt_edge (e : np.entry) : string :=
  py.fmt_i (sp.row_of e) ++ " " ++ py.fmt_i (sp.col_of e) ++ " "
  ++ py.fmt_e18 (np.to_float (sp.val_of e)).

(** [saveflag(fname, flag_matrix)]: the text written to [fname].  [k] is
    the sort key of the SciPy release at hand. *)
Definition saveflag (k : sp.lexsort_key) (flag_matrix : sp.matrix) : string :=
  np.savetxt [sp.diagonal flag_matrix] fmt_vertices "dim 0"
  ++ (if np.dtype_eqb (sp.dtype_of flag_matrix) np.bool_
      then np.savetxt (sp.find k flag_matrix) fmt_edge_bool "dim 1"
      else np.savetxt (sp.find k flag_matrix) fmt_edge "dim 1").

(* ================================================================== *)
(** * [flagser.py] *)
(* ================================================================== *)

(** Modelled from the spec: [implemented_filtrations], the registry the
    compiled binding [flagser_pybind] exports; the eleven names are the ones
    the specification and the two docstrings list. *)
Definition implemented_filtrations : list string :=
  ["dimension"; "zero"; "max"; "max3"; "max_plus_one"; "product"; "sum";
   "pmean"; "pmoment"; "remove_edges"; "vertex_degree"].

(** [x in l] on strings. *)
Definition str_in (x : string) (l : list string) : bool :=
  existsb (String.eqb x) l.

(** ** What crosses the boundary to the collaborators *)

Definition vertices_t : Type := list np.scalar.
Definition edges_t : Type := list np.entry.
Definition diagram : Type := list (spec_float * spec_float).

(** The arguments of [compute_homology], in the order of the call. *)
Record engine_args := {
  arg_vertices : vertices_t;
  arg_edges : edges_t;
  arg_min_dimension : Z;
  arg_max_dimension : py.num;
  arg_directed : bool;
  arg_coeff : Z;
  arg_approximation : Z;
  arg_filtration : string
}.

(** What one element of the engine's answer exposes. *)
Record homology := {
  get_persistence_diagram : list diagram;
  get_cell_count : list Z;
  get_betti_numbers : list Z;
  get_euler_characteristic : Z
}.

(** The dictionary both functions return. *)
Record out_dict := {
  dgms : list diagram;
  cell_count : list Z;
  betti : list Z;
  euler : Z
}.

(** A call that leaves the module. *)
Inductive call :=
| ExtractStatic (flag_matrix : sp.matrix)
| ExtractPersistence (flag_matrix : sp.matrix) (max_edge_length : option py.num)
| ComputeHomology (args : engine_args).

(** ** Computations that log their outside calls *)

Definition run (A : Type) : Type := list call -> py.result A * list call.

Definition ret {A} (a : A) : run A := fun log => (py.Ok a, log).

Definition raise {A} (e : py.exn) : run A := fun log => (py.Raise e, log).

Definition lift {A} (r : py.result A) : run A := fun log => (r, log).

Definition bind_run {A B} (m : run A) (k : A -> run B) : run B :=
  fun log =>
    match m log with
    | (py.Ok a, log') => k a log'
    | (py.Raise e, log') => (py.Raise e, log')
    end.

(** An outside call: it is logged, then its answer is the result. *)
Definition outside {A} (c : call) (answer : py.result A) : run A :=
  fun log => (answer, (log ++ [c])%list).

Notation "x <~ e ;; k" := (bind_run e (fun x => k))
  (at level 61, e at next level, right associativity).

(** The text of the error both functions raise on an unknown filtration;
    the misspelling is the code's. *)
Definition filtration_message : string :=
  "Filtration not recongnized. Available filtrations are ".

Definition filtration_error : py.exn :=
  py.ValueError [py.AStr filtration_message; py.AList implemented_filtrations].

(** The default of [max_edge_length] in [flagser_persistence]: a given
    value stays; [None] becomes the largest integer of an integer dtype,
    [np.inf] for a dtype that [np.issubdtype] puts under [np.float], and
    stays [None] otherwise. *)
Definition resolve_max_edge_length (np_float : np.float_alias)
    (max_edge_length : option py.num) (d : np.dtype)
  : py.result (option py.num) :=
  match max_edge_length with
  | None =>
      if np.issubdtype_integer d then
        m <- np.iinfo_max d ;; py.Ok (Some (py.Int m))
      else if np.issubdtype_float np_float d
      then py.Ok (Some (py.Float py.inf))
      else py.Ok None
  | Some v => py.Ok (Some v)
  end.

Section Flagser.

(** What [np.float] stands for in the NumPy release at hand. *)
Variable np_float : np.float_alias.

(** The collaborators: the two weight extractions of [_utils] and the
    engine of [flagser_pybind]. *)
Variable _extract_static_weights :
  sp.matrix -> py.result (vertices_t * edges_t).
Variable _extract_persistence_weights :
  sp.matrix -> option py.num -> py.result (vertices_t * edges_t).
Variable compute_homology : engine_args -> py.result (list homology).

Definition flagser_static (flag_matrix : sp.matrix) (min_dimension : Z)
    (max_dimension : py.num) (directed : bool) (filtration : string)
    (coeff : Z) (approximation : option Z) : run out_dict :=
  let _max_dimension :=
    if py.eq_inf max_dimension then py.Int (-1) else max_dimension in
  let _approximation :=
    match approximation with
    | None => -1
    | Some a => a
    end in
  if negb (str_in filtration implemented_filtrations)
  then raise filtration_error
  else
    ve <~ outside (ExtractStatic flag_matrix)
                  (_extract_static_weights flag_matrix) ;;
    let args := {| arg_vertices := fst ve; arg_edges := snd ve;
                   arg_min_dimension := min_dimension;
                   arg_max_dimension := _max_dimension;
                   arg_directed := directed; arg_coeff := coeff;
                   arg_approximation := _approximation;
                   arg_filtration := filtration |} in
    homology <~ outside (ComputeHomology args) (compute_homology args) ;;
    h0 <~ lift (py.getitem homology 0) ;;
    ret {| dgms := get_persistence_diagram h0;
           cell_count := get_cell_count h0;
           betti := get_betti_numbers h0;
           euler := get_euler_characteristic h0 |}.

Definition flagser_persistence (flag_matrix : sp.matrix)
    (max_edge_length : option py.num) (min_dimension : Z)
    (max_dimension : py.num) (directed : bool) (filtration : string)
    (coeff : Z) (approximation : option Z) : run out_dict :=
  _max_edge_length <~ lift (resolve_max_edge_length np_float max_edge_length
                              (sp.dtype_of flag_matrix)) ;;
  let _max_dimension :=
    if py.eq_inf max_dimension then py.Int (-1) else max_dimension in
  let _approximation :=
    match approximation with
    | None => -1
    | Some a => a
    end in
  if negb (str_in filtration implemented_filtrations)
  then raise filtration_error
  else
    ve <~ outside (ExtractPersistence flag_matrix _max_edge_length)
                  (_extract_persistence_weights flag_matrix
                                                _max_edge_length) ;;
    let args := {| arg_vertices := fst ve; arg_edges := snd ve;
                   arg_min_dimension := min_dimension;
                   arg_max_dimension := _max_dimension;
                   arg_directed := directed; arg_coeff := coeff;
                   arg_approximation := _approximation;
                   arg_filtration := filtration |} in
    homology <~ outside (ComputeHomology args) (compute_homology args) ;;
    h0 <~ lift (py.getitem homology 0) ;;
    d <~ lift (py.map_result
                 (fun dgm => np.nan_to_num dgm _max_edge_length)
                 (get_persistence_diagram h0)) ;;
    ret {| dgms := d;
           cell_count := get_cell_count h0;
           betti := get_betti_numbers h0;
           euler := get_euler_characteristic h0 |}.

End Flagser.

(* ================================================================== *)
(** * Vocabulary of the statements *)
(* ================================================================== *)

(** Canonical CSR storage: positions strictly increasing, row by row. *)
Definition canonical (l : list np.entry) : Prop :=
  StronglySorted (fun a b => sp.pos_ltb sp.RowCol a b = true) l.

(** The triples of a list of assignments, applied in order. *)
Definition assign_all (ts : list np.entry) (l : list np.entry) : list np.entry :=
  fold_left (fun l t => sp.set_entry (sp.row_of t) (sp.col_of t) (sp.val_of t) l)
            ts l.

(** The value of the last assignment to a position, if there is one. *)
Fixpoint last_at (r c : Z) (ts : list np.entry) : option np.scalar :=
  match ts with
  | [] => None
  | t :: ts' =>
      match last_at r c ts' with
      | Some v => Some v
      | None => if sp.at_pos r c t then Some (sp.val_of t) else None
      end
  end.

(** The assignments [setdiag] makes and the ones the edge records make. *)
Definition diag_entries (weights : list spec_float) : list np.entry :=
  map (fun iw => (fst iw, fst iw, np.F (snd iw))) (sp.enumerate weights).

Definition edge_entries (edges : list (Z * Z * spec_float)) : list np.entry :=
  map (fun e => (fst (fst e), snd (fst e), np.F (snd e))) edges.

(** An index inside [0, n). *)
Definition in_range (size : nat) (i : Z) : Prop := 0 <= i < Z.of_nat size.

(** A record whose two indices are inside [0, n). *)
Definition record_in_range (size : nat) (e : Z * Z * spec_float) : Prop :=
  in_range size (fst (fst e)) /\ in_range size (snd (fst e)).

(** A record that is an edge: inside the range and off the diagonal. *)
Definition record_is_edge (size : nat) (e : Z * Z * spec_float) : Prop :=
  record_in_range size e /\ fst (fst e) <> snd (fst e).

(** No record of the list is at the position. *)
Definition none_at (r c : Z) (edges : list (Z * Z * spec_float)) : Prop :=
  Forall (fun e => (fst (fst e), snd (fst e)) <> (r, c)) edges.

(** ** Example files *)

(** A line with its newline, and a text file with the given lines. *)
Definition ln (s : string) : string := s ++ String py.newline "".

Definition file_of (lines : list string) : string :=
  concat "" (map ln lines).

(** Three vertices, the edge (0, 1) of weight 5 and the edge (2, 0) of
    weight 0. *)
Definition example_flag : string :=
  file_of ["dim 0"; "1.0 2.0 3.0"; "dim 1"; "0 1 5.0"; "2 0 0"].

(** The same vertices and a record on the diagonal. *)
Definition self_loop_flag : string :=
  file_of ["dim 0"; "1.0 2.0 3.0"; "dim 1"; "0 1 5.0"; "1 1 7.0"].

(** Two vertices and a record whose row index is [-1]. *)
Definition negative_index_flag : string :=
  file_of ["dim 0"; "1.0 2.0"; "dim 1"; "-1 0 5.0"].

Definition short_line_flag : string :=
  file_of ["dim 0"; "1.0 2.0"; "dim 1"; "0 1"].

Definition large_index_flag : string :=
  file_of ["dim 0"; "1.0 2.0"; "dim 1"; "0 2 5.0"].

Definition float_of (z : Z) : spec_float := py.float_of_Z z.

(** ** The two orders as relations *)

(** [a] is strictly before [b] / not after [b] in the order of key [k]. *)
Definition before (k : sp.lexsort_key) (a b : np.entry) : Prop :=
  sp.pos_ltb k a b = true.

Definition not_after (k : sp.lexsort_key) (a b : np.entry) : Prop :=
  sp.pos_ltb k b a = false.

(** The positions of a list of triples. *)
Definition positions (l : list np.entry) : list (Z * Z) := map fst l.

(** ** Example matrices *)

(** A 2 x 2 CSR matrix of floats with vertex weights 1 and 2 and the edge
    (0, 1) stored with weight zero. *)
Definition zero_edge_matrix : sp.spmatrix :=
  {| sp.fmt := sp.csr; sp.dtype := np.float64; sp.n := 2;
     sp.stored := [(0, 0, np.F (float_of 1)); (0, 1, np.F (float_of 0));
                   (1, 1, np.F (float_of 2))] |}.

(** What is left of it after a save and a load. *)
Definition zero_edge_lost : sp.spmatrix :=
  {| sp.fmt := sp.csr; sp.dtype := np.float64; sp.n := 2;
     sp.stored := [(0, 0, np.F (float_of 1)); (1, 1, np.F (float_of 2))] |}.

(** A 2 x 2 CSR matrix of booleans: both vertices and the edge (0, 1). *)
Definition bool_matrix : sp.spmatrix :=
  {| sp.fmt := sp.csr; sp.dtype := np.bool_; sp.n := 2;
     sp.stored := [(0, 0, np.B true); (0, 1, np.B true);
                   (1, 1, np.B true)] |}.

(** A 3 x 3 COO matrix holding three edges in the order they were given,
    and the same matrix with the first triple moved to the end. *)
Definition coo_matrix : sp.spmatrix :=
  {| sp.fmt := sp.coo; sp.dtype := np.float64; sp.n := 3;
     sp.stored := [(0, 2, np.F (float_of 1)); (0, 1, np.F (float_of 2));
                   (1, 0, np.F (float_of 3))] |}.


(** ** The edge section as the specification words it *)

(** Every cell of a dense array with its indices, row by row. *)
Definition dense_cells (rows : list (list np.scalar)) : list np.entry :=
  flat_map (fun ir => map (fun jv => (fst ir, fst jv, snd jv))
                          (sp.enumerate (snd ir)))
           (sp.enumerate rows).

(** Modelled from the spec: the entries the edge section is said to list,
    the present off-diagonal entries in storage order (every off-diagonal
    cell of a dense array, the stored off-diagonal triples of a sparse
    matrix as they are stored). *)
Definition spec_edge_entries (M : sp.matrix) : list np.entry :=
  filter (fun e => negb (sp.row_of e =? sp.col_of e))
         match M with
         | sp.Dense _ rows => dense_cells rows
         | sp.Sparse m => sp.stored m
         end.

(** Modelled from the spec: the text [save] is said to write. *)
Definition spec_saveflag (M : sp.matrix) : string :=
  np.savetxt [sp.diagonal M] fmt_vertices "dim 0"
  ++ np.savetxt (spec_edge_entries M)
       (if np.dtype_eqb (sp.dtype_of M) np.bool_
        then fmt_edge_bool else fmt_edge)
       "dim 1".

(** ** Stand-ins for the collaborators, for the examples *)

Definition sample_extract_static (M : sp.matrix)
  : py.result (vertices_t * edges_t) := py.Ok (sp.diagonal M, []).

Definition sample_extract_persistence (M : sp.matrix) (_ : option py.num)
  : py.result (vertices_t * edges_t) := py.Ok (sp.diagonal M, []).

(** An engine whose one diagram holds a bar that never dies and a pair with
    a NaN birth. *)
Definition sample_homology : homology :=
  {| get_persistence_diagram := [[(py.fzero, py.inf); (S754_nan, py.fzero)]];
     get_cell_count := [2];
     get_betti_numbers := [1];
     get_euler_characteristic := 2 |}.

Definition sample_engine (_ : engine_args) : py.result (list homology) :=
  py.Ok [sample_homology].

(** ** What an exception says *)

Definition contains (needle hay : string) : bool :=
  match index 0 needle hay with
  | Some _ => true
  | None => false
  end.

(** Whether the text of the exception (its message and the names it
    lists) holds [s]. *)
Definition exn_mentions (e : py.exn) (s : string) : bool :=
  match e with
  | py.ValueError args =>
      existsb (fun a => match a with
                        | py.AStr t => contains s t
                        | py.AList l => existsb (contains s) l
                        end) args
  | py.IndexError t | py.OverflowError t | py.TypeError t
  | py.FileNotFoundError t | py.External t => contains s t
  | py.StopIteration => false
  end.

(** ** The call to the engine *)

(** The arguments both functions hand to [compute_homology]. *)
Definition call_args (ve : vertices_t * edges_t) (min_dimension : Z)
    (max_dimension : py.num) (directed : bool) (filtration : string)
    (coeff : Z) (approximation : option Z) : engine_args :=
  {| arg_vertices := fst ve; arg_edges := snd ve;
     arg_min_dimension := min_dimension;
     arg_max_dimension :=
       if py.eq_inf max_dimension then py.Int (-1) else max_dimension;
     arg_directed := directed; arg_coeff := coeff;
     arg_approximation := match approximation with
                          | None => -1
                          | Some a => a
                          end;
     arg_filtration := filtration |}.

(** The sentinels: [np.inf] and [None] go to [-1], anything else goes
    through. *)
Definition sentinels (max_dimension : py.num) (approximation : option Z)
    (args : engine_args) : Prop :=
  (max_dimension = py.Float py.inf -> arg_max_dimension args = py.Int (-1))
  /\ (max_dimension <> py.Float py.inf ->
      arg_max_dimension args = max_dimension)
  /\ (approximation = None -> arg_approximation args = -1)
  /\ (forall a, approximation = Some a -> arg_approximation args = a).

(** One value of a diagram before and after [nan_to_num]: [+inf] has
    become [maxf], [-inf] the most negative finite double, NaN zero; a zero
    or finite value is itself. *)
Definition substituted (maxf x y : spec_float) : Prop :=
  (x = py.inf -> y = maxf)
  /\ (x = S754_infinity true -> y = SFopp np.float_max)
  /\ (x = S754_nan -> y = py.fzero)
  /\ (forall s, x = S754_zero s -> y = x)
  /\ (forall s m e, x = S754_finite s m e -> y = x).

Definition pair_substituted (maxf : spec_float)
    (p q : spec_float * spec_float) : Prop :=
  substituted maxf (fst p) (fst q) /\ substituted maxf (snd p) (snd q).

(** A result of [flagser_persistence] next to the engine's first element
    [h]: it is a dictionary, and its diagrams are those of [h] with [maxf]
    in the place of [+inf]. *)
Definition diagrams_filled (maxf : spec_float) (h : homology)
    (res : py.result out_dict) : Prop :=
  exists out,
    res = py.Ok out
    /\ Forall2 (Forall2 (pair_substituted maxf))
               (get_persistence_diagram h) (dgms out).

(** The default of [max_edge_length] by dtype, in closed form: where
    [np.float] is [float64] alone, the two narrower floating-point formats
    are left without a default, as [bool] is. *)
Definition default_max_edge_length (np_float : np.float_alias) (d : np.dtype)
  : option py.num :=
  match d with
  | np.int_ w => Some (py.Int (2 ^ (np.bits w - 1) - 1))
  | np.uint w => Some (py.Int (2 ^ np.bits w - 1))
  | np.floating np.F64 => Some (py.Float py.inf)
  | np.floating _ =>
      match np_float with
      | np.floating_class => Some (py.Float py.inf)
      | np.float64_only => None
      end
  | np.bool_ => None
  end.

(** ** Text without blanks *)

(** The characters of a string; none of them is a blank (a character
    [strip] drops, the newline and the space among them). *)
Definition chars (s : string) : list ascii := list_ascii_of_string s.

Definition no_blank (s : string) : Prop :=
  Forall (fun c => py.is_space c = false) (chars s).

(** A token: not empty and without blanks. *)
Definition solid (s : string) : Prop := s <> "" /\ no_blank s.

(** A string without a newline, a list of characters that begins with a
    character that is no blank, and one that ends with such a character. *)
Definition no_newline (s : string) : Prop :=
  Forall (fun c => Ascii.eqb c py.newline = false) (chars s).

Definition starts_solid (l : list ascii) : Prop :=
  exists c l', l = c :: l' /\ py.is_space c = false.

Definition ends_solid (l : list ascii) : Prop := starts_solid (rev l).

(** ** Numbers that read back *)

(** The text [%.18e] writes for [x] reads back as [x]; the text [%i]
    writes for [i] reads back, through [int(float(.))], as [i]. *)
Definition float_reads_back (x : spec_float) : Prop :=
  py.float_of_string (py.fmt_e18 x) = py.Ok x.

Definition index_reads_back (i : Z) : Prop :=
  (x <- py.float_of_string (py.fmt_i i) ;; py.int_of_float x) = py.Ok i.

Definition entry_reads_back (e : np.entry) : Prop :=
  index_reads_back (sp.row_of e) /\ index_reads_back (sp.col_of e)
  /\ float_reads_back (np.to_float (sp.val_of e)).

(** The row format [saveflag] picks for the edges of a matrix. *)
Definition edge_format (M : sp.matrix) : np.entry -> string :=
  if np.dtype_eqb (sp.dtype_of M) np.bool_ then fmt_edge_bool else fmt_edge.

(** The record a written triple reads back as. *)
Definition record_of (e : np.entry) : Z * Z * spec_float :=
  (sp.row_of e, sp.col_of e, np.to_float (sp.val_of e)).

(** The triples of a sparse matrix lie inside its shape. *)
Definition stored_in_shape (m : sp.spmatrix) : Prop :=
  Forall (fun e => in_range (sp.n m) (sp.row_of e)
                   /\ in_range (sp.n m) (sp.col_of e)) (sp.stored m).

(** ** Indices that count from the end *)

(** An index the sparse assignment accepts, and the position it names. *)
Definition index_accepted (size : nat) (i : Z) : Prop :=
  - Z.of_nat size <= i < Z.of_nat size.

Definition wrap_index (size : nat) (i : Z) : Z :=
  if i <? 0 then i + Z.of_nat size else i.

Definition record_accepted (size : nat) (e : Z * Z * spec_float) : Prop :=
  index_accepted size (fst (fst e)) /\ index_accepted size (snd (fst e)).

(** The assignments the records make, each at the position its indices
    name. *)
Definition wrapped_entries (size : nat) (edges : list (Z * Z * spec_float))
  : list np.entry :=
  map (fun e => (wrap_index size (fst (fst e)), wrap_index size (snd (fst e)),
                 np.F (snd e))) edges.

(** [rows[r][c]] for indices inside the array. *)
Definition cell (rows : list (list np.scalar)) (r c : Z) : option np.scalar :=
  match nth_error rows (Z.to_nat r) with
  | Some row => nth_error row (Z.to_nat c)
  | None => None
  end.

(** A file that stops after its vertex line. *)
Definition vertices_only_flag : string := file_of ["dim 0"; "1.0 2.0 3.0"].

(** The example file with other text on its first and third lines. *)
Definition other_headers_flag : string :=
  file_of ["# vertices"; "1.0 2.0 3.0"; "0 2 9.0"; "0 1 5.0"; "2 0 0"].

(** A 2 x 2 COO matrix of floats whose diagonal holds 1 and a stored
    zero. *)
Definition float_coo_matrix : sp.spmatrix :=
  {| sp.fmt := sp.coo; sp.dtype := np.float64; sp.n := 2;
     sp.stored := [(1, 0, np.F (float_of 4)); (1, 1, np.F (float_of 0));
                   (0, 0, np.F (float_of 1))] |}.

(** An extraction and an engine that fail. *)
Definition failing_extract_static (_ : sp.matrix)
  : py.result (vertices_t * edges_t) := py.Raise (py.External "extract").

Definition failing_extract_persistence (_ : sp.matrix) (_ : option py.num)
  : py.result (vertices_t * edges_t) := py.Raise (py.External "extract").

Definition failing_engine (_ : engine_args) : py.result (list homology) :=
  py.Raise (py.External "engine").

Definition silent_engine (_ : engine_args) : py.result (list homology) :=
  py.Ok [].

(** An engine whose diagram holds the two infinities. *)
Definition infinite_homology : homology :=
  {| get_persistence_diagram := [[(S754_infinity true, py.inf)]];
     get_cell_count := [1];
     get_betti_numbers := [1];
     get_euler_characteristic := 1 |}.

Definition infinite_engine (_ : engine_args) : py.result (list homology) :=
  py.Ok [infinite_homology; sample_homology].

(** ** The diagrams of [flagser_persistence] *)

(** What [nan_to_num] puts in the place of [+inf]: the number given, as a
    float64, or the largest finite value when [posinf] is [None]. *)
Definition fill_value (r : option py.num) : py.result spec_float :=
  match r with
  | Some v => np.as_float64 v
  | None => py.Ok np.float_max
  end.

(** A zero or a finite number: no infinity and no NaN. *)
Definition finite_value (x : spec_float) : bool :=
  match x with
  | S754_zero _ | S754_finite _ _ _ => true
  | _ => false
  end.

Definition all_finite (D : list diagram) : Prop :=
  Forall (Forall (fun p => finite_value (fst p) = true
                           /\ finite_value (snd p) = true)) D.

(** Two answers of the engine that agree on what [homology[0]] reads. *)
Definition same_head (a b : py.result (list homology)) : Prop :=
  match a, b with
  | py.Ok (h :: _), py.Ok (h' :: _) => h = h'
  | py.Ok [], py.Ok [] => True
  | py.Raise e, py.Raise e' => e = e'
  | _, _ => False
  end.

(** The sample engine with a second element in its answer. *)
Definition longer_engine (_ : engine_args) : py.result (list homology) :=
  py.Ok [sample_homology; infinite_homology].

(** A boolean matrix of two vertices, as a flag matrix. *)
Definition bool_flag_matrix : sp.matrix := sp.Sparse bool_matrix.

(* ================================================================== *)
(** * Properties *)
(* ================================================================== *)

(** ** Positions and their two orders *)

Ltac zbool :=
  repeat match goal with
  | H : context [(?a <? ?b)] |- _ => destruct (Z.ltb_spec a b)
  | H : context [(?a =? ?b)] |- _ => destruct (Z.eqb_spec a b)
  | H : context [(?a <=? ?b)] |- _ => destruct (Z.leb_spec a b)
  | |- context [(?a <? ?b)] => destruct (Z.ltb_spec a b)
  | |- context [(?a =? ?b)] => destruct (Z.eqb_spec a b)
  | |- context [(?a <=? ?b)] => destruct (Z.leb_spec a b)
  end;
  simpl in *; try congruence; try lia.

Ltac unpos :=
  unfold sp.same_pos, sp.at_pos, sp.pos_ltb, sp.row_of, sp.col_of, sp.val_of
    in *; simpl in *.

Lemma pos_ltb_trans k a b c :
  sp.pos_ltb k a b = true -> sp.pos_ltb k b c = true ->
  sp.pos_ltb k a c = true.
Proof.
  destruct a as [[ra ca] va], b as [[rb cb] vb], c as [[rc cc] vc].
  destruct k; unpos; intros; zbool.
Qed.

Lemma pos_ltb_not_at k a b :
  sp.pos_ltb k a b = true -> sp.at_pos (sp.row_of a) (sp.col_of a) b = false.
Proof.
  destruct a as [[ra ca] va], b as [[rb cb] vb].
  destruct k; unpos; intros; zbool.
Qed.

Lemma pos_ltb_total k a b :
  sp.pos_ltb k a b = false ->
  sp.at_pos (sp.row_of a) (sp.col_of a) b = false ->
  sp.pos_ltb k b a = true.
Proof.
  destruct a as [[ra ca] va], b as [[rb cb] vb].
  destruct k; unpos; intros; zbool.
Qed.

Lemma pos_ltb_asym k a b :
  sp.pos_ltb k a b = true -> sp.pos_ltb k b a = false.
Proof.
  destruct a as [[ra ca] va], b as [[rb cb] vb].
  destruct k; unpos; intros; zbool.
Qed.

(** The orders read positions only. *)
Lemma pos_ltb_pos_l k r c v v' b :
  sp.pos_ltb k (r, c, v) b = sp.pos_ltb k (r, c, v') b.
Proof. destruct k; reflexivity. Qed.

Lemma pos_ltb_pos_r k r c v v' a :
  sp.pos_ltb k a (r, c, v) = sp.pos_ltb k a (r, c, v').
Proof. destruct k; reflexivity. Qed.

Lemma at_pos_eq r c e :
  sp.at_pos r c e = true -> sp.row_of e = r /\ sp.col_of e = c.
Proof. destruct e as [[re ce] ve]; unpos; intros; zbool. Qed.

(** ** Canonical CSR storage *)

Lemma set_entry_In r c v l e :
  In e (sp.set_entry r c v l) -> e = (r, c, v) \/ In e l.
Proof.
  induction l as [|x l IH]; cbn [sp.set_entry In].
  - intros H. destruct H as [H|H]; [auto | destruct H].
  - destruct (sp.at_pos r c x); cbn [In].
    + intros [H|H]; auto.
    + destruct (sp.pos_ltb sp.RowCol (r, c, v) x); cbn [In].
      * intros [H|H]; auto.
      * intros [H|H]; auto. destruct (IH H); auto.
Qed.

Lemma canonical_none_at r c x l :
  canonical (x :: l) ->
  sp.at_pos r c x = true \/ sp.pos_ltb sp.RowCol (r, c, sp.val_of x) x = true ->
  filter (sp.at_pos r c) l = [].
Proof.
  intros Hs Hx. inversion Hs as [|? ? _ Hall]; subst.
  induction l as [|y l IH]; simpl; auto.
  inversion Hall as [|? ? Hy Hl]; subst.
  assert (sp.at_pos r c y = false) as ->.
  { destruct x as [[rx cx] vx], y as [[ry cy] vy]. unpos.
    destruct Hx as [Hx|Hx]; zbool. }
  apply IH; auto.
  inversion Hs as [|? ? Hs' _]; subst. inversion Hs'; subst.
  constructor; auto.
Qed.

Lemma set_entry_canonical r c v l :
  canonical l -> canonical (sp.set_entry r c v l).
Proof.
  induction l as [|x l IH]; cbn [sp.set_entry]; intros Hs.
  - repeat constructor.
  - inversion Hs as [|? ? Hl Hall]; subst.
    destruct (sp.at_pos r c x) eqn:Hat.
    + constructor; auto.
      apply at_pos_eq in Hat. destruct Hat as [<- <-].
      revert Hall. apply Forall_impl. intros a Ha. rewrite <- Ha.
      destruct x as [[rx cx] vx]. reflexivity.
    + destruct (sp.pos_ltb sp.RowCol (r, c, v) x) eqn:Hlt.
      * constructor; auto. constructor; auto.
        revert Hall. apply Forall_impl. intros a Ha.
        eapply pos_ltb_trans; eauto.
      * constructor; [apply IH; exact Hl|].
        apply Forall_forall. intros e He.
        apply set_entry_In in He. destruct He as [->|He].
        -- apply pos_ltb_total; auto.
        -- rewrite Forall_forall in Hall. auto.
Qed.

Lemma stored_at_set_same r c v l :
  canonical l -> sp.stored_at r c (sp.set_entry r c v l) = [v].
Proof.
  unfold sp.stored_at.
  induction l as [|x l IH]; cbn [sp.set_entry]; intros Hs.
  - unpos. now rewrite !Z.eqb_refl.
  - destruct (sp.at_pos r c x) eqn:Hat.
    + simpl. unfold sp.at_pos at 1. simpl. rewrite !Z.eqb_refl. simpl.
      now rewrite (canonical_none_at r c x l Hs (or_introl Hat)).
    + destruct (sp.pos_ltb sp.RowCol (r, c, v) x) eqn:Hlt.
      * simpl. unfold sp.at_pos at 1. simpl. rewrite !Z.eqb_refl. simpl.
        rewrite Hat.
        rewrite (canonical_none_at r c x l Hs); auto.
      * simpl. rewrite Hat. apply IH. now inversion Hs.
Qed.

Lemma stored_at_set_other r c v r' c' l :
  (r', c') <> (r, c) ->
  sp.stored_at r' c' (sp.set_entry r c v l) = sp.stored_at r' c' l.
Proof.
  intros Hne. unfold sp.stored_at.
  assert (Hnew : sp.at_pos r' c' (r, c, v) = false).
  { unpos. zbool. }
  induction l as [|x l IH]; cbn [sp.set_entry].
  - simpl. now rewrite Hnew.
  - destruct (sp.at_pos r c x) eqn:Hat.
    + simpl. rewrite Hnew.
      assert (sp.at_pos r' c' x = false) as ->; auto.
      apply at_pos_eq in Hat. destruct x as [[rx cx] vx]. unpos.
      destruct Hat; subst. zbool.
    + destruct (sp.pos_ltb sp.RowCol (r, c, v) x).
      * simpl. now rewrite Hnew.
      * simpl. destruct (sp.at_pos r' c' x); simpl; now rewrite IH.
Qed.

(** ** The result monad *)

Lemma map_result_cons_ok {A B} (f : A -> py.result B) a l bs :
  py.map_result f (a :: l) = py.Ok bs ->
  exists b bs', f a = py.Ok b /\ py.map_result f l = py.Ok bs' /\ bs = b :: bs'.
Proof.
  simpl. destruct (f a) as [b|e]; simpl; [|discriminate].
  destruct (py.map_result f l) as [bs'|e]; simpl; [|discriminate].
  intros H. injection H as <-. eauto.
Qed.

Lemma map_result_length {A B} (f : A -> py.result B) l bs :
  py.map_result f l = py.Ok bs -> List.length bs = List.length l.
Proof.
  revert bs. induction l as [|a l IH]; intros bs H.
  - injection H as <-. reflexivity.
  - apply map_result_cons_ok in H. destruct H as (b & bs' & _ & H & ->).
    simpl. f_equal. auto.
Qed.

(** A loop raises as soon as one of its passes must. *)
Lemma for_each_raises {A S} (body : S -> A -> py.result S) (P : S -> Prop)
      l a s :
  In a l ->
  (forall s, P s -> py.raises (body s a) = true) ->
  (forall s x s', P s -> body s x = py.Ok s' -> P s') ->
  P s ->
  py.raises (py.for_each body l s) = true.
Proof.
  intros Hin Hbad Hinv. revert s.
  induction l as [|x l IH]; intros s Hs; [destruct Hin|].
  simpl. destruct Hin as [->|Hin].
  - specialize (Hbad s Hs). destruct (body s a); [discriminate|reflexivity].
  - destruct (body s x) as [s'|e] eqn:Hb; [|reflexivity].
    simpl. apply IH; eauto.
Qed.

(** ** Assignments into canonical storage *)

Lemma assign_all_canonical ts l :
  canonical l -> canonical (assign_all ts l).
Proof.
  revert l. induction ts as [|t ts IH]; intros l Hl; simpl; auto.
  apply IH. now apply set_entry_canonical.
Qed.

Lemma assign_all_app ts1 ts2 l :
  assign_all (ts1 ++ ts2) l = assign_all ts2 (assign_all ts1 l).
Proof. unfold assign_all. now rewrite fold_left_app. Qed.

Lemma stored_at_assign_all r c ts l :
  canonical l ->
  sp.stored_at r c (assign_all ts l) =
  match last_at r c ts with
  | Some v => [v]
  | None => sp.stored_at r c l
  end.
Proof.
  revert l. induction ts as [|t ts IH]; intros l Hl; simpl; auto.
  fold (assign_all ts (sp.set_entry (sp.row_of t) (sp.col_of t) (sp.val_of t) l)).
  rewrite IH by now apply set_entry_canonical.
  destruct (last_at r c ts); auto.
  destruct (sp.at_pos r c t) eqn:Hat.
  - apply at_pos_eq in Hat. destruct Hat as [<- <-].
    now apply stored_at_set_same.
  - apply stored_at_set_other. intros Heq. injection Heq as -> ->.
    destruct t as [[rt ct] vt]. unpos. rewrite !Z.eqb_refl in Hat. discriminate.
Qed.

Lemma last_at_app r c ts1 ts2 :
  last_at r c (ts1 ++ ts2) =
  match last_at r c ts2 with
  | Some v => Some v
  | None => last_at r c ts1
  end.
Proof.
  induction ts1 as [|t ts1 IH]; simpl.
  - now destruct (last_at r c ts2).
  - rewrite IH. now destruct (last_at r c ts2).
Qed.

Lemma last_at_none r c ts :
  Forall (fun t => sp.at_pos r c t = false) ts -> last_at r c ts = None.
Proof.
  induction 1 as [|t ts Ht _ IH]; simpl; auto. now rewrite IH, Ht.
Qed.

Lemma last_at_last r c v pre post :
  Forall (fun t => sp.at_pos r c t = false) post ->
  last_at r c (pre ++ (r, c, v) :: post) = Some v.
Proof.
  intros Hpost. rewrite last_at_app. simpl.
  rewrite (last_at_none _ _ _ Hpost). unpos. now rewrite !Z.eqb_refl.
Qed.

(** ** [loadflag] on a file that parses *)

Lemma validate_index_in_range what size i :
  in_range size i -> sp.validate_index what size i = py.Ok i.
Proof.
  unfold in_range, sp.validate_index. intros H.
  destruct (Z.ltb_spec i (- Z.of_nat size)); [lia|].
  destruct (Z.leb_spec (Z.of_nat size) i); [lia|].
  simpl. destruct (Z.ltb_spec i 0); [lia|reflexivity].
Qed.

Lemma for_each_load_edge ls : forall edges m,
  py.map_result edge_record ls = py.Ok edges ->
  Forall (record_in_range (sp.n m)) edges ->
  py.for_each load_edge ls m =
  py.Ok {| sp.fmt := sp.fmt m; sp.dtype := sp.dtype m; sp.n := sp.n m;
           sp.stored := assign_all (edge_entries edges) (sp.stored m) |}.
Proof.
  induction ls as [|line ls IH]; intros edges m Hmap Hrange.
  - injection Hmap as <-. destruct m; reflexivity.
  - apply map_result_cons_ok in Hmap.
    destruct Hmap as (e & es & He & Hes & ->).
    inversion Hrange as [|? ? [Hr Hc] Hrest]; subst.
    cbn [py.for_each]. unfold load_edge at 1. rewrite He. cbn [py.bind].
    unfold sp.setitem.
    rewrite (validate_index_in_range _ _ _ Hr),
            (validate_index_in_range _ _ _ Hc).
    cbn [py.bind]. rewrite (IH es); auto.
Qed.

Lemma enumerate_from_length {A} (l : list A) k :
  List.length (sp.enumerate_from k l) = List.length l.
Proof. revert k. induction l; intros; simpl; auto. Qed.

Lemma setdiag_stored (weights : list spec_float) d :
  sp.stored (sp.setdiag (sp.csr_matrix (List.length weights) d)
                        (map np.F weights)) =
  assign_all (diag_entries weights) [].
Proof.
  unfold sp.setdiag, sp.csr_matrix, diag_entries, assign_all, sp.enumerate.
  cbn [sp.stored sp.n].
  rewrite firstn_all2
    by (rewrite enumerate_from_length, length_map; apply Nat.le_refl).
  generalize (@nil np.entry). generalize 0.
  induction weights as [|w ws IH]; intros k l; simpl; auto.
Qed.

Lemma last_at_diag_below r c k (ws : list spec_float) :
  r < k ->
  last_at r c (map (fun iw => (fst iw, fst iw, np.F (snd iw)))
                   (sp.enumerate_from k ws)) = None.
Proof.
  revert k. induction ws as [|w ws IH]; intros k Hk; simpl; auto.
  rewrite IH by lia. unpos. zbool.
Qed.

Lemma last_at_diag_from k j w (ws : list spec_float) :
  nth_error ws j = Some w ->
  last_at (k + Z.of_nat j) (k + Z.of_nat j)
          (map (fun iw => (fst iw, fst iw, np.F (snd iw)))
               (sp.enumerate_from k ws)) = Some (np.F w).
Proof.
  revert k j. induction ws as [|x ws IH]; intros k j Hj.
  - destruct j; discriminate.
  - destruct j as [|j]; simpl in Hj |- *.
    + injection Hj as ->. rewrite last_at_diag_below by lia.
      unpos. replace (k + 0) with k by lia. now rewrite !Z.eqb_refl.
    + replace (k + Z.pos (Pos.of_succ_nat j)) with ((k + 1) + Z.of_nat j) by lia.
      now rewrite (IH (k + 1) j Hj).
Qed.

Lemma last_at_diag i w (weights : list spec_float) :
  nth_error weights i = Some w ->
  last_at (Z.of_nat i) (Z.of_nat i) (diag_entries weights) = Some (np.F w).
Proof. intros H. exact (last_at_diag_from 0 i w weights H). Qed.

Lemma last_at_diag_off r c (weights : list spec_float) :
  r <> c -> last_at r c (diag_entries weights) = None.
Proof.
  intros Hne. apply last_at_none. unfold diag_entries.
  apply Forall_forall. intros t Ht. apply in_map_iff in Ht.
  destruct Ht as ([i w] & <- & _). unpos. zbool.
Qed.

Lemma last_at_diag_inside r c k (ws : list spec_float) :
  last_at r c (map (fun iw => (fst iw, fst iw, np.F (snd iw)))
                   (sp.enumerate_from k ws)) <> None ->
  k <= r < k + Z.of_nat (List.length ws).
Proof.
  revert k. induction ws as [|x ws IHws]; intros k;
    cbn [map sp.enumerate_from last_at List.length].
  - congruence.
  - specialize (IHws (k + 1)).
    destruct (last_at r c _).
    + intros _. assert (k + 1 <= r < k + 1 + Z.of_nat (List.length ws)).
      { apply IHws. discriminate. }
      lia.
    + unpos. zbool.
Qed.

Lemma last_at_diag_outside r c (weights : list spec_float) :
  ~ in_range (List.length weights) r ->
  last_at r c (diag_entries weights) = None.
Proof.
  intros Hout. destruct (last_at r c (diag_entries weights)) eqn:H; auto.
  exfalso. apply Hout. unfold in_range.
  assert (0 <= r < 0 + Z.of_nat (List.length weights)).
  { apply (last_at_diag_inside r c 0 weights).
    unfold diag_entries, sp.enumerate in H. rewrite H. discriminate. }
  lia.
Qed.

Lemma last_at_edges_none r c edges :
  none_at r c edges -> last_at r c (edge_entries edges) = None.
Proof.
  intros H. apply last_at_none. unfold edge_entries.
  apply Forall_forall. intros t Ht. apply in_map_iff in Ht.
  destruct Ht as ([[re ce] we] & <- & Hin).
  unfold none_at in H. rewrite Forall_forall in H. specialize (H _ Hin).
  simpl in H. unpos. zbool.
Qed.

Lemma last_at_edges_last r c w pre post :
  none_at r c post ->
  last_at r c (edge_entries (pre ++ (r, c, w) :: post)) = Some (np.F w).
Proof.
  intros H. unfold edge_entries. rewrite map_app. simpl.
  apply last_at_last.
  apply last_at_edges_none in H. unfold edge_entries in H.
  clear - H. induction post as [|t post IH]; simpl in *; constructor.
  - destruct (last_at r c _); [discriminate|].
    destruct (sp.at_pos r c _); [discriminate|reflexivity].
  - apply IH. destruct (last_at r c _); [discriminate|reflexivity].
Qed.

(** The matrix [loadflag] builds from a file whose lines parse and whose
    indices are in range: the vertex weights assigned to the diagonal, then
    the records in file order. *)
Lemma loadflag_stored f l1 l2 rest weights edges :
  py.readlines f = l1 :: l2 :: rest ->
  vertex_weights l2 = py.Ok weights ->
  py.map_result edge_record (tl rest) = py.Ok edges ->
  Forall (record_in_range (List.length weights)) edges ->
  loadflag f sp.fmt_csr =
  py.Ok (sp.Sparse
           {| sp.fmt := sp.csr; sp.dtype := np.float64;
              sp.n := List.length weights;
              sp.stored := assign_all (diag_entries weights
                                       ++ edge_entries edges) [] |}).
Proof.
  intros Hlines Hv He Hr. unfold loadflag. rewrite Hlines.
  cbn [py.readline]. rewrite Hv. cbn [py.bind].
  rewrite (for_each_load_edge (tl rest) edges); auto.
  cbn [py.bind sp.asformat sp.fmt sp.dtype sp.n sp.setdiag sp.csr_matrix].
  rewrite assign_all_app.
  do 3 f_equal. f_equal. apply setdiag_stored.
Qed.

Lemma last_at_in r c t ts :
  In t ts -> sp.at_pos r c t = true -> last_at r c ts <> None.
Proof.
  induction ts as [|x ts IH]; simpl; [tauto|].
  intros [->|Hin] Hat.
  - destruct (last_at r c ts); [discriminate|]. rewrite Hat. discriminate.
  - destruct (last_at r c ts); [discriminate|]. now apply IH in Hin.
Qed.

Lemma stored_at_present m r c v vs :
  sp.stored_at r c (sp.stored m) = v :: vs ->
  sp.present (sp.Sparse m) r c = true.
Proof.
  unfold sp.stored_at, sp.present. generalize (sp.stored m) as l.
  induction l as [|x l IH]; simpl; [discriminate|].
  destruct (sp.at_pos r c x); simpl; auto.
Qed.

Lemma stored_at_nil_absent r c l :
  sp.stored_at r c l = [] -> existsb (sp.at_pos r c) l = false.
Proof.
  unfold sp.stored_at.
  induction l as [|x l IH]; simpl; auto.
  destruct (sp.at_pos r c x); simpl; [discriminate|auto].
Qed.

Lemma record_is_edge_in_range size edges :
  Forall (record_is_edge size) edges -> Forall (record_in_range size) edges.
Proof. apply Forall_impl. now intros e [H _]. Qed.

(** C2: on a well-formed file (a first line, a vertex line whose tokens
    are all numbers, one more line, then records [r c w] with both indices in
    [[0, n)] and off the diagonal) [loadflag] returns a CSR matrix of size
    [n], the number of tokens of the vertex line; the stored diagonal is
    those [n] weights; the position of a record holds the weight of the last
    record written for it, as one stored entry, whatever the weight is, so a
    record of weight zero is a present entry; a position off the diagonal
    that no record names holds nothing. *)
Theorem C2_loadflag_well_formed f l1 l2 rest weights edges :
  py.readlines f = l1 :: l2 :: rest ->
  vertex_weights l2 = py.Ok weights ->
  py.map_result edge_record (tl rest) = py.Ok edges ->
  Forall (record_is_edge (List.length weights)) edges ->
  exists m,
    loadflag f sp.fmt_csr = py.Ok (sp.Sparse m)
    /\ sp.fmt m = sp.csr
    /\ sp.n m = List.length (py.split " " (py.strip l2))
    /\ (forall i w, nth_error weights i = Some w ->
          sp.stored_at (Z.of_nat i) (Z.of_nat i) (sp.stored m) = [np.F w])
    /\ (forall pre r c w post,
          edges = (pre ++ (r, c, w) :: post)%list -> none_at r c post ->
          sp.stored_at r c (sp.stored m) = [np.F w])
    /\ (forall r c w, In (r, c, w) edges ->
          sp.present (sp.Sparse m) r c = true)
    /\ (forall r c, r <> c -> none_at r c edges ->
          sp.stored_at r c (sp.stored m) = []
          /\ sp.present (sp.Sparse m) r c = false).
Proof.
  intros Hlines Hv He Hedges.
  pose proof (record_is_edge_in_range _ _ Hedges) as Hrange.
  eexists. split; [exact (loadflag_stored f l1 l2 rest weights edges
                            Hlines Hv He Hrange)|].
  cbn [sp.fmt sp.n sp.stored sp.present].
  assert (Hc : canonical []) by constructor.
  assert (Hat : forall r c,
             sp.stored_at r c
               (assign_all (diag_entries weights ++ edge_entries edges) [])
             = match last_at r c (edge_entries edges) with
               | Some v => [v]
               | None => match last_at r c (diag_entries weights) with
                         | Some v => [v]
                         | None => []
                         end
               end).
  { intros r c. rewrite (stored_at_assign_all _ _ _ _ Hc), last_at_app.
    now destruct (last_at r c (edge_entries edges)). }
  split; [reflexivity|]. split.
  { unfold vertex_weights in Hv. now apply map_result_length in Hv. }
  split.
  { intros i w Hi. rewrite Hat, last_at_edges_none.
    - now rewrite (last_at_diag i w).
    - unfold none_at. revert Hedges. apply Forall_impl.
      intros [[r c] x] [_ Hne]. simpl in *. congruence. }
  split.
  { intros pre r c w post -> Hpost.
    now rewrite Hat, (last_at_edges_last r c w pre post Hpost). }
  split.
  { intros r c w Hin.
    assert (Hl : last_at r c (edge_entries edges) <> None).
    { apply (last_at_in r c (r, c, np.F w)).
      - unfold edge_entries. apply in_map_iff. now exists (r, c, w).
      - unpos. now rewrite !Z.eqb_refl. }
    specialize (Hat r c).
    destruct (last_at r c (edge_entries edges)) as [v|]; [|congruence].
    eapply (stored_at_present
              {| sp.fmt := sp.csr; sp.dtype := np.float64;
                 sp.n := List.length weights;
                 sp.stored := assign_all (diag_entries weights
                                          ++ edge_entries edges) [] |}).
    exact Hat. }
  intros r c Hne Hnone.
  assert (Hs : sp.stored_at r c
                 (assign_all (diag_entries weights ++ edge_entries edges) [])
               = []).
  { now rewrite Hat, (last_at_edges_none _ _ _ Hnone),
      (last_at_diag_off _ _ _ Hne). }
  split; [exact Hs|now apply stored_at_nil_absent].
Qed.

(** The three-vertex file with the edges (0, 1) of weight 5 and (2, 0) of
    weight 0. *)
Lemma C2_loadflag_well_formed_witness :
  exists m,
    loadflag example_flag sp.fmt_csr = py.Ok (sp.Sparse m)
    /\ sp.fmt m = sp.csr
    /\ sp.n m = List.length (py.split " " (py.strip (ln "1.0 2.0 3.0")))
    /\ (forall i w,
          nth_error [float_of 1; float_of 2; float_of 3] i = Some w ->
          sp.stored_at (Z.of_nat i) (Z.of_nat i) (sp.stored m) = [np.F w])
    /\ (forall pre r c w post,
          [(0, 1, float_of 5); (2, 0, float_of 0)]
          = (pre ++ (r, c, w) :: post)%list ->
          none_at r c post ->
          sp.stored_at r c (sp.stored m) = [np.F w])
    /\ (forall r c w,
          In (r, c, w) [(0, 1, float_of 5); (2, 0, float_of 0)] ->
          sp.present (sp.Sparse m) r c = true)
    /\ (forall r c, r <> c ->
          none_at r c [(0, 1, float_of 5); (2, 0, float_of 0)] ->
          sp.stored_at r c (sp.stored m) = []
          /\ sp.present (sp.Sparse m) r c = false).
Proof.
  apply (C2_loadflag_well_formed example_flag
           (ln "dim 0") (ln "1.0 2.0 3.0")
           [ln "dim 1"; ln "0 1 5.0"; ln "2 0 0"]).
  - vm_compute. reflexivity.
  - vm_compute. reflexivity.
  - vm_compute. reflexivity.
  - repeat constructor; simpl; lia.
Defined.

(** C10: [loadflag] has no check for records on the diagonal.  On a file
    that parses, with indices in [[0, n)], a record [i i w] is stored like
    any other: the file loads, and the diagonal position [i] holds [w] (the
    weight of the last such record), not the weight of the vertex line. *)
Theorem C10_loadflag_self_loop f l1 l2 rest weights edges pre i w post :
  py.readlines f = l1 :: l2 :: rest ->
  vertex_weights l2 = py.Ok weights ->
  py.map_result edge_record (tl rest) = py.Ok edges ->
  Forall (record_in_range (List.length weights)) edges ->
  edges = (pre ++ (i, i, w) :: post)%list ->
  none_at i i post ->
  exists m,
    loadflag f sp.fmt_csr = py.Ok (sp.Sparse m)
    /\ sp.stored_at i i (sp.stored m) = [np.F w].
Proof.
  intros Hlines Hv He Hrange -> Hpost.
  eexists. split; [exact (loadflag_stored f l1 l2 rest weights _
                            Hlines Hv He Hrange)|].
  cbn [sp.stored].
  rewrite stored_at_assign_all by constructor.
  now rewrite last_at_app, (last_at_edges_last i i w pre post Hpost).
Qed.

(** The file whose last record is [1 1 7.0]: vertex 1 had weight 2. *)
Lemma C10_loadflag_self_loop_witness :
  nth_error [float_of 1; float_of 2; float_of 3] 1 = Some (float_of 2)
  /\ exists m,
       loadflag self_loop_flag sp.fmt_csr = py.Ok (sp.Sparse m)
       /\ sp.stored_at 1 1 (sp.stored m) = [np.F (float_of 7)].
Proof.
  split; [reflexivity|].
  apply (C10_loadflag_self_loop self_loop_flag
           (ln "dim 0") (ln "1.0 2.0 3.0")
           [ln "dim 1"; ln "0 1 5.0"; ln "1 1 7.0"]
           [float_of 1; float_of 2; float_of 3]
           [(0, 1, float_of 5); (1, 1, float_of 7)]
           [(0, 1, float_of 5)] 1 (float_of 7) []).
  - vm_compute. reflexivity.
  - vm_compute. reflexivity.
  - vm_compute. reflexivity.
  - repeat constructor; simpl; lia.
  - reflexivity.
  - constructor.
Defined.

(** ** Ways [loadflag] fails *)

Lemma raises_bind {A B} (r : py.result A) (k : A -> py.result B) :
  py.raises r = true -> py.raises (py.bind r k) = true.
Proof. destruct r; simpl; [discriminate|reflexivity]. Qed.

Lemma short_line_raises line :
  (List.length (py.split " " (py.strip line)) < 3)%nat ->
  py.raises (edge_record line) = true.
Proof.
  intros Hlen. unfold edge_record.
  apply raises_bind, raises_bind. unfold py.getitem.
  destruct (nth_error (py.split " " (py.strip line)) 2) eqn:E; auto.
  assert (nth_error (py.split " " (py.strip line)) 2 <> None) as Hn
      by congruence.
  apply nth_error_Some in Hn. lia.
Qed.

Lemma validate_index_outside what size i :
  i < - Z.of_nat size \/ Z.of_nat size <= i ->
  py.raises (sp.validate_index what size i) = true.
Proof.
  unfold sp.validate_index. intros H.
  destruct (Z.ltb_spec i (- Z.of_nat size));
    destruct (Z.leb_spec (Z.of_nat size) i); simpl; auto; lia.
Qed.

Lemma load_edge_size m line m' :
  load_edge m line = py.Ok m' -> sp.n m' = sp.n m.
Proof.
  unfold load_edge, sp.setitem.
  destruct (edge_record line) as [[[r c] w]|]; simpl; [|discriminate].
  destruct (sp.validate_index "row" (sp.n m) r); simpl; [|discriminate].
  destruct (sp.validate_index "column" (sp.n m) c); simpl; [|discriminate].
  intros H. injection H as <-. reflexivity.
Qed.

Lemma load_edge_outside m line r c w :
  edge_record line = py.Ok (r, c, w) ->
  r < - Z.of_nat (sp.n m) \/ Z.of_nat (sp.n m) <= r
  \/ c < - Z.of_nat (sp.n m) \/ Z.of_nat (sp.n m) <= c ->
  py.raises (load_edge m line) = true.
Proof.
  intros He Hout. unfold load_edge. rewrite He. cbn [py.bind fst snd].
  unfold sp.setitem.
  destruct (sp.validate_index "row" (sp.n m) r) eqn:Hr; [|reflexivity].
  cbn [py.bind]. apply raises_bind.
  apply validate_index_outside.
  destruct Hout as [H|[H|H]]; auto.
  - pose proof (validate_index_outside "row" (sp.n m) r (or_introl H)) as G.
    rewrite Hr in G. discriminate.
  - pose proof (validate_index_outside "row" (sp.n m) r (or_intror H)) as G.
    rewrite Hr in G. discriminate.
Qed.

(** The loop of [loadflag] raises when one of the lines it reads makes
    [load_edge] raise on every matrix of the size at hand. *)
Lemma loadflag_raises_on_line f fmt l1 l2 l3 ls line :
  py.readlines f = l1 :: l2 :: l3 :: ls ->
  In line ls ->
  (forall m, sp.n m = List.length (py.split " " (py.strip l2)) ->
             py.raises (load_edge m line) = true) ->
  py.raises (loadflag f fmt) = true.
Proof.
  intros Hlines Hin Hbad. unfold loadflag. rewrite Hlines.
  cbn [py.readline].
  destruct (vertex_weights l2) as [weights|e] eqn:Hv; [|reflexivity].
  cbn [py.bind tl]. apply raises_bind.
  apply (for_each_raises load_edge
           (fun m => sp.n m = List.length (py.split " " (py.strip l2)))
           ls line); auto.
  - intros s x s' Hs Hx. rewrite (load_edge_size _ _ _ Hx). exact Hs.
  - cbn [sp.n sp.setdiag sp.csr_matrix].
    unfold vertex_weights in Hv. now apply map_result_length in Hv.
Qed.

(** C6 (amended): [loadflag] raises when the file ends before the vertex
    line, when one of the lines after the third has fewer than three tokens,
    and when such a line holds a row or column index that is [n] or more, or
    below [-n], [n] being the number of tokens of the vertex line. *)
Theorem C6_loadflag_failures f fmt :
  ((List.length (py.readlines f) < 2)%nat ->
   py.raises (loadflag f fmt) = true)
  /\ (forall l1 l2 l3 ls line,
        py.readlines f = l1 :: l2 :: l3 :: ls ->
        In line ls ->
        (List.length (py.split " " (py.strip line)) < 3)%nat ->
        py.raises (loadflag f fmt) = true)
  /\ (forall l1 l2 l3 ls line r c w,
        py.readlines f = l1 :: l2 :: l3 :: ls ->
        In line ls ->
        edge_record line = py.Ok (r, c, w) ->
        let size := Z.of_nat (List.length (py.split " " (py.strip l2))) in
        r < - size \/ size <= r \/ c < - size \/ size <= c ->
        py.raises (loadflag f fmt) = true).
Proof.
  repeat split.
  - intros Hlen. unfold loadflag.
    destruct (py.readlines f) as [|l1 [|l2 rest]]; simpl in Hlen;
      [reflexivity|reflexivity|lia].
  - intros l1 l2 l3 ls line Hlines Hin Hshort.
    apply (loadflag_raises_on_line f fmt l1 l2 l3 ls line); auto.
    intros m _. unfold load_edge. apply raises_bind.
    now apply short_line_raises.
  - intros l1 l2 l3 ls line r c w Hlines Hin He size Hout.
    apply (loadflag_raises_on_line f fmt l1 l2 l3 ls line); auto.
    intros m Hm. apply (load_edge_outside m line r c w He).
    rewrite Hm. exact Hout.
Qed.

(** A file of one line, a file with the edge line [0 1], and a file with
    the column index 2 for two vertices. *)
Lemma C6_loadflag_failures_witness :
  py.raises (loadflag (file_of ["dim 0"]) sp.fmt_csr) = true
  /\ py.raises (loadflag short_line_flag sp.fmt_csr) = true
  /\ py.raises (loadflag large_index_flag sp.fmt_csr) = true.
Proof.
  split; [|split].
  - apply (proj1 (C6_loadflag_failures (file_of ["dim 0"]) sp.fmt_csr)).
    vm_compute. lia.
  - apply (proj1 (proj2 (C6_loadflag_failures short_line_flag sp.fmt_csr))
             (ln "dim 0") (ln "1.0 2.0") (ln "dim 1") [ln "0 1"] (ln "0 1")).
    + vm_compute. reflexivity.
    + left. reflexivity.
    + vm_compute. lia.
  - apply (proj2 (proj2 (C6_loadflag_failures large_index_flag sp.fmt_csr))
             (ln "dim 0") (ln "1.0 2.0") (ln "dim 1") [ln "0 2 5.0"]
             (ln "0 2 5.0") 0 2 (float_of 5)).
    + vm_compute. reflexivity.
    + left. reflexivity.
    + vm_compute. reflexivity.
    + vm_compute. right. right. right. discriminate.
Defined.

(** C6, as stated, fails: the row index [-1] is outside [[0, 2)], and the
    file loads; the record lands in row 1. *)
Lemma C6_counterexample :
  edge_record (ln "-1 0 5.0") = py.Ok (-1, 0, float_of 5)
  /\ loadflag negative_index_flag sp.fmt_csr =
     py.Ok (sp.Sparse
              {| sp.fmt := sp.csr; sp.dtype := np.float64; sp.n := 2;
                 sp.stored := [(0, 0, np.F (float_of 1));
                               (1, 0, np.F (float_of 5));
                               (1, 1, np.F (float_of 2))] |}).
Proof. split; vm_compute; reflexivity. Qed.

(** ** [sum_duplicates] and [find] *)

Lemma not_after_trans k a b c :
  not_after k a b -> not_after k b c -> not_after k a c.
Proof.
  unfold not_after.
  destruct a as [[ra ca] va], b as [[rb cb] vb], c as [[rc cc] vc].
  destruct k; unpos; intros; zbool.
Qed.

Lemma before_not_after k a b : before k a b -> not_after k a b.
Proof. apply pos_ltb_asym. Qed.

Lemma not_after_before k a b c :
  before k a b -> not_after k b c -> before k a c.
Proof.
  unfold before, not_after.
  destruct a as [[ra ca] va], b as [[rb cb] vb], c as [[rc cc] vc].
  destruct k; unpos; intros; zbool.
Qed.

Lemma insert_In k e l x :
  In x (sp.insert (sp.pos_ltb k) e l) -> x = e \/ In x l.
Proof.
  induction l as [|y l IH]; cbn [sp.insert In].
  - intros [H|[]]; auto.
  - destruct (sp.pos_ltb k y e); cbn [In].
    + intros [H|H]; auto. destruct (IH H); auto.
    + intros [H|[H|H]]; auto.
Qed.

Lemma insert_sorted k e l :
  StronglySorted (not_after k) l ->
  StronglySorted (not_after k) (sp.insert (sp.pos_ltb k) e l).
Proof.
  induction l as [|y l IH]; cbn [sp.insert]; intros Hs.
  - repeat constructor.
  - inversion Hs as [|? ? Hl Hall]; subst.
    destruct (sp.pos_ltb k y e) eqn:Hlt.
    + constructor; [now apply IH|].
      apply Forall_forall. intros x Hx. apply insert_In in Hx.
      destruct Hx as [->|Hx].
      * now apply before_not_after.
      * rewrite Forall_forall in Hall. auto.
    + constructor; [exact Hs|].
      constructor; [exact Hlt|].
      revert Hall. apply Forall_impl. intros x Hx.
      eapply not_after_trans; eauto.
Qed.

Lemma sort_sorted k l :
  StronglySorted (not_after k) (sp.sort (sp.pos_ltb k) l).
Proof.
  induction l as [|e l IH]; cbn [sp.sort]; [constructor|].
  now apply insert_sorted.
Qed.

Lemma insert_perm k e l :
  Permutation (e :: l) (sp.insert (sp.pos_ltb k) e l).
Proof.
  induction l as [|y l IH]; cbn [sp.insert]; auto.
  destruct (sp.pos_ltb k y e); auto.
  rewrite perm_swap. now constructor.
Qed.

Lemma sort_perm k l : Permutation l (sp.sort (sp.pos_ltb k) l).
Proof.
  induction l as [|e l IH]; cbn [sp.sort]; auto.
  rewrite <- insert_perm. now constructor.
Qed.

(** Merging the runs of a sorted list leaves strictly increasing
    positions. *)
Lemma merge_run_sorted k d l : forall r c v acc,
  StronglySorted (not_after k) ((r, c, v) :: l) ->
  StronglySorted (before k) (sp.merge_run d (r, c, v) acc l)
  /\ Forall (not_after k (r, c, v)) (sp.merge_run d (r, c, v) acc l).
Proof.
  induction l as [|e l IH]; intros r c v acc Hs; cbn [sp.merge_run].
  - split; repeat constructor. unfold not_after.
    destruct k; unpos; zbool.
  - inversion Hs as [|? ? Hl Hall]; subst.
    inversion Hall as [|? ? He Hrest]; subst.
    destruct (sp.same_pos (r, c, v) e) eqn:Hsame.
    + destruct (IH r c v (acc ++ [sp.val_of e])%list) as [H1 H2].
      { inversion Hl; subst. constructor; auto. }
      split; [exact H1|exact H2].
    + destruct e as [[re ce] ve].
      destruct (IH re ce ve [] Hl) as [H1 H2].
      assert (Hbefore : before k (r, c, v) (re, ce, ve)).
      { unfold before, not_after in *. clear - Hsame He.
        destruct k; unpos; zbool. }
      cbn [fst].
      assert (Hb : forall w x, before k (r, c, v) x -> before k (r, c, w) x).
      { intros w [[rx cx] vx] Hx. exact Hx. }
      assert (Hn : forall w x, not_after k (r, c, v) x ->
                               not_after k (r, c, w) x).
      { intros w [[rx cx] vx] Hx. exact Hx. }
      split.
      * constructor; auto.
        revert H2. apply Forall_impl. intros x Hx. apply (Hb _ x).
        eapply not_after_before; eauto.
      * constructor.
        -- unfold not_after. destruct k; unpos; zbool.
        -- revert H2. apply Forall_impl. intros x Hx.
           eapply not_after_trans; eauto.
Qed.

Lemma sum_duplicates_sorted k d l :
  StronglySorted (before k) (sp.sum_duplicates k d l).
Proof.
  unfold sp.sum_duplicates, sp.sum_adjacent.
  pose proof (sort_sorted k l) as Hs.
  destruct (sp.sort (sp.pos_ltb k) l) as [|[[r c] v] l']; [constructor|].
  now apply merge_run_sorted.
Qed.

Lemma filter_sorted {A} (R : A -> A -> Prop) (p : A -> bool) l :
  StronglySorted R l -> StronglySorted R (filter p l).
Proof.
  induction 1 as [|a l Hl IH Hall]; simpl; [constructor|].
  destruct (p a); auto. constructor; auto.
  apply Forall_forall. intros x Hx. apply filter_In in Hx.
  rewrite Forall_forall in Hall. now apply Hall.
Qed.

(** The triples [find] returns for a sparse matrix come in strictly
    increasing order of the key, whatever the storage order was. *)
Lemma find_sorted k m :
  StronglySorted (before k) (sp.find k (sp.Sparse m)).
Proof. apply filter_sorted, sum_duplicates_sorted. Qed.

(** ** Storage order does not reach the file *)

Lemma filter_perm {A} (p : A -> bool) l l' :
  Permutation l l' -> Permutation (filter p l) (filter p l').
Proof.
  induction 1 as [|x l l' _ IH|x y l|l l' l'' _ IH1 _ IH2]; simpl; auto.
  - destruct (p x); auto.
  - destruct (p x), (p y); auto. apply perm_swap.
  - now rewrite IH1.
Qed.

Lemma at_pos_fst r c e : sp.at_pos r c e = true <-> fst e = (r, c).
Proof.
  destruct e as [[re ce] ve]. unpos. split.
  - intros H. zbool.
  - intros H. injection H as -> ->. now rewrite !Z.eqb_refl.
Qed.


Lemma merge_run_nodup d l : forall cur,
  NoDup (positions (cur :: l)) -> sp.merge_run d cur [] l = cur :: l.
Proof.
  induction l as [|e l IH]; intros cur Hnd; cbn [sp.merge_run np.add_reduce].
  - now destruct cur as [[r c] v].
  - unfold positions in Hnd. cbn [map] in Hnd.
    inversion Hnd as [|? ? Hnotin Hnd']; subst.
    assert (sp.same_pos cur e = false) as ->.
    { destruct (sp.same_pos cur e) eqn:E; auto. exfalso. apply Hnotin.
      left. unfold sp.same_pos in E. apply at_pos_fst in E. rewrite E.
      destruct cur as [[r c] v]. reflexivity. }
    rewrite (IH e Hnd'). now destruct cur as [[r c] v].
Qed.

Lemma sum_duplicates_nodup k d l :
  NoDup (positions l) ->
  sp.sum_duplicates k d l = sp.sort (sp.pos_ltb k) l.
Proof.
  intros Hnd. unfold sp.sum_duplicates, sp.sum_adjacent.
  assert (Hnd' : NoDup (positions (sp.sort (sp.pos_ltb k) l))).
  { eapply Permutation_NoDup; [|exact Hnd].
    unfold positions. apply Permutation_map, sort_perm. }
  destruct (sp.sort (sp.pos_ltb k) l) as [|e l']; auto.
  now apply merge_run_nodup.
Qed.


Lemma filter_at_pos_nodup r c l :
  NoDup (positions l) -> (List.length (filter (sp.at_pos r c) l) <= 1)%nat.
Proof.
  induction l as [|e l IH]; intros Hnd; simpl; [lia|].
  unfold positions in Hnd. cbn [map] in Hnd.
  inversion Hnd as [|? ? Hnotin Hnd']; subst.
  destruct (sp.at_pos r c e) eqn:E; [|now apply IH].
  simpl. assert (filter (sp.at_pos r c) l = []) as ->; [|simpl; lia].
  destruct (filter (sp.at_pos r c) l) as [|x xs] eqn:F; auto.
  exfalso. apply Hnotin.
  assert (Hx : In x (filter (sp.at_pos r c) l)) by (rewrite F; now left).
  apply filter_In in Hx. destruct Hx as [Hin Hat].
  apply at_pos_fst in E. apply at_pos_fst in Hat.
  rewrite E, <- Hat. now apply in_map.
Qed.

Lemma stored_at_perm r c l1 l2 :
  Permutation l1 l2 -> NoDup (positions l1) ->
  sp.stored_at r c l1 = sp.stored_at r c l2.
Proof.
  intros Hp Hnd. unfold sp.stored_at. f_equal.
  pose proof (filter_perm (sp.at_pos r c) _ _ Hp) as Hf.
  pose proof (filter_at_pos_nodup r c l1 Hnd) as Hlen.
  destruct (filter (sp.at_pos r c) l1) as [|x [|y xs]]; simpl in Hlen.
  - apply Permutation_nil in Hf. now rewrite Hf.
  - apply Permutation_length_1_inv in Hf. now rewrite Hf.
  - lia.
Qed.



(** ** [saveflag] and the round trip at the matrix with a zero edge *)

(** C3, at the failing input: the matrix stores the edge (0, 1) with weight
    zero.  The text begins with the two headers and the diagonal line, as
    stated; its edge section holds a line for each of the two diagonal
    entries and none for the stored edge, where the specification has the one
    line [0 1 0.000000000000000000e+00]. *)
Theorem C3_saveflag_zero_edge k :
  saveflag k (sp.Sparse zero_edge_matrix) =
    file_of ["dim 0";
             "1.000000000000000000e+00 2.000000000000000000e+00";
             "dim 1";
             "0 0 1.000000000000000000e+00";
             "1 1 2.000000000000000000e+00"]
  /\ spec_saveflag (sp.Sparse zero_edge_matrix) =
    file_of ["dim 0";
             "1.000000000000000000e+00 2.000000000000000000e+00";
             "dim 1";
             "0 1 0.000000000000000000e+00"].
Proof. destruct k; split; vm_compute; reflexivity. Qed.

(** C1, at the failing input: saving the matrix and loading the file gives
    back the two vertex weights and loses the stored edge (0, 1) of weight
    zero. *)
Theorem C1_round_trip_zero_edge k :
  loadflag (saveflag k (sp.Sparse zero_edge_matrix)) sp.fmt_csr =
    py.Ok (sp.Sparse zero_edge_lost)
  /\ sp.present (sp.Sparse zero_edge_matrix) 0 1 = true
  /\ sp.present (sp.Sparse zero_edge_lost) 0 1 = false.
Proof. destruct k; repeat split; vm_compute; reflexivity. Qed.

(** A boolean matrix is written with two tokens per edge line, and
    [loadflag] reads three. *)
Lemma round_trip_bool_raises k :
  saveflag k (sp.Sparse bool_matrix) =
    file_of ["dim 0";
             "1.000000000000000000e+00 1.000000000000000000e+00";
             "dim 1"; "0 0"; "0 1"; "1 1"]
  /\ loadflag (saveflag k (sp.Sparse bool_matrix)) sp.fmt_csr =
     py.Raise (py.IndexError "list index out of range").
Proof. destruct k; split; vm_compute; reflexivity. Qed.



(** ** [flagser_static] and [flagser_persistence] *)

Lemma str_in_In x l : str_in x l = true <-> In x l.
Proof.
  unfold str_in. rewrite existsb_exists. split.
  - intros (y & Hin & Heq). apply String.eqb_eq in Heq. now subst.
  - intros Hin. exists x. split; auto. apply String.eqb_refl.
Qed.

(** The default never raises, and it is the closed form. *)
Lemma resolve_default alias d :
  resolve_max_edge_length alias None d
  = py.Ok (default_max_edge_length alias d).
Proof. destruct alias, d as [|w|w|[| |]]; reflexivity. Qed.

Lemma resolve_given alias v d :
  resolve_max_edge_length alias (Some v) d = py.Ok (Some v).
Proof. reflexivity. Qed.

Lemma resolve_total alias mel d :
  exists r, resolve_max_edge_length alias mel d = py.Ok r.
Proof.
  destruct mel as [v|];
    [exists (Some v)|exists (default_max_edge_length alias d)].
  - reflexivity.
  - apply resolve_default.
Qed.

Lemma call_args_sentinels ve min_d max_d directed filtration coeff approx :
  sentinels max_d approx
            (call_args ve min_d max_d directed filtration coeff approx).
Proof.
  unfold sentinels, call_args. cbn [arg_max_dimension arg_approximation].
  repeat split.
  - intros ->. reflexivity.
  - intros Hne. destruct max_d as [z|[| [|] | |]]; try reflexivity.
    now contradiction Hne.
  - intros ->. reflexivity.
  - intros a ->. reflexivity.
Qed.

Section Runs.

Variable alias : np.float_alias.
Variable ext_s : sp.matrix -> py.result (vertices_t * edges_t).
Variable ext_p : sp.matrix -> option py.num ->
                 py.result (vertices_t * edges_t).
Variable engine : engine_args -> py.result (list homology).
Variables (M : sp.matrix) (min_d : Z) (max_d : py.num) (directed : bool)
          (filtration : string) (coeff : Z) (approx : option Z).

(** The run of [flagser_static] when the name is known and the extraction
    answers. *)
Lemma static_run ve log :
  str_in filtration implemented_filtrations = true ->
  ext_s M = py.Ok ve ->
  flagser_static ext_s engine M min_d max_d directed filtration coeff approx
                 log =
  let args := call_args ve min_d max_d directed filtration coeff approx in
  let log' := (log ++ [ExtractStatic M] ++ [ComputeHomology args])%list in
  match engine args with
  | py.Ok (h :: _) =>
      (py.Ok {| dgms := get_persistence_diagram h;
                cell_count := get_cell_count h;
                betti := get_betti_numbers h;
                euler := get_euler_characteristic h |}, log')
  | py.Ok [] => (py.Raise (py.IndexError "list index out of range"), log')
  | py.Raise e => (py.Raise e, log')
  end.
Proof.
  intros Hf He. unfold flagser_static. rewrite Hf. cbn [negb].
  unfold bind_run, outside, lift, ret. rewrite He.
  fold (call_args ve min_d max_d directed filtration coeff approx).
  cbn zeta. rewrite <- app_assoc.
  destruct (engine _) as [[|h hs]|e]; reflexivity.
Qed.

(** The run of [flagser_persistence] in the same case. *)
Lemma persistence_run mel r ve log :
  str_in filtration implemented_filtrations = true ->
  resolve_max_edge_length alias mel (sp.dtype_of M) = py.Ok r ->
  ext_p M r = py.Ok ve ->
  flagser_persistence alias ext_p engine M mel min_d max_d directed
                      filtration coeff approx log =
  let args := call_args ve min_d max_d directed filtration coeff approx in
  let log' := (log ++ [ExtractPersistence M r]
                   ++ [ComputeHomology args])%list in
  match engine args with
  | py.Ok (h :: _) =>
      match py.map_result (fun dgm => np.nan_to_num dgm r)
                          (get_persistence_diagram h) with
      | py.Ok d =>
          (py.Ok {| dgms := d;
                    cell_count := get_cell_count h;
                    betti := get_betti_numbers h;
                    euler := get_euler_characteristic h |}, log')
      | py.Raise e => (py.Raise e, log')
      end
  | py.Ok [] => (py.Raise (py.IndexError "list index out of range"), log')
  | py.Raise e => (py.Raise e, log')
  end.
Proof.
  intros Hf Hr He. unfold flagser_persistence.
  unfold bind_run, outside, lift, ret. rewrite Hr, Hf. cbn [negb].
  rewrite He.
  fold (call_args ve min_d max_d directed filtration coeff approx).
  cbn zeta. rewrite <- app_assoc.
  destruct (engine _) as [[|h hs]|e]; reflexivity.
Qed.

(** The first thing either function does with a known name is the
    extraction. *)
Lemma static_extracts log :
  str_in filtration implemented_filtrations = true ->
  exists rest,
    snd (flagser_static ext_s engine M min_d max_d directed filtration coeff
                        approx log)
    = (log ++ ExtractStatic M :: rest)%list.
Proof.
  intros Hf. destruct (ext_s M) as [ve|e] eqn:He.
  - rewrite (static_run ve log Hf He). cbn zeta.
    destruct (engine _) as [[|h hs]|e]; cbn [snd]; eexists; reflexivity.
  - unfold flagser_static. rewrite Hf. cbn [negb].
    unfold bind_run, outside. rewrite He. cbn [snd]. eexists. reflexivity.
Qed.

Lemma persistence_extracts mel r log :
  str_in filtration implemented_filtrations = true ->
  resolve_max_edge_length alias mel (sp.dtype_of M) = py.Ok r ->
  exists rest,
    snd (flagser_persistence alias ext_p engine M mel min_d max_d directed
                             filtration coeff approx log)
    = (log ++ ExtractPersistence M r :: rest)%list.
Proof.
  intros Hf Hr. destruct (ext_p M r) as [ve|e] eqn:He.
  - rewrite (persistence_run mel r ve log Hf Hr He). cbn zeta.
    destruct (engine _) as [[|h hs]|e];
      [| destruct (py.map_result _ _) |]; cbn [snd]; eexists; reflexivity.
  - unfold flagser_persistence.
    unfold bind_run, outside, lift. rewrite Hr, Hf. cbn [negb].
    rewrite He. cbn [snd]. eexists. reflexivity.
Qed.

(** An unknown name ends either function before any call. *)
Lemma static_unknown log :
  str_in filtration implemented_filtrations = false ->
  flagser_static ext_s engine M min_d max_d directed filtration coeff approx
                 log = (py.Raise filtration_error, log).
Proof. intros Hf. unfold flagser_static. now rewrite Hf. Qed.

Lemma persistence_unknown mel log :
  str_in filtration implemented_filtrations = false ->
  flagser_persistence alias ext_p engine M mel min_d max_d directed
                      filtration coeff approx log
  = (py.Raise filtration_error, log).
Proof.
  intros Hf. unfold flagser_persistence, bind_run, lift.
  destruct (resolve_total alias mel (sp.dtype_of M)) as [r ->].
  now rewrite Hf.
Qed.

End Runs.

(** C7: with a known filtration name and an extraction that answers, the
    engine is called once, after the extraction, and its arguments carry the
    sentinels: a [max_dimension] of [np.inf] arrives as [-1] and any other
    value as itself; an [approximation] of [None] arrives as [-1] and any
    given budget, a negative one included, as itself.  This holds for
    [flagser_static] and for [flagser_persistence]. *)
Theorem C7_engine_sentinels alias ext_s ext_p engine M mel min_d max_d
    directed filtration coeff approx log :
  str_in filtration implemented_filtrations = true ->
  (forall ve, ext_s M = py.Ok ve ->
     exists args,
       snd (flagser_static ext_s engine M min_d max_d directed filtration
                           coeff approx log)
       = (log ++ [ExtractStatic M; ComputeHomology args])%list
       /\ sentinels max_d approx args)
  /\ (forall r ve,
        resolve_max_edge_length alias mel (sp.dtype_of M) = py.Ok r ->
        ext_p M r = py.Ok ve ->
        exists args,
          snd (flagser_persistence alias ext_p engine M mel min_d max_d
                                   directed filtration coeff approx log)
          = (log ++ [ExtractPersistence M r; ComputeHomology args])%list
          /\ sentinels max_d approx args).
Proof.
  intros Hf. split.
  - intros ve He.
    exists (call_args ve min_d max_d directed filtration coeff approx).
    split; [|apply call_args_sentinels].
    rewrite (static_run ext_s engine M min_d max_d directed filtration coeff
               approx ve log Hf He). cbn zeta.
    destruct (engine _) as [[|h hs]|e]; reflexivity.
  - intros r ve Hr He.
    exists (call_args ve min_d max_d directed filtration coeff approx).
    split; [|apply call_args_sentinels].
    rewrite (persistence_run alias ext_p engine M min_d max_d directed
               filtration coeff approx mel r ve log Hf Hr He). cbn zeta.
    destruct (engine _) as [[|h hs]|e];
      [| destruct (py.map_result _ _) |]; reflexivity.
Qed.

(** [max_dimension=np.inf] with the negative budget [-5]. *)
Lemma C7_engine_sentinels_witness :
  exists args,
    snd (flagser_static sample_extract_static sample_engine
           (sp.Sparse zero_edge_matrix) 0 (py.Float py.inf) true "max" 2
           (Some (-5)) [])
    = [ExtractStatic (sp.Sparse zero_edge_matrix); ComputeHomology args]
    /\ sentinels (py.Float py.inf) (Some (-5)) args.
Proof.
  apply (proj1 (C7_engine_sentinels np.float64_only sample_extract_static
                  sample_extract_persistence sample_engine
                  (sp.Sparse zero_edge_matrix) None 0 (py.Float py.inf) true
                  "max" 2 (Some (-5)) [] eq_refl)
           (sp.diagonal (sp.Sparse zero_edge_matrix), [])).
  reflexivity.
Defined.

(** C5 (amended): a filtration name outside the registry makes both
    functions raise a [ValueError] whose arguments are the fixed message and
    the list of the eleven known names, and nothing has been called by then
    (the log is as it was); the name that was refused is not part of the
    error.  With each of the eleven names both functions go on to the
    extraction. *)
Theorem C5_filtration_check alias ext_s ext_p engine M mel min_d max_d
    directed coeff approx log :
  (forall filtration,
     str_in filtration implemented_filtrations = false ->
     flagser_static ext_s engine M min_d max_d directed filtration coeff
                    approx log
     = (py.Raise filtration_error, log)
     /\ flagser_persistence alias ext_p engine M mel min_d max_d directed
                            filtration coeff approx log
        = (py.Raise filtration_error, log))
  /\ filtration_error =
     py.ValueError
       [py.AStr "Filtration not recongnized. Available filtrations are ";
        py.AList ["dimension"; "zero"; "max"; "max3"; "max_plus_one";
                  "product"; "sum"; "pmean"; "pmoment"; "remove_edges";
                  "vertex_degree"]]
  /\ Forall (fun filtration =>
               (exists rest,
                  snd (flagser_static ext_s engine M min_d max_d directed
                                      filtration coeff approx log)
                  = (log ++ ExtractStatic M :: rest)%list)
               /\ (exists r rest,
                     snd (flagser_persistence alias ext_p engine M mel min_d
                                              max_d directed filtration coeff
                                              approx log)
                     = (log ++ ExtractPersistence M r :: rest)%list))
            ["dimension"; "zero"; "max"; "max3"; "max_plus_one"; "product";
             "sum"; "pmean"; "pmoment"; "remove_edges"; "vertex_degree"].
Proof.
  split; [|split].
  - intros filtration Hf. split.
    + now apply static_unknown.
    + now apply persistence_unknown.
  - reflexivity.
  - destruct (resolve_total alias mel (sp.dtype_of M)) as [r Hr].
    apply Forall_forall. intros filtration Hin.
    assert (Hf : str_in filtration implemented_filtrations = true)
      by (apply str_in_In; exact Hin).
    split.
    + now apply static_extracts.
    + exists r. now apply persistence_extracts.
Qed.

(** The name [bogus]: both functions stop with an empty log. *)
Lemma C5_filtration_check_witness :
  flagser_static sample_extract_static sample_engine
    (sp.Sparse zero_edge_matrix) 0 (py.Float py.inf) true "bogus" 2 None []
  = (py.Raise filtration_error, [])
  /\ flagser_persistence np.float64_only sample_extract_persistence
       sample_engine (sp.Sparse zero_edge_matrix) None 0 (py.Float py.inf)
       true "bogus" 2 None []
     = (py.Raise filtration_error, []).
Proof.
  apply (proj1 (C5_filtration_check np.float64_only sample_extract_static
                  sample_extract_persistence sample_engine
                  (sp.Sparse zero_edge_matrix) None 0 (py.Float py.inf) true
                  2 None []) "bogus").
  reflexivity.
Defined.

(** C5, as stated, fails: the error raised for the name [bogus] holds the
    message and the known names, and [bogus] is nowhere in it. *)
Lemma C5_counterexample :
  fst (flagser_static sample_extract_static sample_engine
         (sp.Sparse zero_edge_matrix) 0 (py.Float py.inf) true "bogus" 2
         None [])
  = py.Raise filtration_error
  /\ fst (flagser_persistence np.float64_only sample_extract_persistence
            sample_engine (sp.Sparse zero_edge_matrix) None 0
            (py.Float py.inf) true "bogus" 2 None [])
     = py.Raise filtration_error
  /\ exn_mentions filtration_error "bogus" = false
  /\ exn_mentions filtration_error "vertex_degree" = true.
Proof. repeat split; vm_compute; reflexivity. Qed.

(** C4 (amended): when [max_edge_length] is [None], [flagser_persistence]
    resolves it without raising: to the largest integer of an integer dtype;
    to [np.inf] for [float64], and for the narrower floating-point formats
    where [np.float] stands for their class (NumPy before 1.20); to [None]
    itself for [bool], and for the narrower formats where [np.float] is
    [float64] alone (NumPy 1.20 to 1.23).  With a known filtration name that
    value, [None] included, is what the extraction is called with. *)
Theorem C4_max_edge_length_default alias ext_p engine M min_d max_d directed
    filtration coeff approx log :
  str_in filtration implemented_filtrations = true ->
  resolve_max_edge_length alias None (sp.dtype_of M)
  = py.Ok (default_max_edge_length alias (sp.dtype_of M))
  /\ (exists rest,
        snd (flagser_persistence alias ext_p engine M None min_d max_d
                                 directed filtration coeff approx log)
        = (log ++ ExtractPersistence M
                    (default_max_edge_length alias (sp.dtype_of M))
               :: rest)%list)
  /\ (forall w, sp.dtype_of M = np.int_ w ->
        default_max_edge_length alias (sp.dtype_of M)
        = Some (py.Int (2 ^ (np.bits w - 1) - 1)))
  /\ (forall w, sp.dtype_of M = np.uint w ->
        default_max_edge_length alias (sp.dtype_of M)
        = Some (py.Int (2 ^ np.bits w - 1)))
  /\ (sp.dtype_of M = np.float64 ->
      default_max_edge_length alias (sp.dtype_of M)
      = Some (py.Float py.inf))
  /\ (forall w, sp.dtype_of M = np.floating w -> w <> np.F64 ->
        default_max_edge_length alias (sp.dtype_of M)
        = match alias with
          | np.floating_class => Some (py.Float py.inf)
          | np.float64_only => None
          end)
  /\ (sp.dtype_of M = np.bool_ ->
      default_max_edge_length alias (sp.dtype_of M) = None).
Proof.
  intros Hf. split; [apply resolve_default|].
  split; [apply persistence_extracts; auto; apply resolve_default|].
  repeat split.
  - intros w ->. reflexivity.
  - intros w ->. reflexivity.
  - intros ->. reflexivity.
  - intros w -> Hw. destruct w; try reflexivity. now contradiction Hw.
  - intros ->. reflexivity.
Qed.

(** A float64 matrix: the default is [np.inf]. *)
Lemma C4_max_edge_length_default_witness :
  resolve_max_edge_length np.float64_only None np.float64
  = py.Ok (Some (py.Float py.inf))
  /\ exists rest,
       snd (flagser_persistence np.float64_only sample_extract_persistence
              sample_engine (sp.Sparse zero_edge_matrix) None 0
              (py.Float py.inf) true "max" 2 None [])
       = ExtractPersistence (sp.Sparse zero_edge_matrix)
           (Some (py.Float py.inf)) :: rest.
Proof.
  pose proof (C4_max_edge_length_default np.float64_only
                sample_extract_persistence sample_engine
                (sp.Sparse zero_edge_matrix) 0 (py.Float py.inf) true "max" 2
                None [] eq_refl) as (Hr & Hx & _).
  split; [exact Hr|exact Hx].
Defined.

(** C4, as stated, fails: a boolean matrix is neither integer nor
    floating-point, and with [max_edge_length=None] nothing is raised: the
    extraction is called with [None], and with collaborators that answer the
    call returns; [+inf] in the diagram has become the largest finite
    double.  Where [np.float] is [float64] alone a [float32] matrix is left
    without a default too. *)
Lemma C4_counterexample :
  np.issubdtype_integer np.bool_ = false
  /\ np.issubdtype_float np.floating_class np.bool_ = false
  /\ np.issubdtype_float np.float64_only np.bool_ = false
  /\ resolve_max_edge_length np.floating_class None np.bool_ = py.Ok None
  /\ resolve_max_edge_length np.float64_only None np.bool_ = py.Ok None
  /\ resolve_max_edge_length np.float64_only None (np.floating np.F32)
     = py.Ok None
  /\ flagser_persistence np.float64_only sample_extract_persistence
       sample_engine (sp.Sparse bool_matrix) None 0 (py.Float py.inf) true
       "max" 2 None []
     = (py.Ok {| dgms := [[(py.fzero, np.float_max); (py.fzero, py.fzero)]];
                 cell_count := [2]; betti := [1]; euler := 2 |},
        [ExtractPersistence (sp.Sparse bool_matrix) None;
         ComputeHomology
           (call_args ([np.B true; np.B true], []) 0 (py.Float py.inf) true
                      "max" 2 None)]).
Proof. repeat split; vm_compute; reflexivity. Qed.

(** ** The diagrams *)

Lemma nan_to_num1_substituted maxf x :
  substituted maxf x (np.nan_to_num1 maxf (SFopp np.float_max) x).
Proof.
  unfold substituted. repeat split.
  - intros ->. reflexivity.
  - intros ->. reflexivity.
  - intros ->. reflexivity.
  - intros s ->. reflexivity.
  - intros s m e ->. reflexivity.
Qed.

(** The diagrams under [nan_to_num] when [+inf] is filled with [maxf]. *)
Lemma nan_to_num_rows r maxf (D : list diagram) :
  match r with
  | Some v => np.as_float64 v
  | None => py.Ok np.float_max
  end = py.Ok maxf ->
  exists D',
    py.map_result (fun dgm => np.nan_to_num dgm r) D = py.Ok D'
    /\ Forall2 (Forall2 (pair_substituted maxf)) D D'.
Proof.
  intros Hv. induction D as [|dgm D (D' & HD & HF)].
  - exists []. split; [reflexivity|constructor].
  - cbn [py.map_result]. unfold np.nan_to_num at 1. rewrite Hv.
    cbn [py.bind]. rewrite HD. cbn [py.bind].
    eexists. split; [reflexivity|]. constructor; auto.
    clear. induction dgm as [|[b d] dgm IH]; cbn [map]; constructor; auto.
    split; apply nan_to_num1_substituted.
Qed.

Section Diagrams.

Variable alias : np.float_alias.
Variable ext_p : sp.matrix -> option py.num ->
                 py.result (vertices_t * edges_t).
Variable engine : engine_args -> py.result (list homology).
Variables (M : sp.matrix) (mel : option py.num) (min_d : Z) (max_d : py.num)
          (directed : bool) (filtration : string) (coeff : Z)
          (approx : option Z).

(** The run of [flagser_persistence] whose [+inf] is filled with [maxf]. *)
Lemma persistence_filled r maxf ve h hs log :
  str_in filtration implemented_filtrations = true ->
  resolve_max_edge_length alias mel (sp.dtype_of M) = py.Ok r ->
  ext_p M r = py.Ok ve ->
  engine (call_args ve min_d max_d directed filtration coeff approx)
  = py.Ok (h :: hs) ->
  match r with
  | Some v => np.as_float64 v
  | None => py.Ok np.float_max
  end = py.Ok maxf ->
  diagrams_filled maxf h
    (fst (flagser_persistence alias ext_p engine M mel min_d max_d directed
                              filtration coeff approx log)).
Proof.
  intros Hf Hr He Hengine Hv.
  destruct (nan_to_num_rows r maxf (get_persistence_diagram h) Hv)
    as (D' & HD & HF).
  rewrite (persistence_run alias ext_p engine M min_d max_d directed
             filtration coeff approx mel r ve log Hf Hr He). cbn zeta.
  rewrite Hengine, HD. cbn [fst]. eexists. split; [reflexivity|exact HF].
Qed.

End Diagrams.

(** C9 (amended): with a known filtration name, an extraction that answers
    and an engine that returns a result, [flagser_persistence] returns, and
    its diagrams are the engine's with every [+inf], a birth as well as a
    death, replaced by a value that depends on what [max_edge_length]
    resolved to: a float [f] gives [f] itself; an integer [z] that fits 64
    bits gives the double nearest to [z]; and [None] (a boolean matrix, or a
    narrow floating-point one where [np.float] is [float64]) gives the
    largest finite double, not the resolved value.  Every NaN has become
    zero and every [-inf] the most negative finite double; zero and finite
    values are kept.  [flagser_static] returns the engine's diagrams as they
    are. *)
Theorem C9_diagram_substitution alias ext_s ext_p engine M mel min_d max_d
    directed filtration coeff approx log r ve h hs :
  str_in filtration implemented_filtrations = true ->
  engine (call_args ve min_d max_d directed filtration coeff approx)
  = py.Ok (h :: hs) ->
  (resolve_max_edge_length alias mel (sp.dtype_of M) = py.Ok r ->
   ext_p M r = py.Ok ve ->
   let res := fst (flagser_persistence alias ext_p engine M mel min_d max_d
                                       directed filtration coeff approx log)
   in
   (forall f, r = Some (py.Float f) -> diagrams_filled f h res)
   /\ (forall z, r = Some (py.Int z) -> - 2 ^ 63 <= z < 2 ^ 64 ->
         diagrams_filled (py.float_of_Z z) h res)
   /\ (r = None ->
       diagrams_filled (S754_finite false 9007199254740991 971) h res))
  /\ (ext_s M = py.Ok ve ->
      exists out,
        fst (flagser_static ext_s engine M min_d max_d directed filtration
                            coeff approx log) = py.Ok out
        /\ dgms out = get_persistence_diagram h).
Proof.
  intros Hf Hengine. split.
  - intros Hr He res. subst res. split; [|split].
    + intros f Hf'. subst r.
      apply (persistence_filled alias ext_p engine M mel min_d max_d
               directed filtration coeff approx (Some (py.Float f)) f ve h hs
               log Hf Hr He Hengine).
      reflexivity.
    + intros z Hz' Hz. subst r.
      apply (persistence_filled alias ext_p engine M mel min_d max_d
               directed filtration coeff approx (Some (py.Int z))
               (py.float_of_Z z) ve h hs log Hf Hr He Hengine).
      cbn [np.as_float64].
      replace (- 2 ^ 63 <=? z) with true by (symmetry; apply Z.leb_le; lia).
      replace (z <? 2 ^ 64) with true by (symmetry; apply Z.ltb_lt; lia).
      reflexivity.
    + intros Hn. subst r.
      apply (persistence_filled alias ext_p engine M mel min_d max_d
               directed filtration coeff approx None
               (S754_finite false 9007199254740991 971) ve h hs log
               Hf Hr He Hengine).
      reflexivity.
  - intros He.
    rewrite (static_run ext_s engine M min_d max_d directed filtration coeff
               approx ve log Hf He). cbn zeta.
    rewrite Hengine. cbn [fst]. eexists. split; reflexivity.
Qed.

(** [max_edge_length=10] on the sample engine's diagram: the bar that never
    dies ends at 10. *)
Lemma C9_diagram_substitution_witness :
  diagrams_filled (float_of 10) sample_homology
    (fst (flagser_persistence np.float64_only sample_extract_persistence
            sample_engine (sp.Sparse zero_edge_matrix) (Some (py.Int 10)) 0
            (py.Float py.inf) true "max" 2 None []))
  /\ (exists out,
        fst (flagser_static sample_extract_static sample_engine
               (sp.Sparse zero_edge_matrix) 0 (py.Float py.inf) true "max" 2
               None []) = py.Ok out
        /\ dgms out = get_persistence_diagram sample_homology).
Proof.
  pose proof (C9_diagram_substitution np.float64_only sample_extract_static
                sample_extract_persistence sample_engine
                (sp.Sparse zero_edge_matrix) (Some (py.Int 10)) 0
                (py.Float py.inf) true "max" 2 None [] (Some (py.Int 10))
                (sp.diagonal (sp.Sparse zero_edge_matrix), [])
                sample_homology [] eq_refl eq_refl) as [Hp Hs].
  split.
  - apply (proj1 (proj2 (Hp eq_refl eq_refl)) 10 eq_refl). lia.
  - apply Hs; reflexivity.
Defined.

(** C9, as stated, fails: for a boolean matrix [max_edge_length] resolves
    to [None], and the bar that never dies comes back ending at the largest
    finite double, which is not the resolved value; the birth [-inf] comes
    back as the most negative finite double. *)
Lemma C9_counterexample :
  resolve_max_edge_length np.float64_only None
    (sp.dtype_of (sp.Sparse bool_matrix)) = py.Ok None
  /\ fst (flagser_persistence np.float64_only sample_extract_persistence
            infinite_engine (sp.Sparse bool_matrix) None 0 (py.Float py.inf)
            true "max" 2 None [])
     = py.Ok {| dgms := [[(S754_finite true 9007199254740991 971,
                            S754_finite false 9007199254740991 971)]];
                cell_count := [1]; betti := [1]; euler := 1 |}.
Proof. split; vm_compute; reflexivity. Qed.

(** ** Strings as lists of characters *)

Lemma chars_app s1 s2 : chars (s1 ++ s2) = (chars s1 ++ chars s2)%list.
Proof.
  unfold chars. induction s1 as [|c s1 IH]; simpl; auto. now rewrite IH.
Qed.

Lemma string_of_chars s : string_of_list_ascii (chars s) = s.
Proof. apply string_of_list_ascii_of_string. Qed.

Lemma chars_of_list l : chars (string_of_list_ascii l) = l.
Proof. apply list_ascii_of_string_of_list_ascii. Qed.

Lemma chars_inj s1 s2 : chars s1 = chars s2 -> s1 = s2.
Proof.
  intros H. rewrite <- (string_of_chars s1), <- (string_of_chars s2).
  now rewrite H.
Qed.

Lemma no_blank_app s1 s2 : no_blank s1 -> no_blank s2 -> no_blank (s1 ++ s2).
Proof.
  unfold no_blank. rewrite chars_app. intros. now apply Forall_app.
Qed.

Lemma no_blank_empty : no_blank "".
Proof. constructor. Qed.

Lemma no_blank_substring s : forall n m,
  no_blank s -> no_blank (substring n m s).
Proof.
  unfold no_blank, chars.
  induction s as [|c s IH]; intros n m H; destruct n, m; simpl;
    try constructor; inversion H; subst; auto.
Qed.

Lemma no_blank_uint d : no_blank (NilEmpty.string_of_uint d).
Proof.
  unfold no_blank, chars.
  induction d; simpl; constructor; auto.
Qed.

Lemma no_blank_nzuint d : no_blank (NilZero.string_of_uint d).
Proof.
  destruct d; try apply no_blank_uint.
  repeat constructor.
Qed.

Lemma fmt_i_solid z : solid (py.fmt_i z).
Proof.
  unfold solid, py.fmt_i. destruct z as [|p|p]; simpl.
  - split; [discriminate|repeat constructor].
  - split; [|apply no_blank_nzuint].
    pose proof (DecimalPos.Unsigned.to_uint_nonnil p) as Hn.
    destruct (Pos.to_uint p); simpl; congruence.
  - split; [discriminate|].
    unfold no_blank, chars. simpl. constructor; [reflexivity|].
    apply no_blank_nzuint.
Qed.

Lemma digit_char_no_blank z :
  py.is_space (ascii_of_nat (48 + Z.to_nat (z mod 10))) = false.
Proof.
  assert (H : (Z.to_nat (z mod 10) < 10)%nat).
  { pose proof (Z.mod_pos_bound z 10 ltac:(lia)). lia. }
  revert H. generalize (Z.to_nat (z mod 10)). intros n H.
  do 10 (destruct n as [|n]; [reflexivity|]).
  lia.
Qed.

Lemma no_blank_digits_fixed w : forall z, no_blank (py.digits_fixed w z).
Proof.
  induction w as [|w IH]; intros z; simpl; [constructor|].
  apply no_blank_app; auto.
  repeat constructor. apply digit_char_no_blank.
Qed.

Lemma no_blank_sign s : no_blank (py.sign_string s).
Proof. destruct s; repeat constructor. Qed.

Lemma sci_string_solid s q k : solid (py.sci_string s q k).
Proof.
  unfold py.sci_string. split.
  - intros H. apply (f_equal chars) in H. rewrite !chars_app in H.
    destruct (chars (py.sign_string s)); [|discriminate].
    destruct (chars (substring 0 1 (py.digits_fixed 19 q))); discriminate.
  - repeat apply no_blank_app;
      try apply no_blank_sign; try apply no_blank_substring;
      try apply no_blank_digits_fixed; try apply no_blank_nzuint;
      try (repeat constructor).
    + destruct (k <? 0); repeat constructor.
    + destruct (Z.abs k <? 10); repeat constructor.
Qed.

Lemma fmt_e18_solid x : solid (py.fmt_e18 x).
Proof.
  destruct x as [s|s| |s m e]; cbn [py.fmt_e18].
  - destruct s; split; try discriminate; repeat constructor.
  - destruct s; split; try discriminate; repeat constructor.
  - split; [discriminate|repeat constructor].
  - cbv zeta. match goal with |- solid (if ?b then _ else _) =>
      destruct b end; apply sci_string_solid.
Qed.

(** ** [split], [strip] and [readlines] on what [savetxt] writes *)

Lemma not_blank_not_space c :
  py.is_space c = false -> Ascii.eqb c " " = false.
Proof.
  intros H. destruct (Ascii.eqb_spec c " "); auto. subst. discriminate.
Qed.

Lemma not_blank_not_newline c :
  py.is_space c = false -> Ascii.eqb c py.newline = false.
Proof.
  intros H. destruct (Ascii.eqb_spec c py.newline); auto. subst. discriminate.
Qed.

Lemma split_chars_token l :
  Forall (fun c => py.is_space c = false) l ->
  py.split_chars " " l = [l].
Proof.
  induction 1 as [|c l Hc _ IH]; simpl; auto.
  now rewrite (not_blank_not_space c Hc), IH.
Qed.

Lemma split_chars_first l rest :
  Forall (fun c => py.is_space c = false) l ->
  py.split_chars " " (l ++ " "%char :: rest) = l :: py.split_chars " " rest.
Proof.
  induction 1 as [|c l Hc _ IH]; simpl; auto.
  now rewrite (not_blank_not_space c Hc), IH.
Qed.

Lemma chars_join_cons t t' toks :
  chars (py.join " " (t :: t' :: toks))
  = (chars t ++ " "%char :: chars (py.join " " (t' :: toks)))%list.
Proof. cbn [py.join]. now rewrite !chars_app. Qed.

Lemma split_join toks :
  toks <> [] -> Forall no_blank toks ->
  py.split " " (py.join " " toks) = toks.
Proof.
  intros Hne Hall. unfold py.split. fold (chars (py.join " " toks)).
  induction toks as [|t toks IH]; [congruence|].
  inversion Hall as [|? ? Ht Htoks]; subst.
  destruct toks as [|t' toks].
  - cbn [py.join]. rewrite (split_chars_token _ Ht). cbn [map].
    now rewrite string_of_chars.
  - rewrite chars_join_cons, (split_chars_first _ _ Ht). cbn [map].
    rewrite string_of_chars. f_equal. apply IH; [discriminate|exact Htoks].
Qed.

Lemma solid_starts t : solid t -> starts_solid (chars t).
Proof.
  intros [Hne Hnb]. unfold no_blank in Hnb.
  destruct (chars t) as [|c l] eqn:E.
  - exfalso. apply Hne. apply chars_inj. now rewrite E.
  - inversion Hnb; subst. now exists c, l.
Qed.

Lemma solid_ends t : solid t -> ends_solid (chars t).
Proof.
  intros [Hne Hnb]. unfold no_blank in Hnb. unfold ends_solid.
  assert (Hrev : Forall (fun c => py.is_space c = false) (rev (chars t)))
    by now apply Forall_rev.
  destruct (rev (chars t)) as [|c l] eqn:E.
  - exfalso. apply Hne. apply chars_inj.
    rewrite <- (rev_involutive (chars t)), E. reflexivity.
  - inversion Hrev; subst. now exists c, l.
Qed.

Lemma starts_solid_app a b : starts_solid a -> starts_solid (a ++ b).
Proof. intros (c & l & -> & Hc). now exists c, (l ++ b)%list. Qed.

Lemma ends_solid_app a b : ends_solid b -> ends_solid (a ++ b).
Proof.
  unfold ends_solid. rewrite rev_app_distr. apply starts_solid_app.
Qed.

Lemma join_starts_ends toks :
  toks <> [] -> Forall solid toks ->
  starts_solid (chars (py.join " " toks))
  /\ ends_solid (chars (py.join " " toks)).
Proof.
  intros Hne Hall. induction toks as [|t toks IH]; [congruence|].
  inversion Hall as [|? ? Ht Htoks]; subst.
  destruct toks as [|t' toks].
  - cbn [py.join]. split; [now apply solid_starts|now apply solid_ends].
  - rewrite chars_join_cons. split.
    + apply starts_solid_app. now apply solid_starts.
    + destruct IH as [_ IH]; [discriminate|exact Htoks|].
      apply (ends_solid_app (chars t ++ [" "%char])) in IH.
      now rewrite <- app_assoc in IH.
Qed.

Lemma lstrip_starts l : starts_solid l -> py.lstrip l = l.
Proof. intros (c & l' & -> & Hc). simpl. now rewrite Hc. Qed.

(** Stripping a written line gives the line back. *)
Lemma strip_line s :
  starts_solid (chars s) -> ends_solid (chars s) ->
  py.strip (ln s) = s.
Proof.
  intros Hs He. unfold py.strip, ln. fold (chars (s ++ String py.newline "")).
  rewrite chars_app. change (chars (String py.newline "")) with [py.newline].
  rewrite (lstrip_starts _ (starts_solid_app _ _ Hs)).
  unfold py.rstrip. rewrite rev_app_distr. cbn [rev app py.lstrip].
  change (py.is_space py.newline) with true. cbv iota.
  rewrite (lstrip_starts _ He), rev_involutive. apply string_of_chars.
Qed.

Lemma no_blank_no_newline s : no_blank s -> no_newline s.
Proof.
  unfold no_blank, no_newline. apply Forall_impl.
  apply not_blank_not_newline.
Qed.

Lemma no_newline_app s1 s2 :
  no_newline s1 -> no_newline s2 -> no_newline (s1 ++ s2).
Proof.
  unfold no_newline. rewrite chars_app. intros. now apply Forall_app.
Qed.

Lemma no_newline_join toks :
  Forall no_blank toks -> no_newline (py.join " " toks).
Proof.
  induction 1 as [|t toks Ht Htoks IH]; [constructor|].
  destruct toks as [|t' toks].
  - now apply no_blank_no_newline.
  - cbn [py.join]. apply no_newline_app; [now apply no_blank_no_newline|].
    apply no_newline_app; [repeat constructor|exact IH].
Qed.

Lemma lines_chars_line l : forall cur rest,
  Forall (fun c => Ascii.eqb c py.newline = false) l ->
  py.lines_chars cur (l ++ py.newline :: rest)
  = (rev cur ++ l ++ [py.newline])%list :: py.lines_chars [] rest.
Proof.
  induction l as [|c l IH]; intros cur rest Hl; cbn [app py.lines_chars].
  - now rewrite Ascii.eqb_refl.
  - inversion Hl as [|? ? Hc Hl']; subst. rewrite Hc, (IH _ _ Hl').
    cbn [rev]. now rewrite <- app_assoc.
Qed.

Lemma readlines_line s rest :
  no_newline s ->
  py.readlines (ln s ++ rest) = ln s :: py.readlines rest.
Proof.
  intros Hs. unfold py.readlines, ln. fold (chars ((s ++ String py.newline "") ++ rest)).
  rewrite !chars_app. change (chars (String py.newline "")) with [py.newline].
  rewrite <- app_assoc. cbn [app].
  rewrite (lines_chars_line _ [] _ Hs). cbn [map rev app].
  f_equal. apply chars_inj. rewrite chars_of_list, chars_app. reflexivity.
Qed.

Lemma append_empty_r s : (s ++ "")%string = s.
Proof. induction s as [|c s IH]; simpl; congruence. Qed.

Lemma concat_lines (lines : list string) :
  concat "" lines = fold_right String.append "" lines.
Proof.
  induction lines as [|x xs IH]; auto.
  cbn [fold_right]. rewrite <- IH. destruct xs; cbn [concat].
  - now rewrite append_empty_r.
  - reflexivity.
Qed.

Lemma readlines_lines (lines : list string) :
  Forall no_newline lines ->
  py.readlines (concat "" (map ln lines)) = map ln lines.
Proof.
  rewrite concat_lines.
  induction 1 as [|s lines Hs _ IH]; cbn [map fold_right]; [reflexivity|].
  now rewrite (readlines_line s _ Hs), IH.
Qed.

(** ** The text of [saveflag], line by line *)

Lemma append_assoc_s (a b c : string) : ((a ++ b) ++ c = a ++ (b ++ c))%string.
Proof. induction a as [|x a IH]; simpl; congruence. Qed.

Lemma file_of_app l1 l2 : file_of (l1 ++ l2) = file_of l1 ++ file_of l2.
Proof.
  unfold file_of. rewrite !concat_lines, map_app, fold_right_app.
  induction (map ln l1) as [|x xs IH]; cbn [fold_right]; auto.
  now rewrite IH, append_assoc_s.
Qed.

Lemma savetxt_file {A} (X : list A) (f : A -> string) h :
  np.savetxt X f h = file_of (h :: map f X).
Proof.
  unfold np.savetxt, file_of. rewrite !concat_lines. cbn [map fold_right].
  unfold ln at 1. rewrite append_assoc_s. do 2 f_equal.
  rewrite <- !concat_lines. now rewrite map_map.
Qed.

Lemma saveflag_file k M :
  saveflag k M =
  file_of ("dim 0" :: fmt_vertices (sp.diagonal M) :: "dim 1"
           :: map (edge_format M) (sp.find k M)).
Proof.
  unfold saveflag, edge_format.
  change ("dim 0" :: fmt_vertices (sp.diagonal M) :: "dim 1"
          :: map (if np.dtype_eqb (sp.dtype_of M) np.bool_
                  then fmt_edge_bool else fmt_edge) (sp.find k M))
    with (["dim 0"; fmt_vertices (sp.diagonal M)]
          ++ "dim 1" :: map (if np.dtype_eqb (sp.dtype_of M) np.bool_
                             then fmt_edge_bool else fmt_edge)
                            (sp.find k M))%list.
  rewrite file_of_app, <- !savetxt_file.
  now destruct (np.dtype_eqb (sp.dtype_of M) np.bool_).
Qed.

Lemma vertex_tokens_solid (row : list np.scalar) :
  Forall solid (map (fun v => py.fmt_e18 (np.to_float v)) row).
Proof.
  apply Forall_forall. intros t Ht. apply in_map_iff in Ht.
  destruct Ht as (v & <- & _). apply fmt_e18_solid.
Qed.

Lemma solid_no_blank toks : Forall solid toks -> Forall no_blank toks.
Proof. apply Forall_impl. now intros t [_ H]. Qed.

Lemma fmt_vertices_no_newline row : no_newline (fmt_vertices row).
Proof.
  unfold fmt_vertices. apply no_newline_join, solid_no_blank,
    vertex_tokens_solid.
Qed.

Lemma fmt_edge_join e :
  fmt_edge e = py.join " " [py.fmt_i (sp.row_of e); py.fmt_i (sp.col_of e);
                            py.fmt_e18 (np.to_float (sp.val_of e))].
Proof. reflexivity. Qed.

Lemma fmt_edge_bool_join e :
  fmt_edge_bool e = py.join " " [py.fmt_i (sp.row_of e);
                                 py.fmt_i (sp.col_of e)].
Proof. reflexivity. Qed.

Lemma edge_tokens_solid e :
  Forall solid [py.fmt_i (sp.row_of e); py.fmt_i (sp.col_of e);
                py.fmt_e18 (np.to_float (sp.val_of e))].
Proof.
  repeat constructor; try apply fmt_i_solid; apply fmt_e18_solid.
Qed.

Lemma edge_format_no_newline M e : no_newline (edge_format M e).
Proof.
  unfold edge_format.
  pose proof (edge_tokens_solid e) as H.
  destruct (np.dtype_eqb (sp.dtype_of M) np.bool_).
  - rewrite fmt_edge_bool_join. apply no_newline_join, solid_no_blank.
    inversion H as [|? ? H1 H']; subst. inversion H' as [|? ? H2 _]; subst.
    constructor; [exact H1|constructor; [exact H2|constructor]].
  - rewrite fmt_edge_join. now apply no_newline_join, solid_no_blank.
Qed.

(** The lines of the file [saveflag] writes. *)
Lemma saveflag_lines k M :
  py.readlines (saveflag k M) =
  ln "dim 0" :: ln (fmt_vertices (sp.diagonal M)) :: ln "dim 1"
  :: map (fun e => ln (edge_format M e)) (sp.find k M).
Proof.
  rewrite saveflag_file. unfold file_of. rewrite readlines_lines.
  - cbn [map]. now rewrite map_map.
  - constructor; [repeat constructor|].
    constructor; [apply fmt_vertices_no_newline|].
    constructor; [repeat constructor|].
    apply Forall_forall. intros t Ht. apply in_map_iff in Ht.
    destruct Ht as (e & <- & _). apply edge_format_no_newline.
Qed.

(** The tokens of a written line of solid tokens. *)
Lemma line_tokens toks :
  toks <> [] -> Forall solid toks ->
  py.split " " (py.strip (ln (py.join " " toks))) = toks.
Proof.
  intros Hne Hall. destruct (join_starts_ends toks Hne Hall) as [Hs He].
  rewrite (strip_line _ Hs He).
  apply split_join; auto. now apply solid_no_blank.
Qed.

Lemma find_nonzero k M :
  Forall (fun e => np.nonzero (sp.val_of e) = true) (sp.find k M).
Proof.
  apply Forall_forall. intros e He. unfold sp.find in He.
  destruct M; apply filter_In in He; tauto.
Qed.

(** ** Reading back what [saveflag] wrote *)

Lemma vertex_weights_written (row : list np.scalar) :
  row <> [] ->
  Forall float_reads_back (map np.to_float row) ->
  vertex_weights (ln (fmt_vertices row)) = py.Ok (map np.to_float row).
Proof.
  intros Hne Hback. unfold vertex_weights, fmt_vertices.
  rewrite line_tokens;
    [| destruct row; [congruence|discriminate] | apply vertex_tokens_solid].
  clear Hne. induction row as [|v row IH]; [reflexivity|].
  inversion Hback as [|? ? Hv Hrow]; subst.
  cbn [map py.map_result]. rewrite Hv. cbn [py.bind].
  rewrite (IH Hrow). reflexivity.
Qed.

Lemma edge_record_written e :
  entry_reads_back e -> edge_record (ln (fmt_edge e)) = py.Ok (record_of e).
Proof.
  intros (Hr & Hc & Hv). unfold edge_record.
  rewrite fmt_edge_join, line_tokens;
    [| discriminate | apply edge_tokens_solid].
  cbn [py.getitem nth_error py.bind].
  unfold float_reads_back in Hv. rewrite Hv. cbn [py.bind].
  unfold index_reads_back in Hr, Hc. rewrite Hr, Hc. reflexivity.
Qed.

Lemma edge_records_written (l : list np.entry) :
  Forall entry_reads_back l ->
  py.map_result edge_record (map (fun e => ln (fmt_edge e)) l)
  = py.Ok (map record_of l).
Proof.
  induction 1 as [|e l He _ IH]; [reflexivity|].
  cbn [map py.map_result]. rewrite (edge_record_written e He).
  cbn [py.bind]. now rewrite IH.
Qed.

(** Positions survive [sum_duplicates] and [find]: each position that
    comes out was stored. *)
Lemma merge_run_positions (P : Z * Z -> Prop) d l : forall cur acc,
  Forall (fun e => P (fst e)) (cur :: l) ->
  Forall (fun e => P (fst e)) (sp.merge_run d cur acc l).
Proof.
  induction l as [|e l IH]; intros cur acc H; cbn [sp.merge_run].
  - inversion H; subst. constructor; auto.
  - inversion H as [|? ? Hcur Hl]; subst. inversion Hl; subst.
    destruct (sp.same_pos cur e).
    + apply IH. constructor; auto.
    + constructor; auto.
Qed.

Lemma find_positions (P : Z * Z -> Prop) k m :
  Forall (fun e => P (fst e)) (sp.stored m) ->
  Forall (fun e => P (fst e)) (sp.find k (sp.Sparse m)).
Proof.
  intros H. unfold sp.find. apply Forall_forall. intros e He.
  apply filter_In in He. destruct He as [He _]. revert e He.
  apply Forall_forall. unfold sp.sum_duplicates, sp.sum_adjacent.
  assert (Hs : Forall (fun e => P (fst e))
                      (sp.sort (sp.pos_ltb k) (sp.stored m))).
  { apply Forall_forall. intros e He.
    rewrite Forall_forall in H. apply H.
    eapply Permutation_in; [apply Permutation_sym, sort_perm|exact He]. }
  destruct (sp.sort (sp.pos_ltb k) (sp.stored m)); [constructor|].
  now apply merge_run_positions.
Qed.

Lemma find_in_shape k m :
  stored_in_shape m ->
  Forall (record_in_range (sp.n m)) (map record_of (sp.find k (sp.Sparse m))).
Proof.
  intros H.
  pose proof (find_positions
                (fun p => in_range (sp.n m) (fst p)
                          /\ in_range (sp.n m) (snd p)) k m) as G.
  apply Forall_forall. intros rec Hrec. apply in_map_iff in Hrec.
  destruct Hrec as (e & <- & He).
  assert (Hall : Forall (fun e => in_range (sp.n m) (fst (fst e))
                                  /\ in_range (sp.n m) (snd (fst e)))
                        (sp.find k (sp.Sparse m))).
  { apply G. revert H. unfold stored_in_shape. apply Forall_impl.
    intros [[r c] v]. auto. }
  rewrite Forall_forall in Hall. specialize (Hall e He).
  destruct e as [[r c] v]. exact Hall.
Qed.

Lemma diagonal_length m :
  List.length (sp.diagonal (sp.Sparse m)) = sp.n m.
Proof. cbn [sp.diagonal]. now rewrite length_map, length_seq. Qed.

(** The matrix that comes back when a sparse matrix that is not boolean is
    saved and the file is loaded, provided the numbers written read back:
    the diagonal is assigned from the vertex line, then every triple of
    [find] is assigned. *)
Lemma loadflag_saveflag k m :
  np.dtype_eqb (sp.dtype m) np.bool_ = false ->
  (0 < sp.n m)%nat ->
  stored_in_shape m ->
  Forall float_reads_back (map np.to_float (sp.diagonal (sp.Sparse m))) ->
  Forall entry_reads_back (sp.find k (sp.Sparse m)) ->
  loadflag (saveflag k (sp.Sparse m)) sp.fmt_csr =
  py.Ok (sp.Sparse
           {| sp.fmt := sp.csr; sp.dtype := np.float64; sp.n := sp.n m;
              sp.stored :=
                assign_all
                  (diag_entries (map np.to_float (sp.diagonal (sp.Sparse m)))
                   ++ edge_entries (map record_of (sp.find k (sp.Sparse m))))
                  [] |}).
Proof.
  intros Hbool Hn Hshape Hdiag Hfind.
  pose proof (saveflag_lines k (sp.Sparse m)) as Hlines.
  assert (Hfmt : edge_format (sp.Sparse m) = fmt_edge).
  { unfold edge_format. cbn [sp.dtype_of]. now rewrite Hbool. }
  rewrite Hfmt in Hlines.
  assert (Hne : sp.diagonal (sp.Sparse m) <> []).
  { intros E. pose proof (diagonal_length m) as L. rewrite E in L.
    simpl in L. lia. }
  rewrite (loadflag_stored _ _ _ _
             (map np.to_float (sp.diagonal (sp.Sparse m)))
             (map record_of (sp.find k (sp.Sparse m))) Hlines).
  - now rewrite length_map, diagonal_length.
  - now apply vertex_weights_written.
  - cbn [tl]. now apply edge_records_written.
  - rewrite length_map, diagonal_length. now apply find_in_shape.
Qed.

Lemma find_nodup k m :
  NoDup (positions (sp.stored m)) ->
  sp.find k (sp.Sparse m)
  = filter (fun e => np.nonzero (sp.val_of e))
           (sp.sort (sp.pos_ltb k) (sp.stored m)).
Proof. intros H. unfold sp.find. now rewrite sum_duplicates_nodup. Qed.

(** With each position stored once, [find] lists the stored triples whose
    value is not zero, and only them. *)
Lemma find_nodup_In k m e :
  NoDup (positions (sp.stored m)) ->
  In e (sp.find k (sp.Sparse m))
  <-> In e (sp.stored m) /\ np.nonzero (sp.val_of e) = true.
Proof.
  intros H. rewrite (find_nodup k m H), filter_In.
  split; intros [Hin Hnz]; split; auto.
  - eapply Permutation_in; [apply Permutation_sym, sort_perm|exact Hin].
  - eapply Permutation_in; [apply sort_perm|exact Hin].
Qed.

Lemma nodup_same_position l e e' :
  NoDup (positions l) -> In e l -> In e' l -> fst e = fst e' -> e = e'.
Proof.
  unfold positions. induction l as [|x l IH]; [intros _ []|].
  cbn [map]. intros Hnd He He' Heq.
  inversion Hnd as [|? ? Hnotin Hnd']; subst.
  destruct He as [->|He], He' as [->|He']; auto.
  - exfalso. apply Hnotin. rewrite Heq. now apply in_map.
  - exfalso. apply Hnotin. rewrite <- Heq. now apply in_map.
Qed.

Lemma last_at_written k (l : list np.entry) e :
  StronglySorted (before k) l -> In e l ->
  last_at (sp.row_of e) (sp.col_of e) (edge_entries (map record_of l))
  = Some (np.F (np.to_float (sp.val_of e))).
Proof.
  induction 1 as [|x l Hl IH Hall]; [intros []|].
  intros Hin. cbn [map edge_entries last_at].
  fold (edge_entries (map record_of l)).
  destruct Hin as [->|Hin].
  - rewrite last_at_none.
    + unfold record_of. cbn [fst snd]. unfold sp.at_pos. cbn [sp.row_of sp.col_of fst snd].
      now rewrite !Z.eqb_refl.
    + unfold edge_entries. rewrite map_map. apply Forall_forall.
      intros t Ht. apply in_map_iff in Ht. destruct Ht as (y & <- & Hy).
      rewrite Forall_forall in Hall. specialize (Hall y Hy).
      apply pos_ltb_not_at in Hall. destruct y as [[ry cy] vy]. exact Hall.
  - now rewrite (IH Hin).
Qed.

Lemma last_at_unwritten r c (l : list np.entry) :
  (forall e, In e l -> fst e <> (r, c)) ->
  last_at r c (edge_entries (map record_of l)) = None.
Proof.
  intros H. apply last_at_none. unfold edge_entries. rewrite map_map.
  apply Forall_forall. intros t Ht. apply in_map_iff in Ht.
  destruct Ht as ([[ry cy] vy] & <- & Hy). specialize (H _ Hy).
  unfold record_of. cbn [fst snd sp.row_of sp.col_of] in *.
  unpos. zbool.
Qed.

Section RoundTrip.

Variable k : sp.lexsort_key.
Variable m : sp.spmatrix.
Hypothesis not_bool : np.dtype_eqb (sp.dtype m) np.bool_ = false.
Hypothesis not_empty : (0 < sp.n m)%nat.
Hypothesis in_shape : stored_in_shape m.
Hypothesis once : NoDup (positions (sp.stored m)).
Hypothesis diagonal_back :
  Forall float_reads_back (map np.to_float (sp.diagonal (sp.Sparse m))).
Hypothesis entries_back : Forall entry_reads_back (sp.find k (sp.Sparse m)).

(** Round trip, what is kept: for a sparse matrix that is not boolean, has
    at least one vertex, stores each position once and inside its shape, and
    whose written numbers read back, a stored triple whose value is not zero
    comes back from [loadflag (saveflag M)], stored once, with its value as a
    float. *)
Theorem round_trip_kept r c v :
  In (r, c, v) (sp.stored m) -> np.nonzero v = true ->
  exists m',
    loadflag (saveflag k (sp.Sparse m)) sp.fmt_csr = py.Ok (sp.Sparse m')
    /\ sp.stored_at r c (sp.stored m') = [np.F (np.to_float v)].
Proof.
  intros Hin Hnz. eexists. split.
  - apply loadflag_saveflag; assumption.
  - cbn [sp.stored]. rewrite stored_at_assign_all by constructor.
    rewrite last_at_app.
    assert (Hf : In (r, c, v) (sp.find k (sp.Sparse m)))
      by (apply find_nodup_In; auto).
    pose proof (last_at_written k _ (r, c, v) (find_sorted k m) Hf) as Hl.
    cbn [sp.row_of sp.col_of sp.val_of fst snd] in Hl. now rewrite Hl.
Qed.

(** Round trip, what is lost: under the same conditions a stored edge of
    weight zero does not come back; it is present before the round trip and
    absent after it. *)
Theorem round_trip_lost r c v :
  In (r, c, v) (sp.stored m) -> r <> c -> np.nonzero v = false ->
  exists m',
    loadflag (saveflag k (sp.Sparse m)) sp.fmt_csr = py.Ok (sp.Sparse m')
    /\ sp.present (sp.Sparse m) r c = true
    /\ sp.present (sp.Sparse m') r c = false.
Proof.
  intros Hin Hne Hz. eexists. split; [|split].
  - apply loadflag_saveflag; assumption.
  - cbn [sp.present]. apply existsb_exists. exists (r, c, v). split; auto.
    unpos. now rewrite !Z.eqb_refl.
  - cbn [sp.present sp.stored]. apply stored_at_nil_absent.
    rewrite stored_at_assign_all by constructor.
    rewrite last_at_app, last_at_unwritten, last_at_diag_off; auto.
    intros e He Hpos. apply find_nodup_In in He; auto.
    destruct He as [He Hnz].
    assert (e = (r, c, v))
      by (apply (nodup_same_position (sp.stored m)); auto).
    subst e. cbn [sp.val_of snd] in Hnz. congruence.
Qed.

End RoundTrip.

(** The file [saveflag] writes, for every matrix: the line [dim 0], the
    diagonal as one line, the line [dim 1], then one line per triple of
    [sp.find]; the diagonal line, when the matrix has a vertex, holds one
    [%.18e] token per vertex; every edge line comes from a value that is not
    zero and holds two tokens (row, column) for a boolean matrix and three
    (row, column, weight) otherwise. *)
Theorem saveflag_layout k M :
  py.readlines (saveflag k M)
  = ln "dim 0" :: ln (fmt_vertices (sp.diagonal M)) :: ln "dim 1"
    :: map (fun e => ln (edge_format M e)) (sp.find k M)
  /\ (sp.diagonal M <> [] ->
      py.split " " (py.strip (ln (fmt_vertices (sp.diagonal M))))
      = map (fun v => py.fmt_e18 (np.to_float v)) (sp.diagonal M))
  /\ Forall (fun e =>
               np.nonzero (sp.val_of e) = true
               /\ py.split " " (py.strip (ln (edge_format M e)))
                  = if np.dtype_eqb (sp.dtype_of M) np.bool_
                    then [py.fmt_i (sp.row_of e); py.fmt_i (sp.col_of e)]
                    else [py.fmt_i (sp.row_of e); py.fmt_i (sp.col_of e);
                          py.fmt_e18 (np.to_float (sp.val_of e))])
            (sp.find k M).
Proof.
  split; [apply saveflag_lines|]. split.
  - intros Hne. unfold fmt_vertices. apply line_tokens.
    + destruct (sp.diagonal M); [congruence|discriminate].
    + apply vertex_tokens_solid.
  - pose proof (find_nonzero k M) as Hnz.
    apply Forall_forall. intros e He. rewrite Forall_forall in Hnz.
    split; [now apply Hnz|].
    unfold edge_format. pose proof (edge_tokens_solid e) as Hs.
    destruct (np.dtype_eqb (sp.dtype_of M) np.bool_).
    + rewrite fmt_edge_bool_join. apply line_tokens; [discriminate|].
      inversion Hs as [|? ? H1 H']; subst. inversion H' as [|? ? H2 _]; subst.
      constructor; [exact H1|constructor; [exact H2|constructor]].
    + rewrite fmt_edge_join. now apply line_tokens.
Qed.

(** The diagonal line of the matrix with a zero edge. *)
Lemma saveflag_layout_witness :
  py.split " " (py.strip (ln (fmt_vertices
                                (sp.diagonal (sp.Sparse zero_edge_matrix)))))
  = map (fun v => py.fmt_e18 (np.to_float v))
        (sp.diagonal (sp.Sparse zero_edge_matrix)).
Proof.
  apply (proj1 (proj2 (saveflag_layout sp.ColRow (sp.Sparse zero_edge_matrix)))).
  discriminate.
Defined.

(** The edge (0, 2) of the COO matrix comes back. *)
Lemma round_trip_kept_witness :
  exists m',
    loadflag (saveflag sp.ColRow (sp.Sparse coo_matrix)) sp.fmt_csr
    = py.Ok (sp.Sparse m')
    /\ sp.stored_at 0 2 (sp.stored m') = [np.F (float_of 1)].
Proof.
  refine (round_trip_kept sp.ColRow coo_matrix _ _ _ _ _ _
            0 2 (np.F (float_of 1)) _ _).
  - reflexivity.
  - simpl. lia.
  - unfold stored_in_shape. cbn [coo_matrix sp.stored].
    repeat (first [apply Forall_nil | apply Forall_cons]);
      unfold in_range; cbn; lia.
  - unfold positions. cbn [map coo_matrix sp.stored fst].
    repeat constructor; simpl; intuition discriminate.
  - cbn [sp.diagonal sp.n coo_matrix zero_edge_matrix seq map].
    repeat (first [apply Forall_nil | apply Forall_cons]);
      vm_compute; reflexivity.
  - assert (E : sp.find sp.ColRow (sp.Sparse coo_matrix)
                = [(1, 0, np.F (float_of 3)); (0, 1, np.F (float_of 2));
                   (0, 2, np.F (float_of 1))])
      by (vm_compute; reflexivity).
    rewrite E.
    repeat (first [apply Forall_nil | apply Forall_cons]);
      (split; [|split]); vm_compute; reflexivity.
  - simpl. auto.
  - reflexivity.
Defined.

(** The zero edge (0, 1) does not come back. *)
Lemma round_trip_lost_witness :
  exists m',
    loadflag (saveflag sp.ColRow (sp.Sparse zero_edge_matrix)) sp.fmt_csr
    = py.Ok (sp.Sparse m')
    /\ sp.present (sp.Sparse zero_edge_matrix) 0 1 = true
    /\ sp.present (sp.Sparse m') 0 1 = false.
Proof.
  refine (round_trip_lost sp.ColRow zero_edge_matrix _ _ _ _ _ _
            0 1 (np.F (float_of 0)) _ _ _).
  - reflexivity.
  - simpl. lia.
  - unfold stored_in_shape. cbn [zero_edge_matrix sp.stored].
    repeat (first [apply Forall_nil | apply Forall_cons]);
      unfold in_range; cbn; lia.
  - unfold positions. cbn [map zero_edge_matrix sp.stored fst].
    repeat constructor; simpl; intuition discriminate.
  - cbn [sp.diagonal sp.n coo_matrix zero_edge_matrix seq map].
    repeat (first [apply Forall_nil | apply Forall_cons]);
      vm_compute; reflexivity.
  - assert (E : sp.find sp.ColRow (sp.Sparse zero_edge_matrix)
                = [(0, 0, np.F (float_of 1)); (1, 1, np.F (float_of 2))])
      by (vm_compute; reflexivity).
    rewrite E.
    repeat (first [apply Forall_nil | apply Forall_cons]);
      (split; [|split]); vm_compute; reflexivity.
  - simpl. auto.
  - discriminate.
  - reflexivity.
Defined.

(** ** Every file [loadflag] accepts *)

Lemma validate_index_accepted what size i :
  index_accepted size i ->
  sp.validate_index what size i = py.Ok (wrap_index size i).
Proof.
  unfold index_accepted, sp.validate_index, wrap_index. intros H.
  destruct (Z.ltb_spec i (- Z.of_nat size)); [lia|].
  destruct (Z.leb_spec (Z.of_nat size) i); [lia|]. reflexivity.
Qed.

Lemma validate_index_ok what size i j :
  sp.validate_index what size i = py.Ok j ->
  index_accepted size i /\ j = wrap_index size i.
Proof.
  unfold index_accepted, sp.validate_index, wrap_index.
  destruct (Z.ltb_spec i (- Z.of_nat size)); [discriminate|].
  destruct (Z.leb_spec (Z.of_nat size) i); [discriminate|].
  cbn [orb]. intros Hj. injection Hj as <-. split; [lia|reflexivity].
Qed.

Lemma wrap_index_in_range size i :
  index_accepted size i -> in_range size (wrap_index size i).
Proof.
  unfold index_accepted, in_range, wrap_index.
  destruct (Z.ltb_spec i 0); lia.
Qed.

Lemma wrap_index_id size i : in_range size i -> wrap_index size i = i.
Proof.
  unfold in_range, wrap_index. destruct (Z.ltb_spec i 0); lia.
Qed.

Lemma for_each_load_edge_accepted ls : forall edges m,
  py.map_result edge_record ls = py.Ok edges ->
  Forall (record_accepted (sp.n m)) edges ->
  py.for_each load_edge ls m =
  py.Ok {| sp.fmt := sp.fmt m; sp.dtype := sp.dtype m; sp.n := sp.n m;
           sp.stored := assign_all (wrapped_entries (sp.n m) edges)
                                   (sp.stored m) |}.
Proof.
  induction ls as [|line ls IH]; intros edges m Hmap Hacc.
  - injection Hmap as <-. destruct m; reflexivity.
  - apply map_result_cons_ok in Hmap.
    destruct Hmap as (e & es & He & Hes & ->).
    inversion Hacc as [|? ? [Hr Hc] Hrest]; subst.
    cbn [py.for_each]. unfold load_edge at 1. rewrite He. cbn [py.bind].
    unfold sp.setitem.
    rewrite (validate_index_accepted _ _ _ Hr),
            (validate_index_accepted _ _ _ Hc).
    cbn [py.bind]. rewrite (IH es); auto.
Qed.

(** A loop that ends without an exception has read records it accepts. *)
Lemma for_each_load_edge_inv ls : forall m m',
  py.for_each load_edge ls m = py.Ok m' ->
  exists edges,
    py.map_result edge_record ls = py.Ok edges
    /\ Forall (record_accepted (sp.n m)) edges.
Proof.
  induction ls as [|line ls IH]; intros m m' H.
  - exists []. split; [reflexivity|constructor].
  - cbn [py.for_each] in H.
    destruct (load_edge m line) as [m1|e] eqn:Hl; [|discriminate].
    cbn [py.bind] in H.
    pose proof (load_edge_size _ _ _ Hl) as Hn.
    unfold load_edge in Hl.
    destruct (edge_record line) as [[[r c] w]|] eqn:He; [|discriminate].
    cbn [py.bind fst snd] in Hl. unfold sp.setitem in Hl.
    destruct (sp.validate_index "row" (sp.n m) r) as [r'|] eqn:Hr;
      [|discriminate].
    cbn [py.bind] in Hl.
    destruct (sp.validate_index "column" (sp.n m) c) as [c'|] eqn:Hc;
      [|discriminate].
    apply validate_index_ok in Hr. apply validate_index_ok in Hc.
    destruct (IH m1 m' H) as (es & Hes & Hall).
    exists ((r, c, w) :: es). split.
    + cbn [py.map_result]. rewrite He. cbn [py.bind]. now rewrite Hes.
    + constructor.
      * split; [apply Hr|apply Hc].
      * now rewrite <- Hn.
Qed.

(** The matrix built from a file whose lines parse and whose indices the
    assignment accepts. *)
Lemma loadflag_stored_accepted f l1 l2 rest weights edges :
  py.readlines f = l1 :: l2 :: rest ->
  vertex_weights l2 = py.Ok weights ->
  py.map_result edge_record (tl rest) = py.Ok edges ->
  Forall (record_accepted (List.length weights)) edges ->
  loadflag f sp.fmt_csr =
  py.Ok (sp.Sparse
           {| sp.fmt := sp.csr; sp.dtype := np.float64;
              sp.n := List.length weights;
              sp.stored :=
                assign_all (diag_entries weights
                            ++ wrapped_entries (List.length weights) edges)
                           [] |}).
Proof.
  intros Hlines Hv He Hr. unfold loadflag. rewrite Hlines.
  cbn [py.readline]. rewrite Hv. cbn [py.bind].
  rewrite (for_each_load_edge_accepted (tl rest) edges); auto.
  cbn [py.bind sp.asformat sp.fmt sp.dtype sp.n sp.setdiag sp.csr_matrix].
  rewrite assign_all_app.
  do 3 f_equal. f_equal. apply setdiag_stored.
Qed.

(** What a call of [loadflag] that returns has read. *)
Lemma loadflag_ok_inv f fmt M :
  loadflag f fmt = py.Ok M ->
  exists l1 l2 rest weights edges,
    py.readlines f = l1 :: l2 :: rest
    /\ vertex_weights l2 = py.Ok weights
    /\ py.map_result edge_record (tl rest) = py.Ok edges
    /\ Forall (record_accepted (List.length weights)) edges
    /\ M = sp.asformat
             {| sp.fmt := sp.csr; sp.dtype := np.float64;
                sp.n := List.length weights;
                sp.stored :=
                  assign_all (diag_entries weights
                              ++ wrapped_entries (List.length weights) edges)
                             [] |} fmt.
Proof.
  unfold loadflag. destruct (py.readlines f) as [|l1 lines] eqn:Hlines;
    [discriminate|].
  destruct lines as [|l2 rest].
  - cbn [py.readline]. destruct (vertex_weights "") eqn:E; discriminate.
  - cbn [py.readline].
    destruct (vertex_weights l2) as [weights|] eqn:Hv; [|discriminate].
    cbn [py.bind].
    destruct (py.for_each load_edge (tl rest) _) as [m'|] eqn:Hloop;
      [|discriminate].
    cbn [py.bind]. intros H. injection H as <-.
    destruct (for_each_load_edge_inv _ _ _ Hloop) as (edges & He & Hacc).
    cbn [sp.n sp.setdiag sp.csr_matrix] in Hacc.
    exists l1, l2, rest, weights, edges. repeat split; auto.
    rewrite (for_each_load_edge_accepted _ edges _ He) in Hloop
      by exact Hacc.
    injection Hloop as <-.
    cbn [sp.fmt sp.dtype sp.n sp.setdiag sp.csr_matrix sp.stored].
    do 2 f_equal. rewrite assign_all_app. f_equal.
    exact (setdiag_stored weights np.float64).
Qed.

Lemma split_chars_not_nil sep l : py.split_chars sep l <> [].
Proof.
  destruct l as [|c l]; simpl; [discriminate|].
  destruct (Ascii.eqb c sep); [discriminate|].
  destruct (py.split_chars sep l); discriminate.
Qed.

(** A vertex line never gives an empty list of weights. *)
Lemma vertex_weights_not_nil line weights :
  vertex_weights line = py.Ok weights -> (0 < List.length weights)%nat.
Proof.
  unfold vertex_weights, py.split. intros H.
  apply map_result_length in H. rewrite H, length_map.
  pose proof (split_chars_not_nil " " (list_ascii_of_string (py.strip line))).
  destruct (py.split_chars _ _); [congruence|simpl; lia].
Qed.

Lemma canonical_nodup l : canonical l -> NoDup (positions l).
Proof.
  unfold positions. induction 1 as [|x l Hl IH Hall]; cbn [map];
    constructor; auto.
  intros Hin. apply in_map_iff in Hin. destruct Hin as (y & Hy & Hin).
  rewrite Forall_forall in Hall. specialize (Hall y Hin).
  apply pos_ltb_not_at in Hall.
  destruct x as [[rx cx] vx], y as [[ry cy] vy]. cbn [fst] in Hy.
  injection Hy as -> ->. unpos. rewrite !Z.eqb_refl in Hall. discriminate.
Qed.

Lemma assign_all_In ts : forall l e,
  In e (assign_all ts l) -> In e ts \/ In e l.
Proof.
  induction ts as [|t ts IH]; intros l e H; [now right|].
  cbn [assign_all fold_left] in H.
  apply IH in H. destruct H as [H|H]; [left; now right|].
  apply set_entry_In in H. destruct H as [->|H]; [|now right].
  left. left. destruct t as [[r c] v]. reflexivity.
Qed.

Lemma enumerate_from_range {A} (l : list A) : forall k i a,
  In (i, a) (sp.enumerate_from k l) ->
  k <= i < k + Z.of_nat (List.length l).
Proof.
  induction l as [|x l IH]; intros k i a H; [destruct H|].
  cbn [sp.enumerate_from In List.length] in H |- *.
  destruct H as [H|H].
  - injection H as <- <-. lia.
  - apply IH in H. lia.
Qed.

Lemma diag_entries_in_range weights e :
  In e (diag_entries weights) ->
  in_range (List.length weights) (sp.row_of e)
  /\ in_range (List.length weights) (sp.col_of e).
Proof.
  unfold diag_entries, sp.enumerate. intros H. apply in_map_iff in H.
  destruct H as ([i w] & <- & Hin). apply enumerate_from_range in Hin.
  unfold in_range. cbn [sp.row_of sp.col_of fst snd]. lia.
Qed.

Lemma wrapped_entries_in_range size edges e :
  Forall (record_accepted size) edges ->
  In e (wrapped_entries size edges) ->
  in_range size (sp.row_of e) /\ in_range size (sp.col_of e).
Proof.
  unfold wrapped_entries. intros Hacc H. apply in_map_iff in H.
  destruct H as (rec & <- & Hin). rewrite Forall_forall in Hacc.
  destruct (Hacc rec Hin) as [Hr Hc].
  cbn [sp.row_of sp.col_of fst snd].
  split; now apply wrap_index_in_range.
Qed.

(** Whatever the file, a matrix that [loadflag] returns (in CSR form) has
    at least one vertex, holds floats, stores every diagonal position, zero
    weights included, stores each position once, row by row in increasing
    order, and stores nothing outside its shape. *)
Theorem loadflag_invariant f M :
  loadflag f sp.fmt_csr = py.Ok M ->
  exists m,
    M = sp.Sparse m
    /\ sp.fmt m = sp.csr
    /\ sp.dtype m = np.float64
    /\ (0 < sp.n m)%nat
    /\ canonical (sp.stored m)
    /\ NoDup (positions (sp.stored m))
    /\ stored_in_shape m
    /\ (forall i, in_range (sp.n m) i ->
          exists v, sp.stored_at i i (sp.stored m) = [v]).
Proof.
  intros H. apply loadflag_ok_inv in H.
  destruct H as (l1 & l2 & rest & weights & edges & _ & Hv & _ & Hacc & ->).
  cbn [sp.asformat]. eexists. split; [reflexivity|].
  cbn [sp.fmt sp.dtype sp.n sp.stored].
  assert (Hc : canonical
                 (assign_all (diag_entries weights
                              ++ wrapped_entries (List.length weights) edges)
                             []))
    by (apply assign_all_canonical; constructor).
  split; [reflexivity|]. split; [reflexivity|].
  split; [exact (vertex_weights_not_nil _ _ Hv)|].
  split; [exact Hc|]. split; [now apply canonical_nodup|]. split.
  - unfold stored_in_shape. cbn [sp.n sp.stored].
    apply Forall_forall. intros e He. apply assign_all_In in He.
    destruct He as [He|[]]. apply in_app_or in He. destruct He as [He|He].
    + now apply diag_entries_in_range.
    + now apply (wrapped_entries_in_range _ edges).
  - intros i Hi. rewrite stored_at_assign_all by constructor.
    rewrite last_at_app.
    destruct (last_at i i (wrapped_entries _ edges)) as [v|]; [now exists v|].
    destruct (nth_error weights (Z.to_nat i)) as [w|] eqn:Hw.
    + exists (np.F w). pose proof (last_at_diag _ _ _ Hw) as Hd.
      unfold in_range in Hi. rewrite Z2Nat.id in Hd by lia. now rewrite Hd.
    + exfalso. apply nth_error_None in Hw. unfold in_range in Hi. lia.
Qed.

(** The example file and the matrix it loads as. *)
Lemma loadflag_invariant_witness :
  exists m,
    sp.Sparse
      {| sp.fmt := sp.csr; sp.dtype := np.float64; sp.n := 3;
         sp.stored := [(0, 0, np.F (float_of 1)); (0, 1, np.F (float_of 5));
                       (1, 1, np.F (float_of 2)); (2, 0, np.F (float_of 0));
                       (2, 2, np.F (float_of 3))] |} = sp.Sparse m
    /\ sp.fmt m = sp.csr
    /\ sp.dtype m = np.float64
    /\ (0 < sp.n m)%nat
    /\ canonical (sp.stored m)
    /\ NoDup (positions (sp.stored m))
    /\ stored_in_shape m
    /\ (forall i, in_range (sp.n m) i ->
          exists v, sp.stored_at i i (sp.stored m) = [v]).
Proof.
  apply (loadflag_invariant example_flag). vm_compute. reflexivity.
Defined.

(** An index in [[-n, n)] names the position [index + n] when it is
    negative: on a file that parses, with every index in [[-n, n)], the
    position a record names holds the weight of the last record that names
    it. *)
Theorem loadflag_index_from_end f l1 l2 rest weights edges pre r c w post :
  py.readlines f = l1 :: l2 :: rest ->
  vertex_weights l2 = py.Ok weights ->
  py.map_result edge_record (tl rest) = py.Ok edges ->
  Forall (record_accepted (List.length weights)) edges ->
  edges = (pre ++ (r, c, w) :: post)%list ->
  Forall (fun e =>
            (wrap_index (List.length weights) (fst (fst e)),
             wrap_index (List.length weights) (snd (fst e)))
            <> (wrap_index (List.length weights) r,
                wrap_index (List.length weights) c)) post ->
  exists m,
    loadflag f sp.fmt_csr = py.Ok (sp.Sparse m)
    /\ sp.stored_at (wrap_index (List.length weights) r)
                    (wrap_index (List.length weights) c) (sp.stored m)
       = [np.F w].
Proof.
  intros Hlines Hv He Hacc -> Hpost.
  eexists. split; [exact (loadflag_stored_accepted f l1 l2 rest weights _
                            Hlines Hv He Hacc)|].
  cbn [sp.stored]. rewrite stored_at_assign_all by constructor.
  rewrite last_at_app. unfold wrapped_entries. rewrite map_app. cbn [map fst snd].
  rewrite last_at_last; [reflexivity|].
  apply Forall_forall. intros t Ht. apply in_map_iff in Ht.
  destruct Ht as (e & <- & Hin). rewrite Forall_forall in Hpost.
  specialize (Hpost e Hin). unpos. zbool.
Qed.

(** Two vertices and the record [-1 0 5.0]: it lands at (1, 0). *)
Lemma loadflag_index_from_end_witness :
  exists m,
    loadflag negative_index_flag sp.fmt_csr = py.Ok (sp.Sparse m)
    /\ sp.stored_at (wrap_index 2 (-1)) (wrap_index 2 0) (sp.stored m)
       = [np.F (float_of 5)].
Proof.
  apply (loadflag_index_from_end negative_index_flag
           (ln "dim 0") (ln "1.0 2.0") [ln "dim 1"; ln "-1 0 5.0"]
           [float_of 1; float_of 2] [(-1, 0, float_of 5)]
           [] (-1) 0 (float_of 5) []).
  - vm_compute. reflexivity.
  - vm_compute. reflexivity.
  - vm_compute. reflexivity.
  - repeat (first [apply Forall_nil | apply Forall_cons]).
    unfold record_accepted, index_accepted. cbn. lia.
  - reflexivity.
  - constructor.
Defined.

(** ** Short files and header lines *)

Lemma pos_ltb_not_at_sym k a b :
  sp.pos_ltb k a b = true -> sp.at_pos (sp.row_of b) (sp.col_of b) a = false.
Proof.
  destruct a as [[ra ca] va], b as [[rb cb] vb].
  destruct k; unpos; intros; zbool.
Qed.

Lemma set_entry_last t l :
  canonical (l ++ [t]) ->
  sp.set_entry (sp.row_of t) (sp.col_of t) (sp.val_of t) l = (l ++ [t])%list.
Proof.
  induction l as [|x l IH]; intros Hs.
  - destruct t as [[r c] v]. reflexivity.
  - cbn [sp.set_entry app]. cbn [app] in Hs.
    inversion Hs as [|? ? Hs' Hall]; subst.
    assert (Hxt : sp.pos_ltb sp.RowCol x t = true).
    { rewrite Forall_forall in Hall. apply Hall.
      apply in_or_app. right. now left. }
    rewrite (pos_ltb_not_at_sym _ x t Hxt).
    replace (sp.pos_ltb sp.RowCol (sp.row_of t, sp.col_of t, sp.val_of t) x)
      with (sp.pos_ltb sp.RowCol t x)
      by (destruct t as [[r c] v]; reflexivity).
    rewrite (pos_ltb_asym _ _ _ Hxt). f_equal. now apply IH.
Qed.

(** Assignments that come in increasing order of position are stored in
    that order. *)
Lemma assign_all_sorted ts : forall l,
  canonical (l ++ ts) -> assign_all ts l = (l ++ ts)%list.
Proof.
  induction ts as [|t ts IH]; intros l Hs; [now rewrite app_nil_r|].
  cbn [assign_all fold_left].
  fold (assign_all ts (sp.set_entry (sp.row_of t) (sp.col_of t)
                                    (sp.val_of t) l)).
  assert (Hs' : canonical ((l ++ [t]) ++ ts)) by now rewrite <- app_assoc.
  rewrite set_entry_last.
  - rewrite IH by exact Hs'. now rewrite <- app_assoc.
  - clear - Hs'. unfold canonical in *.
    induction (l ++ [t])%list as [|x xs IHx]; [constructor|].
    cbn [app] in Hs'. inversion Hs' as [|? ? H1 H2]; subst.
    constructor; [now apply IHx|].
    rewrite Forall_forall in H2 |- *. intros y Hy. apply H2.
    apply in_or_app. now left.
Qed.

Lemma diag_entries_canonical weights : canonical (diag_entries weights).
Proof.
  unfold diag_entries, sp.enumerate. generalize 0 as k.
  induction weights as [|w ws IH]; intros k; cbn [sp.enumerate_from map].
  - constructor.
  - constructor; [apply IH|].
    apply Forall_forall. intros t Ht. apply in_map_iff in Ht.
    destruct Ht as ([i x] & <- & Hin). apply enumerate_from_range in Hin.
    cbn [fst snd]. unpos. zbool.
Qed.

(** What [setdiag] stores in an empty matrix: the weights, in order. *)
Lemma setdiag_diag_entries weights :
  assign_all (diag_entries weights) [] = diag_entries weights.
Proof. apply (assign_all_sorted _ []), diag_entries_canonical. Qed.

(** [loadflag] on a file that ends early: without a line it raises
    [StopIteration]; with one line it raises the [ValueError] of [float('')];
    a file that stops after the vertex line, or after one more line, loads as
    the matrix of its vertex weights, with no edge. *)
Theorem loadflag_short_file f fmt :
  (py.readlines f = [] -> loadflag f fmt = py.Raise py.StopIteration)
  /\ (forall l1, py.readlines f = [l1] ->
        exists args, loadflag f fmt = py.Raise (py.ValueError args))
  /\ (forall l1 l2 rest weights,
        py.readlines f = l1 :: l2 :: rest ->
        (List.length rest <= 1)%nat ->
        vertex_weights l2 = py.Ok weights ->
        loadflag f fmt
        = py.Ok (sp.asformat
                   {| sp.fmt := sp.csr; sp.dtype := np.float64;
                      sp.n := List.length weights;
                      sp.stored := diag_entries weights |} fmt)).
Proof.
  split; [|split].
  - intros H. unfold loadflag. now rewrite H.
  - intros l1 H. unfold loadflag. rewrite H. eexists. reflexivity.
  - intros l1 l2 rest weights Hlines Hlen Hv.
    unfold loadflag. rewrite Hlines. cbn [py.readline]. rewrite Hv.
    cbn [py.bind].
    assert (Htl : tl rest = []).
    { destruct rest as [|x [|y rest]]; try reflexivity. simpl in Hlen. lia. }
    rewrite Htl. cbn [py.for_each py.bind]. do 2 f_equal.
    pose proof (setdiag_stored weights np.float64) as Hd.
    rewrite setdiag_diag_entries in Hd.
    unfold sp.setdiag, sp.csr_matrix in *.
    cbn [sp.fmt sp.dtype sp.n sp.stored] in *. now rewrite Hd.
Qed.

(** No line, one line, and the vertex line alone. *)
Lemma loadflag_short_file_witness :
  loadflag "" sp.fmt_csr = py.Raise py.StopIteration
  /\ (exists args,
        loadflag (file_of ["dim 0"]) sp.fmt_csr
        = py.Raise (py.ValueError args))
  /\ loadflag vertices_only_flag sp.fmt_csr
     = py.Ok (sp.asformat
                {| sp.fmt := sp.csr; sp.dtype := np.float64;
                   sp.n := List.length [float_of 1; float_of 2; float_of 3];
                   sp.stored := diag_entries
                                  [float_of 1; float_of 2; float_of 3] |}
                sp.fmt_csr).
Proof.
  split; [|split].
  - apply (proj1 (loadflag_short_file "" sp.fmt_csr)). reflexivity.
  - apply (proj1 (proj2 (loadflag_short_file (file_of ["dim 0"]) sp.fmt_csr))
             (ln "dim 0")).
    vm_compute. reflexivity.
  - apply (proj2 (proj2 (loadflag_short_file vertices_only_flag sp.fmt_csr))
             (ln "dim 0") (ln "1.0 2.0 3.0") []).
    + vm_compute. reflexivity.
    + simpl. lia.
    + vm_compute. reflexivity.
Defined.

(** [loadflag] does not read what its first and third lines say: two files
    that differ in those lines only load alike. *)
Theorem loadflag_ignores_headers f f' fmt l1 l1' l2 l3 l3' ls :
  py.readlines f = l1 :: l2 :: l3 :: ls ->
  py.readlines f' = l1' :: l2 :: l3' :: ls ->
  loadflag f fmt = loadflag f' fmt.
Proof. intros H H'. unfold loadflag. now rewrite H, H'. Qed.

(** The example file and the same records under other first and third
    lines, an edge-like third line included. *)
Lemma loadflag_ignores_headers_witness :
  loadflag example_flag sp.fmt_csr = loadflag other_headers_flag sp.fmt_csr.
Proof.
  apply (loadflag_ignores_headers example_flag other_headers_flag sp.fmt_csr
           (ln "dim 0") (ln "# vertices") (ln "1.0 2.0 3.0")
           (ln "dim 1") (ln "0 2 9.0") [ln "0 1 5.0"; ln "2 0 0"]).
  - vm_compute. reflexivity.
  - vm_compute. reflexivity.
Defined.

(** ** The formats of the result *)

(** The format is applied last: whatever [loadflag] returns under one
    format is the CSR matrix under that format. *)
Lemma loadflag_asformat f m fmt :
  loadflag f sp.fmt_csr = py.Ok (sp.Sparse m) ->
  loadflag f fmt = py.Ok (sp.asformat m fmt).
Proof.
  unfold loadflag. destruct (py.readlines f) as [|l1 ls]; [discriminate|].
  destruct (py.readline ls) as [line ls'].
  destruct (vertex_weights line) as [ws|e]; [|discriminate].
  cbn [py.bind]. destruct (py.for_each _ _ _) as [m0|e]; [|discriminate].
  cbn [py.bind sp.asformat]. intros H. injection H as ->. reflexivity.
Qed.

(** What [loadflag] returns as CSR is a [float64] matrix stored row by
    row, each position once. *)
Lemma loadflag_ok_canonical f m :
  loadflag f sp.fmt_csr = py.Ok (sp.Sparse m) ->
  sp.dtype m = np.float64 /\ canonical (sp.stored m).
Proof.
  intros H. apply loadflag_ok_inv in H.
  destruct H as (l1 & l2 & rest & weights & edges & _ & _ & _ & _ & H).
  cbn [sp.asformat] in H. injection H as ->.
  cbn [sp.dtype sp.stored]. split; [reflexivity|].
  apply assign_all_canonical. constructor.
Qed.

Lemma insert_any_In ltb e l x :
  In x (sp.insert ltb e l) -> x = e \/ In x l.
Proof.
  induction l as [|y l IH]; cbn [sp.insert].
  - intros [<-|[]]. now left.
  - destruct (ltb y e).
    + intros [<-|H]; [right; now left|].
      destruct (IH H) as [->|H']; [now left|right; now right].
    + intros [<-|H]; [now left|now right].
Qed.

Lemma insert_any_perm ltb e l : Permutation (e :: l) (sp.insert ltb e l).
Proof.
  induction l as [|y l IH]; cbn [sp.insert]; [reflexivity|].
  destruct (ltb y e); [|reflexivity].
  rewrite perm_swap. now apply perm_skip.
Qed.

Lemma sort_any_perm ltb l : Permutation l (sp.sort ltb l).
Proof.
  induction l as [|e l IH]; cbn [sp.sort]; [constructor|].
  rewrite <- insert_any_perm. now apply perm_skip.
Qed.

(** Stable insertion by column into a list that is in column order, of a
    triple that comes first in its own column. *)
Lemma insert_by_column e l :
  StronglySorted (before sp.ColRow) l ->
  Forall (fun x => sp.col_of x = sp.col_of e -> sp.row_of e < sp.row_of x) l ->
  StronglySorted (before sp.ColRow)
    (sp.insert (fun a b => sp.col_of a <? sp.col_of b) e l).
Proof.
  induction l as [|x l IH]; intros Hs Hf; cbn [sp.insert].
  - constructor; constructor.
  - inversion Hs as [|? ? Hs' Hx]; subst.
    inversion Hf as [|? ? Hxe Hf']; subst.
    rewrite Forall_forall in Hx, Hf'.
    destruct (sp.col_of x <? sp.col_of e) eqn:Hc.
    + constructor; [now apply IH; [|apply Forall_forall]|].
      apply Forall_forall. intros y Hy. apply insert_any_In in Hy.
      destruct Hy as [->|Hy]; [|now apply Hx].
      unfold before. destruct x as [[rx cx] vx], e as [[re ce] ve].
      unpos. zbool.
    + constructor; [now constructor; [|apply Forall_forall]|].
      apply Forall_forall. intros y Hy.
      assert (Hy' : sp.col_of y = sp.col_of e -> sp.row_of e < sp.row_of y).
      { destruct Hy as [<-|Hy]; [exact Hxe|now apply Hf']. }
      assert (Hxy : sp.col_of x <= sp.col_of y).
      { destruct Hy as [<-|Hy]; [lia|]. specialize (Hx y Hy).
        unfold before in Hx. destruct x as [[rx cx] vx], y as [[ry cy] vy].
        unpos. zbool. }
      clear - Hy' Hxy Hc. unfold before.
      destruct x as [[rx cx] vx], y as [[ry cy] vy], e as [[re ce] ve].
      unpos. zbool.
Qed.

(** Row-by-row storage sorted stably by column is column-by-column
    storage. *)
Lemma sort_by_column l :
  canonical l ->
  StronglySorted (before sp.ColRow)
    (sp.sort (fun a b => sp.col_of a <? sp.col_of b) l).
Proof.
  induction 1 as [|e l Hl IH Hall]; cbn [sp.sort]; [constructor|].
  apply insert_by_column; [exact IH|].
  apply Forall_forall. intros x Hx.
  apply (Permutation_in _ (Permutation_sym (sort_any_perm _ l))) in Hx.
  rewrite Forall_forall in Hall. specialize (Hall x Hx).
  destruct x as [[rx cx] vx], e as [[re ce] ve]. unpos. zbool.
Qed.

Lemma nth_error_seq_map {A} (g : nat -> A) size i :
  (i < size)%nat -> nth_error (map g (seq 0 size)) i = Some (g i).
Proof.
  intros Hi. rewrite nth_error_map.
  rewrite (nth_error_nth' _ 0%nat) by (now rewrite length_seq).
  now rewrite seq_nth.
Qed.

Lemma todense_cell m r c :
  in_range (sp.n m) r -> in_range (sp.n m) c ->
  cell (sp.todense m) r c = Some (sp.dense_cell m r c).
Proof.
  unfold in_range, cell, sp.todense. intros Hr Hc.
  rewrite nth_error_seq_map by lia. rewrite nth_error_seq_map by lia.
  now rewrite !Z2Nat.id by lia.
Qed.

(** The same file under the four formats.  COO lists the triples of the
    CSR result; CSC lists them column by column, and every position holds
    what it holds in CSR; the dense array has a cell for every pair of
    vertices, [0.0] where nothing is stored and [0.0 + w] where [w] is, so
    that an edge of weight zero and an absent edge are the same cell. *)
Theorem loadflag_formats f m :
  loadflag f sp.fmt_csr = py.Ok (sp.Sparse m) ->
  loadflag f sp.fmt_coo
  = py.Ok (sp.Sparse {| sp.fmt := sp.coo; sp.dtype := np.float64;
                        sp.n := sp.n m; sp.stored := sp.stored m |})
  /\ (exists l,
        loadflag f sp.fmt_csc
        = py.Ok (sp.Sparse {| sp.fmt := sp.csc; sp.dtype := np.float64;
                              sp.n := sp.n m; sp.stored := l |})
        /\ Permutation (sp.stored m) l
        /\ StronglySorted (before sp.ColRow) l
        /\ forall r c, sp.stored_at r c l = sp.stored_at r c (sp.stored m))
  /\ (exists rows,
        loadflag f sp.fmt_dense = py.Ok (sp.Dense np.float64 rows)
        /\ List.length rows = sp.n m
        /\ forall r c,
             in_range (sp.n m) r -> in_range (sp.n m) c ->
             (sp.stored_at r c (sp.stored m) = [] ->
              cell rows r c = Some (np.F py.fzero))
             /\ (forall w,
                   sp.stored_at r c (sp.stored m) = [np.F w] ->
                   cell rows r c
                   = Some (np.F (SFadd py.prec64 py.emax64 py.fzero w)))
             /\ (forall s,
                   sp.stored_at r c (sp.stored m) = [np.F (S754_zero s)] ->
                   cell rows r c = Some (np.F py.fzero))).
Proof.
  intros H. destruct (loadflag_ok_canonical f m H) as (Hd & Hcan).
  pose proof (canonical_nodup _ Hcan) as Hnd.
  split; [|split].
  - rewrite (loadflag_asformat f m sp.fmt_coo H). cbn [sp.asformat].
    now rewrite Hd.
  - eexists. split; [|split; [|split]].
    + rewrite (loadflag_asformat f m sp.fmt_csc H). cbn [sp.asformat].
      rewrite Hd. reflexivity.
    + apply sort_any_perm.
    + now apply sort_by_column.
    + intros r c. symmetry. apply stored_at_perm; [apply sort_any_perm|exact Hnd].
  - eexists. split; [|split].
    + rewrite (loadflag_asformat f m sp.fmt_dense H). cbn [sp.asformat].
      rewrite Hd. reflexivity.
    + unfold sp.todense. now rewrite length_map, length_seq.
    + intros r c Hr Hc. rewrite (todense_cell m r c Hr Hc).
      unfold sp.dense_cell. rewrite Hd. split; [|split].
      * intros ->. reflexivity.
      * intros w ->. reflexivity.
      * intros s ->. destruct s; reflexivity.
Qed.

(** The example file: the edge [2 0 0] of weight zero and the absent edge
    (1, 0) under the four formats. *)
Lemma loadflag_formats_witness :
  loadflag example_flag sp.fmt_coo
  = py.Ok (sp.Sparse
             {| sp.fmt := sp.coo; sp.dtype := np.float64; sp.n := 3;
                sp.stored :=
                  [(0, 0, np.F (float_of 1)); (0, 1, np.F (float_of 5));
                   (1, 1, np.F (float_of 2)); (2, 0, np.F (float_of 0));
                   (2, 2, np.F (float_of 3))] |})
  /\ loadflag example_flag sp.fmt_csc
     = py.Ok (sp.Sparse
                {| sp.fmt := sp.csc; sp.dtype := np.float64; sp.n := 3;
                   sp.stored :=
                     [(0, 0, np.F (float_of 1)); (2, 0, np.F (float_of 0));
                      (0, 1, np.F (float_of 5)); (1, 1, np.F (float_of 2));
                      (2, 2, np.F (float_of 3))] |})
  /\ exists rows,
       loadflag example_flag sp.fmt_dense = py.Ok (sp.Dense np.float64 rows)
       /\ cell rows 2 0 = Some (np.F py.fzero)
       /\ cell rows 1 0 = Some (np.F py.fzero)
       /\ cell rows 0 1 = Some (np.F (float_of 5)).
Proof.
  destruct (loadflag_formats example_flag
              {| sp.fmt := sp.csr; sp.dtype := np.float64; sp.n := 3;
                 sp.stored :=
                   [(0, 0, np.F (float_of 1)); (0, 1, np.F (float_of 5));
                    (1, 1, np.F (float_of 2)); (2, 0, np.F (float_of 0));
                    (2, 2, np.F (float_of 3))] |}
              ltac:(vm_compute; reflexivity))
    as (Hcoo & (l & Hcsc & _) & rows & Hdense & _ & Hcell).
  split; [exact Hcoo|]. split; [vm_compute; reflexivity|].
  exists rows. split; [exact Hdense|].
  cbn [sp.n] in Hcell.
  assert (R0 : in_range 3 0) by (unfold in_range; simpl; lia).
  assert (R1 : in_range 3 1) by (unfold in_range; simpl; lia).
  assert (R2 : in_range 3 2) by (unfold in_range; simpl; lia).
  split; [|split].
  - apply (proj2 (proj2 (Hcell 2 0 R2 R0)) false). vm_compute. reflexivity.
  - apply (proj1 (Hcell 1 0 R1 R0)). vm_compute. reflexivity.
  - replace (float_of 5)
      with (SFadd py.prec64 py.emax64 py.fzero (float_of 5))
      by (vm_compute; reflexivity).
    apply (proj1 (proj2 (Hcell 0 1 R0 R1))). vm_compute. reflexivity.
Defined.

(** ** Matrices that do not come back *)

(** A boolean matrix with an edge does not come back: its edge lines hold
    two tokens, and [loadflag] asks every edge line for a third. *)
Theorem boolean_matrix_not_loaded k M fmt :
  np.dtype_eqb (sp.dtype_of M) np.bool_ = true ->
  sp.find k M <> [] ->
  py.raises (loadflag (saveflag k M) fmt) = true.
Proof.
  intros Hb Hne.
  destruct (sp.find k M) as [|e es] eqn:Hfind; [congruence|].
  apply (loadflag_raises_on_line _ fmt _ _ _ _ (ln (edge_format M e))
           (saveflag_lines k M)).
  - rewrite Hfind. now left.
  - intros m _. unfold load_edge. apply raises_bind.
    apply short_line_raises. unfold edge_format. rewrite Hb.
    rewrite fmt_edge_bool_join, line_tokens.
    + simpl. lia.
    + discriminate.
    + repeat constructor; apply fmt_i_solid.
Qed.

(** The boolean matrix of two vertices and one edge, under either key. *)
Lemma boolean_matrix_not_loaded_witness :
  py.raises (loadflag (saveflag sp.ColRow (sp.Sparse bool_matrix)) sp.fmt_csr)
  = true.
Proof.
  apply (boolean_matrix_not_loaded sp.ColRow (sp.Sparse bool_matrix) sp.fmt_csr).
  - reflexivity.
  - vm_compute. discriminate.
Defined.

(** A matrix without a vertex does not come back: [saveflag] writes an
    empty vertex line, and [float('')] raises. *)
Theorem round_trip_no_vertex k M fmt :
  sp.diagonal M = [] ->
  exists args, loadflag (saveflag k M) fmt = py.Raise (py.ValueError args).
Proof.
  intros Hd. unfold loadflag. rewrite saveflag_lines, Hd.
  cbn [py.readline]. eexists. vm_compute. reflexivity.
Qed.

(** The dense array of no row. *)
Lemma round_trip_no_vertex_witness :
  exists args,
    loadflag (saveflag sp.RowCol (sp.Dense np.float64 [])) sp.fmt_csr
    = py.Raise (py.ValueError args).
Proof.
  apply (round_trip_no_vertex sp.RowCol (sp.Dense np.float64 []) sp.fmt_csr).
  reflexivity.
Defined.

(** ** The diagonal after a round trip *)

Lemma stored_at_nil_none r c l :
  existsb (sp.at_pos r c) l = false -> sp.stored_at r c l = [].
Proof.
  unfold sp.stored_at. induction l as [|x l IH]; [reflexivity|].
  cbn [existsb filter]. intros H. apply orb_false_iff in H.
  destruct H as [-> H]. now apply IH.
Qed.

Lemma to_float_zero d :
  np.dtype_eqb d np.bool_ = false -> np.to_float (np.zero d) = py.fzero.
Proof. destruct d; [discriminate|reflexivity ..]. Qed.

Section RoundTripDiagonal.

Variable k : sp.lexsort_key.
Variable m : sp.spmatrix.
Hypothesis not_bool : np.dtype_eqb (sp.dtype m) np.bool_ = false.
Hypothesis not_empty : (0 < sp.n m)%nat.
Hypothesis in_shape : stored_in_shape m.
Hypothesis once : NoDup (positions (sp.stored m)).
Hypothesis diagonal_back :
  Forall float_reads_back (map np.to_float (sp.diagonal (sp.Sparse m))).
Hypothesis entries_back : Forall entry_reads_back (sp.find k (sp.Sparse m)).

(** Round trip, what is added: for a sparse matrix that is not boolean,
    has at least one vertex, stores each position once and inside its shape,
    and whose written numbers read back, a vertex whose diagonal position is
    not stored comes back stored, with the weight [0.0]. *)
Theorem round_trip_diagonal_filled i :
  in_range (sp.n m) i ->
  sp.present (sp.Sparse m) i i = false ->
  exists m',
    loadflag (saveflag k (sp.Sparse m)) sp.fmt_csr = py.Ok (sp.Sparse m')
    /\ sp.stored_at i i (sp.stored m') = [np.F py.fzero]
    /\ sp.present (sp.Sparse m') i i = true.
Proof.
  intros Hi Habs. cbn [sp.present] in Habs.
  assert (Hat : sp.stored_at i i
                  (assign_all
                     (diag_entries
                        (map np.to_float (sp.diagonal (sp.Sparse m)))
                      ++ edge_entries
                           (map record_of (sp.find k (sp.Sparse m)))) [])
                = [np.F py.fzero]).
  { rewrite stored_at_assign_all by constructor.
    rewrite last_at_app, last_at_unwritten.
    - assert (Hn : nth_error (map np.to_float (sp.diagonal (sp.Sparse m)))
                             (Z.to_nat i) = Some py.fzero).
      { unfold in_range in Hi. cbn [sp.diagonal]. rewrite map_map.
        rewrite nth_error_seq_map by lia. rewrite Z2Nat.id by lia.
        unfold sp.diagonal_cell.
        rewrite (stored_at_nil_none _ _ _ Habs).
        destruct (sp.fmt m); cbn [fold_left];
          now rewrite to_float_zero. }
      pose proof (last_at_diag _ _ _ Hn) as Hl.
      unfold in_range in Hi. rewrite Z2Nat.id in Hl by lia. now rewrite Hl.
    - intros e He Hpos. apply find_nodup_In in He; auto.
      destruct He as [He _].
      assert (Hex : existsb (sp.at_pos i i) (sp.stored m) = true).
      { apply existsb_exists. exists e. split; [exact He|].
        destruct e as [[r c] v]. cbn [fst] in Hpos. injection Hpos as -> ->.
        unpos. now rewrite !Z.eqb_refl. }
      congruence. }
  eexists. split; [apply loadflag_saveflag; assumption|].
  cbn [sp.stored]. split; [exact Hat|].
  eapply stored_at_present. cbn [sp.stored]. exact Hat.
Qed.

End RoundTripDiagonal.

(** The COO matrix of three edges stores no diagonal position; vertex 1
    comes back with the weight [0.0]. *)
Lemma round_trip_diagonal_filled_witness :
  exists m',
    loadflag (saveflag sp.ColRow (sp.Sparse coo_matrix)) sp.fmt_csr
    = py.Ok (sp.Sparse m')
    /\ sp.stored_at 1 1 (sp.stored m') = [np.F py.fzero]
    /\ sp.present (sp.Sparse m') 1 1 = true.
Proof.
  refine (round_trip_diagonal_filled sp.ColRow coo_matrix _ _ _ _ _ _ 1 _ _).
  - reflexivity.
  - simpl. lia.
  - unfold stored_in_shape. cbn [coo_matrix sp.stored].
    repeat (first [apply Forall_nil | apply Forall_cons]);
      unfold in_range; cbn; lia.
  - unfold positions. cbn [map coo_matrix sp.stored fst].
    repeat constructor; simpl; intuition discriminate.
  - cbn [sp.diagonal sp.n coo_matrix seq map].
    repeat (first [apply Forall_nil | apply Forall_cons]);
      vm_compute; reflexivity.
  - assert (E : sp.find sp.ColRow (sp.Sparse coo_matrix)
                = [(1, 0, np.F (float_of 3)); (0, 1, np.F (float_of 2));
                   (0, 2, np.F (float_of 1))])
      by (vm_compute; reflexivity).
    rewrite E.
    repeat (first [apply Forall_nil | apply Forall_cons]);
      (split; [|split]); vm_compute; reflexivity.
  - unfold in_range. simpl. lia.
  - reflexivity.
Defined.

(** ** When a collaborator fails *)

Section Collaborators.

Variable alias : np.float_alias.
Variable ext_s : sp.matrix -> py.result (vertices_t * edges_t).
Variable ext_p : sp.matrix -> option py.num ->
                 py.result (vertices_t * edges_t).
Variable engine : engine_args -> py.result (list homology).
Variables (M : sp.matrix) (mel : option py.num) (min_d : Z) (max_d : py.num)
          (directed : bool) (filtration : string) (coeff : Z)
          (approx : option Z).

(** An extraction that raises ends either function with its exception,
    and the engine is not called: the extraction is the one call made. *)
Theorem extraction_failure e log :
  str_in filtration implemented_filtrations = true ->
  (ext_s M = py.Raise e ->
   flagser_static ext_s engine M min_d max_d directed filtration coeff
                  approx log
   = (py.Raise e, (log ++ [ExtractStatic M])%list))
  /\ (forall r,
        resolve_max_edge_length alias mel (sp.dtype_of M) = py.Ok r ->
        ext_p M r = py.Raise e ->
        flagser_persistence alias ext_p engine M mel min_d max_d directed
                            filtration coeff approx log
        = (py.Raise e, (log ++ [ExtractPersistence M r])%list)).
Proof.
  intros Hf. split.
  - intros He. unfold flagser_static. rewrite Hf. cbn [negb].
    unfold bind_run, outside. now rewrite He.
  - intros r Hr He. unfold flagser_persistence.
    unfold bind_run, outside, lift. rewrite Hr, Hf. cbn [negb].
    now rewrite He.
Qed.

(** An engine that raises ends either function with its exception, and an
    engine that answers with an empty list ends it with the [IndexError] of
    [homology[0]]. *)
Theorem engine_failure ve r log :
  str_in filtration implemented_filtrations = true ->
  ext_s M = py.Ok ve ->
  resolve_max_edge_length alias mel (sp.dtype_of M) = py.Ok r ->
  ext_p M r = py.Ok ve ->
  (forall e,
     engine (call_args ve min_d max_d directed filtration coeff approx)
     = py.Raise e ->
     fst (flagser_static ext_s engine M min_d max_d directed filtration
                         coeff approx log) = py.Raise e
     /\ fst (flagser_persistence alias ext_p engine M mel min_d max_d directed
                                 filtration coeff approx log) = py.Raise e)
  /\ (engine (call_args ve min_d max_d directed filtration coeff approx)
      = py.Ok [] ->
      fst (flagser_static ext_s engine M min_d max_d directed filtration
                          coeff approx log)
      = py.Raise (py.IndexError "list index out of range")
      /\ fst (flagser_persistence alias ext_p engine M mel min_d max_d directed
                                  filtration coeff approx log)
         = py.Raise (py.IndexError "list index out of range")).
Proof.
  intros Hf Hs Hr Hp.
  pose proof (static_run ext_s engine M min_d max_d directed filtration coeff
                approx ve log Hf Hs) as Rs.
  pose proof (persistence_run alias ext_p engine M min_d max_d directed
                filtration coeff approx mel r ve log Hf Hr Hp) as Rp.
  cbn zeta in Rs, Rp. split.
  - intros e He. rewrite He in Rs, Rp. now rewrite Rs, Rp.
  - intros He. rewrite He in Rs, Rp. now rewrite Rs, Rp.
Qed.

End Collaborators.

(** The extractions that raise, on the matrix with a zero edge. *)
Lemma extraction_failure_witness :
  flagser_static failing_extract_static sample_engine
                 (sp.Sparse zero_edge_matrix) 0 (py.Int 2) true "max" 2 None []
  = (py.Raise (py.External "extract"),
     [ExtractStatic (sp.Sparse zero_edge_matrix)])
  /\ flagser_persistence np.float64_only failing_extract_persistence
                         sample_engine (sp.Sparse zero_edge_matrix) None 0
                         (py.Int 2) true "max" 2 None []
     = (py.Raise (py.External "extract"),
        [ExtractPersistence (sp.Sparse zero_edge_matrix)
                            (Some (py.Float py.inf))]).
Proof.
  pose proof (extraction_failure np.float64_only failing_extract_static
                failing_extract_persistence sample_engine
                (sp.Sparse zero_edge_matrix) None 0 (py.Int 2) true "max" 2
                None (py.External "extract") [] eq_refl) as [Hs Hp].
  split.
  - apply Hs. reflexivity.
  - apply (Hp (Some (py.Float py.inf))); reflexivity.
Defined.

(** The engine that raises. *)
Lemma engine_failure_witness :
  fst (flagser_static sample_extract_static failing_engine
                      (sp.Sparse zero_edge_matrix) 0 (py.Int 2) true "max" 2
                      None [])
  = py.Raise (py.External "engine")
  /\ fst (flagser_persistence np.float64_only sample_extract_persistence
                              failing_engine (sp.Sparse zero_edge_matrix) None
                              0 (py.Int 2) true "max" 2 None [])
     = py.Raise (py.External "engine").
Proof.
  apply (proj1 (engine_failure np.float64_only sample_extract_static
                  sample_extract_persistence failing_engine
                  (sp.Sparse zero_edge_matrix) None 0 (py.Int 2) true "max" 2
                  None (sp.diagonal (sp.Sparse zero_edge_matrix), [])
                  (Some (py.Float py.inf)) []
                  eq_refl eq_refl eq_refl eq_refl)
           (py.External "engine")).
  reflexivity.
Defined.

(** ** What the result is made of *)

Section FirstElement.

Variable alias : np.float_alias.
Variable ext_s : sp.matrix -> py.result (vertices_t * edges_t).
Variable ext_p : sp.matrix -> option py.num ->
                 py.result (vertices_t * edges_t).
Variables engine engine' : engine_args -> py.result (list homology).
Variables (M : sp.matrix) (mel : option py.num) (min_d : Z) (max_d : py.num)
          (directed : bool) (filtration : string) (coeff : Z)
          (approx : option Z).

(** Only [homology[0]] is read: two engines whose answers agree on their
    first element give the same result, in either function, whatever else
    their answers hold. *)
Theorem first_element_only log :
  (forall args, same_head (engine args) (engine' args)) ->
  fst (flagser_static ext_s engine M min_d max_d directed filtration coeff
                      approx log)
  = fst (flagser_static ext_s engine' M min_d max_d directed filtration
                        coeff approx log)
  /\ fst (flagser_persistence alias ext_p engine M mel min_d max_d directed
                              filtration coeff approx log)
     = fst (flagser_persistence alias ext_p engine' M mel min_d max_d directed
                                filtration coeff approx log).
Proof.
  intros Hsame.
  destruct (str_in filtration implemented_filtrations) eqn:Hf.
  - split.
    + destruct (ext_s M) as [ve|e] eqn:He.
      * rewrite (static_run ext_s engine M min_d max_d directed filtration
                   coeff approx ve log Hf He).
        rewrite (static_run ext_s engine' M min_d max_d directed filtration
                   coeff approx ve log Hf He). cbn zeta.
        specialize (Hsame (call_args ve min_d max_d directed filtration coeff
                                     approx)).
        unfold same_head in Hsame.
        destruct (engine _) as [[|h hs]|e], (engine' _) as [[|h' hs']|e'];
          try contradiction; subst; reflexivity.
      * unfold flagser_static. rewrite Hf. cbn [negb].
        unfold bind_run, outside. now rewrite He.
    + destruct (resolve_total alias mel (sp.dtype_of M)) as [r Hr].
      destruct (ext_p M r) as [ve|e] eqn:He.
      * rewrite (persistence_run alias ext_p engine M min_d max_d directed
                   filtration coeff approx mel r ve log Hf Hr He).
        rewrite (persistence_run alias ext_p engine' M min_d max_d directed
                   filtration coeff approx mel r ve log Hf Hr He). cbn zeta.
        specialize (Hsame (call_args ve min_d max_d directed filtration coeff
                                     approx)).
        unfold same_head in Hsame.
        destruct (engine _) as [[|h hs]|e], (engine' _) as [[|h' hs']|e'];
          try contradiction; subst; reflexivity.
      * unfold flagser_persistence.
        unfold bind_run, outside, lift. rewrite Hr, Hf. cbn [negb].
        now rewrite He.
  - split.
    + unfold flagser_static. now rewrite Hf.
    + unfold flagser_persistence. unfold bind_run, lift.
      destruct (resolve_max_edge_length alias mel (sp.dtype_of M));
        [|reflexivity].
      now rewrite Hf.
Qed.

End FirstElement.

(** The sample engine and the engine that answers with one element more. *)
Lemma first_element_only_witness :
  fst (flagser_static sample_extract_static sample_engine
                      (sp.Sparse zero_edge_matrix) 0 (py.Int 2) true "max" 2
                      None [])
  = fst (flagser_static sample_extract_static longer_engine
                        (sp.Sparse zero_edge_matrix) 0 (py.Int 2) true "max" 2
                        None [])
  /\ fst (flagser_persistence np.float64_only sample_extract_persistence
                              sample_engine (sp.Sparse zero_edge_matrix) None
                              0 (py.Int 2) true "max" 2 None [])
     = fst (flagser_persistence np.float64_only sample_extract_persistence
                                longer_engine (sp.Sparse zero_edge_matrix)
                                None 0 (py.Int 2) true "max" 2 None []).
Proof.
  apply (first_element_only np.float64_only sample_extract_static
           sample_extract_persistence
           sample_engine longer_engine (sp.Sparse zero_edge_matrix) None 0
           (py.Int 2) true "max" 2 None []).
  intros args. reflexivity.
Defined.

(** ** Finite diagrams *)

Lemma nan_to_num1_finite maxf x :
  finite_value maxf = true ->
  finite_value (np.nan_to_num1 maxf (SFopp np.float_max) x) = true.
Proof.
  intros H. destruct x as [s|[|]| |s m e]; try exact H; reflexivity.
Qed.

Lemma nan_to_num_finite r maxf (D : list diagram) :
  fill_value r = py.Ok maxf ->
  finite_value maxf = true ->
  exists D',
    py.map_result (fun dgm => np.nan_to_num dgm r) D = py.Ok D'
    /\ all_finite D'
    /\ Forall2 (fun d d' => List.length d = List.length d') D D'.
Proof.
  intros Hv Hfin. induction D as [|dgm D (D' & HD & HF & HL)].
  - exists []. repeat split; constructor.
  - cbn [py.map_result]. unfold np.nan_to_num at 1.
    assert (Hm : match r with
                 | Some v => np.as_float64 v
                 | None => py.Ok np.float_max
                 end = py.Ok maxf) by exact Hv.
    rewrite Hm. cbn [py.bind]. rewrite HD. cbn [py.bind].
    eexists. split; [reflexivity|]. split.
    + constructor; [|exact HF]. clear - Hfin.
      induction dgm as [|[b d] dgm IH]; cbn [map]; constructor; auto.
      cbn [fst snd]. split; now apply nan_to_num1_finite.
    + constructor; [|exact HL]. now rewrite length_map.
Qed.

(** The fill value of the default [max_edge_length] is finite for every
    dtype that [np.issubdtype] does not put under [np.float]. *)
Lemma default_fill_finite alias d :
  np.issubdtype_float alias d = false ->
  exists maxf,
    fill_value (default_max_edge_length alias d) = py.Ok maxf
    /\ finite_value maxf = true.
Proof.
  destruct alias, d as [|w|w|w]; try destruct w;
    cbn [np.issubdtype_float np.fwidth_eqb]; try discriminate; intros _;
    eexists; split; vm_compute; reflexivity.
Qed.

Section Finite.

Variable alias : np.float_alias.
Variable ext_p : sp.matrix -> option py.num ->
                 py.result (vertices_t * edges_t).
Variable engine : engine_args -> py.result (list homology).
Variables (M : sp.matrix) (mel : option py.num) (min_d : Z) (max_d : py.num)
          (directed : bool) (filtration : string) (coeff : Z)
          (approx : option Z).

(** When the value put in the place of [+inf] is finite, the diagrams
    [flagser_persistence] returns hold no infinity and no NaN: each has as
    many pairs as the engine's, and the counts are the engine's. *)
Theorem persistence_diagrams_finite r maxf ve h hs log :
  str_in filtration implemented_filtrations = true ->
  resolve_max_edge_length alias mel (sp.dtype_of M) = py.Ok r ->
  fill_value r = py.Ok maxf ->
  finite_value maxf = true ->
  ext_p M r = py.Ok ve ->
  engine (call_args ve min_d max_d directed filtration coeff approx)
  = py.Ok (h :: hs) ->
  exists out,
    fst (flagser_persistence alias ext_p engine M mel min_d max_d directed
                             filtration coeff approx log) = py.Ok out
    /\ all_finite (dgms out)
    /\ Forall2 (fun d d' => List.length d = List.length d')
               (get_persistence_diagram h) (dgms out)
    /\ cell_count out = get_cell_count h
    /\ betti out = get_betti_numbers h
    /\ euler out = get_euler_characteristic h.
Proof.
  intros Hf Hr Hv Hfin He Hengine.
  destruct (nan_to_num_finite r maxf (get_persistence_diagram h) Hv Hfin)
    as (D' & HD & HF & HL).
  rewrite (persistence_run alias ext_p engine M min_d max_d directed filtration
             coeff approx mel r ve log Hf Hr He). cbn zeta.
  rewrite Hengine, HD. cbn [fst]. eexists. split; [reflexivity|].
  cbn [dgms cell_count betti euler]. repeat split; assumption.
Qed.

End Finite.

(** With [max_edge_length] left at [None] and a matrix whose dtype
    [np.issubdtype] does not put under [np.float] (an integer or a boolean
    one, and a [float16] or [float32] one where [np.float] is [float64]),
    the diagrams [flagser_persistence] returns are finite. *)
Theorem persistence_default_finite alias ext_p engine M min_d max_d directed
    filtration coeff approx ve h hs log :
  np.issubdtype_float alias (sp.dtype_of M) = false ->
  str_in filtration implemented_filtrations = true ->
  ext_p M (default_max_edge_length alias (sp.dtype_of M)) = py.Ok ve ->
  engine (call_args ve min_d max_d directed filtration coeff approx)
  = py.Ok (h :: hs) ->
  exists out,
    fst (flagser_persistence alias ext_p engine M None min_d max_d directed
                             filtration coeff approx log) = py.Ok out
    /\ all_finite (dgms out).
Proof.
  intros Hd Hf He Hengine.
  destruct (default_fill_finite alias _ Hd) as (maxf & Hv & Hfin).
  destruct (nan_to_num_finite _ maxf (get_persistence_diagram h) Hv Hfin)
    as (D' & HD & HF & _).
  rewrite (persistence_run alias ext_p engine M min_d max_d directed filtration
             coeff approx None _ ve log Hf (resolve_default alias _) He).
  cbn zeta. rewrite Hengine, HD. cbn [fst]. eexists.
  split; [reflexivity|exact HF].
Qed.

(** [max_edge_length=10] on the engine whose diagram holds both
    infinities. *)
Lemma persistence_diagrams_finite_witness :
  exists out,
    fst (flagser_persistence np.float64_only sample_extract_persistence
           infinite_engine
           (sp.Sparse zero_edge_matrix) (Some (py.Int 10)) 0 (py.Int 2) true
           "max" 2 None []) = py.Ok out
    /\ all_finite (dgms out)
    /\ Forall2 (fun d d' => List.length d = List.length d')
               (get_persistence_diagram infinite_homology) (dgms out)
    /\ cell_count out = get_cell_count infinite_homology
    /\ betti out = get_betti_numbers infinite_homology
    /\ euler out = get_euler_characteristic infinite_homology.
Proof.
  apply (persistence_diagrams_finite np.float64_only sample_extract_persistence
           infinite_engine (sp.Sparse zero_edge_matrix) (Some (py.Int 10)) 0
           (py.Int 2) true "max" 2 None (Some (py.Int 10)) (float_of 10)
           (sp.diagonal (sp.Sparse zero_edge_matrix), [])
           infinite_homology [sample_homology] []);
    reflexivity.
Defined.

(** The boolean matrix, whose default is [None]. *)
Lemma persistence_default_finite_witness :
  exists out,
    fst (flagser_persistence np.float64_only sample_extract_persistence
           infinite_engine
           bool_flag_matrix None 0 (py.Int 2) true "max" 2 None [])
    = py.Ok out
    /\ all_finite (dgms out).
Proof.
  apply (persistence_default_finite np.float64_only sample_extract_persistence
           infinite_engine bool_flag_matrix 0 (py.Int 2) true "max" 2 None
           (sp.diagonal bool_flag_matrix, [])
           infinite_homology [sample_homology] []);
    reflexivity.
Defined.

(** ** The tokens of a line *)

Lemma map_result_raises {A B} (f : A -> py.result B) l a :
  In a l -> py.raises (f a) = true -> py.raises (py.map_result f l) = true.
Proof.
  induction l as [|x l IH]; intros Hin Hr; [destruct Hin|].
  cbn [py.map_result]. destruct Hin as [->|Hin].
  - now apply raises_bind.
  - destruct (f x) as [b|e]; [|reflexivity]. cbn [py.bind].
    apply raises_bind. now apply IH.
Qed.

(** Two separators in a row leave an empty token, and not as the first
    one. *)
Lemma split_chars_double sep a b :
  exists pre post,
    py.split_chars sep (a ++ sep :: sep :: b) = (pre ++ [] :: post)%list
    /\ pre <> [].
Proof.
  induction a as [|c a (pre & post & IH & Hne)]; cbn [app py.split_chars].
  - rewrite Ascii.eqb_refl. exists [[]], (py.split_chars sep b).
    split; [reflexivity|discriminate].
  - destruct (Ascii.eqb c sep).
    + exists ([] :: pre), post. rewrite IH. split; [reflexivity|discriminate].
    + rewrite IH. destruct pre as [|p0 pre]; [congruence|].
      exists ((c :: p0) :: pre), post. split; [reflexivity|discriminate].
Qed.

(** [split(' ')] cuts at every blank: a vertex line with two blanks in a
    row holds an empty token, [float('')] raises, and the file does not
    load. *)
Theorem loadflag_double_blank f fmt l1 l2 rest a b :
  py.readlines f = l1 :: l2 :: rest ->
  py.strip l2 = a ++ "  " ++ b ->
  py.raises (loadflag f fmt) = true.
Proof.
  intros Hlines Hstrip. unfold loadflag. rewrite Hlines. cbn [py.readline].
  apply raises_bind. unfold vertex_weights.
  apply (map_result_raises _ _ "").
  - unfold py.split. rewrite Hstrip.
    replace (list_ascii_of_string (a ++ "  " ++ b))
      with (chars a ++ " "%char :: " "%char :: chars b)%list
      by (fold (chars (a ++ "  " ++ b)); now rewrite !chars_app).
    destruct (split_chars_double " "%char (chars a) (chars b))
      as (pre & post & -> & _).
    rewrite map_app. apply in_or_app. right. now left.
  - reflexivity.
Qed.

(** The vertex line [1.0  2.0]. *)
Lemma loadflag_double_blank_witness :
  py.raises (loadflag (file_of ["dim 0"; "1.0  2.0"; "dim 1"; "0 1 5.0"])
                      sp.fmt_csr) = true.
Proof.
  apply (loadflag_double_blank
           (file_of ["dim 0"; "1.0  2.0"; "dim 1"; "0 1 5.0"]) sp.fmt_csr
           (ln "dim 0") (ln "1.0  2.0") [ln "dim 1"; ln "0 1 5.0"]
           "1.0" "2.0").
  - vm_compute. reflexivity.
  - vm_compute. reflexivity.
Defined.

(** One pass of the loop reads three tokens: the weight first, as the
    right-hand side of the assignment, so that its error is the one raised;
    what follows the third token is not read. *)
Theorem edge_line_tokens line a b w extra :
  py.split " " (py.strip line) = a :: b :: w :: extra ->
  (forall e, py.float_of_string w = py.Raise e ->
             edge_record line = py.Raise e)
  /\ (forall line', py.split " " (py.strip line') = [a; b; w] ->
                    edge_record line = edge_record line').
Proof.
  intros H. split.
  - intros e He. unfold edge_record. rewrite H. cbn [py.getitem nth_error py.bind].
    now rewrite He.
  - intros line' H'. unfold edge_record. now rewrite H, H'.
Qed.

(** A line whose index and weight are both not numbers, and a line with a
    fourth token. *)
Lemma edge_line_tokens_witness :
  (exists args, edge_record (ln "x 1 y") = py.Raise (py.ValueError args)
                /\ py.float_of_string "y" = py.Raise (py.ValueError args))
  /\ edge_record (ln "0 1 5.0 junk") = edge_record (ln "0 1 5.0").
Proof.
  split.
  - eexists. split; [|reflexivity].
    apply (proj1 (edge_line_tokens (ln "x 1 y") "x" "1" "y" [] eq_refl)).
    reflexivity.
  - apply (proj2 (edge_line_tokens (ln "0 1 5.0 junk") "0" "1" "5.0" ["junk"]
                    eq_refl)).
    reflexivity.
Defined.
